(** * FaaSKeeper client: reply ordering, watch registry and queues

    A shallow embedding of [faaskeeper/queue.py]: the two queues
    ([EventQueue], [WorkQueue]), the read of the reply socket in
    [ResponseListener.run] and the loop body of [SorterThread.run] with its
    timeout scan.

    Conventions of the embedding.
    - A method that can raise returns [(PyException + A) * state]: the state
      is returned on both branches because a Python exception leaves behind
      whatever was mutated before it was raised.
    - [queue.Queue] is a FIFO list; a [get] that times out on an empty queue
      returns [None] as in the source.
    - Python [int] is [Z]; Python [float] is a binary64 primitive float;
      [str] is the sequence of its UTF-8 bytes.
    - Objects of classes defined outside [queue.py] ([Future], [Operation],
      [Watch], [Node]) are records of the attributes the module reads; the
      methods it calls on them ([set_result], [set_exception],
      [process_result], [generate_message]) are recorded, in call order, in a
      trace of effects. *)

From Stdlib Require Import ZArith List Bool Ascii String Lia.
From Stdlib Require Import Floats.PrimFloat.
From stdpp Require Import base option list strings gmap fin_maps sorting.

Import ListNotations.
Local Open Scope Z_scope.

(* ===================================================================== *)
(** * Python values and exceptions *)
(* ===================================================================== *)

(** The exceptions the module raises or lets escape. *)
Inductive PyException : Type :=
  | SessionClosingException
  | TimeoutException (timeout : float)
  | ProviderException (msg : string)
  | AssertionError
  | IndexError
  | KeyError (key : string)
  | ValueError
  | AttributeError.

(** Values found in a decoded JSON reply. *)
Inductive PyValue : Type :=
  | PyNone
  | PyInt (n : Z)
  | PyStr (s : string).

(** A decoded JSON object: a [dict] with string keys. *)
Abbreviation PyDict := (gmap string PyValue).

(** ** State-and-exception monad *)

Definition Py (S A : Type) : Type := S -> (PyException + A) * S.

#[global] Instance py_ret {S} : MRet (Py S) := fun A a s => (inr a, s).
#[global] Instance py_bind {S} : MBind (Py S) := fun A B k m s =>
  match m s with
  | (inl e, s') => (inl e, s')
  | (inr a, s') => k a s'
  end.
Definition raise {S A} (e : PyException) : Py S A := fun s => (inl e, s).
Definition get_state {S} : Py S S := fun s => (inr s, s).
Definition modify {S} (f : S -> S) : Py S unit := fun s => (inr tt, f s).

(* ===================================================================== *)
(** * [hashlib.md5(...).hexdigest()] (RFC 1321) *)
(* ===================================================================== *)

Module MD5.

Definition mask32 : Z := 0xffffffff.
Definition add32 (a b : Z) : Z := Z.land (a + b) mask32.
Definition not32 (a : Z) : Z := Z.lxor a mask32.
Definition rotl32 (x c : Z) : Z :=
  Z.land (Z.lor (Z.shiftl x c) (Z.shiftr x (32 - c))) mask32.

Definition shifts : list Z :=
  [7; 12; 17; 22; 7; 12; 17; 22; 7; 12; 17; 22; 7; 12; 17; 22;
   5;  9; 14; 20; 5;  9; 14; 20; 5;  9; 14; 20; 5;  9; 14; 20;
   4; 11; 16; 23; 4; 11; 16; 23; 4; 11; 16; 23; 4; 11; 16; 23;
   6; 10; 15; 21; 6; 10; 15; 21; 6; 10; 15; 21; 6; 10; 15; 21].

(** [floor (2^32 * abs (sin (i + 1)))] for [i = 0 .. 63]. *)
Definition sines : list Z :=
  [0xd76aa478; 0xe8c7b756; 0x242070db; 0xc1bdceee; 0xf57c0faf; 0x4787c62a;
   0xa8304613; 0xfd469501; 0x698098d8; 0x8b44f7af; 0xffff5bb1; 0x895cd7be;
   0x6b901122; 0xfd987193; 0xa679438e; 0x49b40821; 0xf61e2562; 0xc040b340;
   0x265e5a51; 0xe9b6c7aa; 0xd62f105d; 0x02441453; 0xd8a1e681; 0xe7d3fbc8;
   0x21e1cde6; 0xc33707d6; 0xf4d50d87; 0x455a14ed; 0xa9e3e905; 0xfcefa3f8;
   0x676f02d9; 0x8d2a4c8a; 0xfffa3942; 0x8771f681; 0x6d9d6122; 0xfde5380c;
   0xa4beea44; 0x4bdecfa9; 0xf6bb4b60; 0xbebfbc70; 0x289b7ec6; 0xeaa127fa;
   0xd4ef3085; 0x04881d05; 0xd9d4d039; 0xe6db99e5; 0x1fa27cf8; 0xc4ac5665;
   0xf4292244; 0x432aff97; 0xab9423a7; 0xfc93a039; 0x655b59c3; 0x8f0ccc92;
   0xffeff47d; 0x85845dd1; 0x6fa87e4f; 0xfe2ce6e0; 0xa3014314; 0x4e0811a1;
   0xf7537e82; 0xbd3af235; 0x2ad7d2bb; 0xeb86d391].

Definition bytes_of_string (s : string) : list Z :=
  map (fun c => Z.of_N (N_of_ascii c)) (list_ascii_of_string s).

(** Little-endian bytes of [x], [n] of them. *)
Fixpoint le_bytes (n : nat) (x : Z) : list Z :=
  match n with
  | O => []
  | S n' => Z.land x 0xff :: le_bytes n' (Z.shiftr x 8)
  end.

Fixpoint le_word (bs : list Z) : Z :=
  match bs with
  | [] => 0
  | b :: bs' => Z.lor b (Z.shiftl (le_word bs') 8)
  end.

(** Message, the byte 0x80, zero bytes up to 56 modulo 64, then the bit
    length on 8 little-endian bytes. *)
Definition pad (msg : list Z) : list Z :=
  let len := Z.of_nat (length msg) in
  let zeros := Z.to_nat ((55 - len) mod 64) in
  msg ++ [0x80] ++ repeat 0 zeros ++ le_bytes 8 (Z.land (8 * len) 0xffffffffffffffff).

Fixpoint chunks (fuel : nat) (k : nat) {A} (l : list A) : list (list A) :=
  match fuel with
  | O => []
  | S fuel' =>
      match l with
      | [] => []
      | _ => firstn k l :: chunks fuel' k (skipn k l)
      end
  end.

Definition words_of_block (block : list Z) : list Z :=
  map le_word (chunks 16 4 block).

Definition round (M : list Z) (st : Z * Z * Z * Z) (i : Z) : Z * Z * Z * Z :=
  let '(A, B, C, D) := st in
  let '(F, g) :=
    if i <? 16 then (Z.lor (Z.land B C) (Z.land (not32 B) D), i)
    else if i <? 32 then (Z.lor (Z.land D B) (Z.land (not32 D) C), (5 * i + 1) mod 16)
    else if i <? 48 then (Z.lxor (Z.lxor B C) D, (3 * i + 5) mod 16)
    else (Z.lxor C (Z.lor B (not32 D)), (7 * i) mod 16) in
  let F' := add32 (add32 (add32 F A) (nth (Z.to_nat i) sines 0)) (nth (Z.to_nat g) M 0) in
  (D, add32 B (rotl32 F' (nth (Z.to_nat i) shifts 0)), B, C).

Definition process_block (h : Z * Z * Z * Z) (block : list Z) : Z * Z * Z * Z :=
  let '(a0, b0, c0, d0) := h in
  let '(A, B, C, D) :=
    fold_left (round (words_of_block block)) (map Z.of_nat (seq 0 64)) h in
  (add32 a0 A, add32 b0 B, add32 c0 C, add32 d0 D).

Definition digest (msg : list Z) : list Z :=
  let padded := pad msg in
  let '(a, b, c, d) :=
    fold_left process_block (chunks (length padded) 64 padded)
              (0x67452301, 0xefcdab89, 0x98badcfe, 0x10325476) in
  le_bytes 4 a ++ le_bytes 4 b ++ le_bytes 4 c ++ le_bytes 4 d.

Definition hex_digit (n : Z) : ascii :=
  nth (Z.to_nat n) (list_ascii_of_string "0123456789abcdef") "0"%char.

Definition hex_of_bytes (bs : list Z) : string :=
  string_of_list_ascii
    (flat_map (fun b => [hex_digit (Z.shiftr b 4); hex_digit (Z.land b 0xf)]) bs).

(** [hashlib.md5(s.encode()).hexdigest()] *)
Definition hexdigest (s : string) : string :=
  hex_of_bytes (digest (bytes_of_string s)).

End MD5.

(* ===================================================================== *)
(** * [str.split] and [int] *)
(* ===================================================================== *)

(** [s.split(sep)] for a one-character separator: the pieces between the
    occurrences of [sep], never an empty list. *)
Fixpoint py_split (sep : ascii) (s : string) : list string :=
  match s with
  | EmptyString => [EmptyString]
  | String c s' =>
      if Ascii.eqb c sep then EmptyString :: py_split sep s'
      else match py_split sep s' with
           | [] => [String c EmptyString]
           | piece :: pieces => String c piece :: pieces
           end
  end.

Definition is_space (c : ascii) : bool :=
  let n := nat_of_ascii c in
  ((9 <=? n)%nat && (n <=? 13)%nat) || (n =? 32)%nat.

Definition digit_value (c : ascii) : option Z :=
  let n := nat_of_ascii c in
  if ((48 <=? n)%nat && (n <=? 57)%nat) then Some (Z.of_nat (n - 48)) else None.

Fixpoint lstrip (s : list ascii) : list ascii :=
  match s with
  | c :: s' => if is_space c then lstrip s' else s
  | [] => []
  end.

Definition strip (s : list ascii) : list ascii := rev (lstrip (rev (lstrip s))).

(** Decimal digits, single underscores allowed between two digits. *)
Fixpoint parse_digits (acc : Z) (after_digit : bool) (s : list ascii) : option Z :=
  match s with
  | [] => if after_digit then Some acc else None
  | c :: s' =>
      match digit_value c with
      | Some d => parse_digits (10 * acc + d) true s'
      | None =>
          if Ascii.eqb c "_" && after_digit then parse_digits acc false s' else None
      end
  end.

(** The text of an integer literal in ASCII: surrounding white space, an
    optional sign, decimal digits. *)
Definition int_of_ascii (text : list ascii) : option Z :=
  match strip text with
  | "+"%char :: body => parse_digits 0 false body
  | "-"%char :: body => Z.opp <$> parse_digits 0 false body
  | body => parse_digits 0 false body
  end.

(** A [str] is held as its UTF-8 bytes, the bytes [path.encode()] hashes. *)
Definition byte_value (c : ascii) : Z := Z.of_N (N_of_ascii c).

Definition continuation (c : ascii) : option Z :=
  let b := byte_value c in
  if (0x80 <=? b) && (b <? 0xC0) then Some (b - 0x80) else None.

(** The code points of a string; [None] for bytes that are not the UTF-8
    encoding of any string. *)
Fixpoint code_points (s : list ascii) : option (list Z) :=
  match s with
  | [] => Some []
  | c0 :: s1 =>
      let b0 := byte_value c0 in
      if b0 <? 0x80 then cons b0 <$> code_points s1
      else if b0 <? 0xC2 then None
      else if b0 <? 0xE0 then
        match s1 with
        | c1 :: s2 =>
            match continuation c1 with
            | Some x1 => cons ((b0 - 0xC0) * 64 + x1) <$> code_points s2
            | None => None
            end
        | _ => None
        end
      else if b0 <? 0xF0 then
        match s1 with
        | c1 :: c2 :: s3 =>
            match continuation c1, continuation c2 with
            | Some x1, Some x2 =>
                let cp := (b0 - 0xE0) * 4096 + x1 * 64 + x2 in
                if (cp <? 0x800) || ((0xD800 <=? cp) && (cp <? 0xE000)) then None
                else cons cp <$> code_points s3
            | _, _ => None
            end
        | _ => None
        end
      else if b0 <? 0xF5 then
        match s1 with
        | c1 :: c2 :: c3 :: s4 =>
            match continuation c1, continuation c2, continuation c3 with
            | Some x1, Some x2, Some x3 =>
                let cp := (b0 - 0xF0) * 262144 + x1 * 4096 + x2 * 64 + x3 in
                if (cp <? 0x10000) || (0x10FFFF <? cp) then None
                else cons cp <$> code_points s4
            | _, _, _ => None
            end
        | _ => None
        end
      else None
  end.

(** The white space of [str.isspace] outside ASCII. *)
Definition unicode_spaces : list Z :=
  [0x85; 0xa0; 0x1680; 0x2000; 0x2001; 0x2002; 0x2003; 0x2004; 0x2005; 0x2006;
   0x2007; 0x2008; 0x2009; 0x200a; 0x2028; 0x2029; 0x202f; 0x205f; 0x3000].

(** The digit zero of each script outside ASCII that has decimal digits
    (Unicode 14.0, the character database of CPython 3.11); the digits 1 to
    9 of a script follow its zero. *)
Definition unicode_zeros : list Z :=
  [0x660; 0x6f0; 0x7c0; 0x966; 0x9e6; 0xa66; 0xae6; 0xb66; 0xbe6; 0xc66;
   0xce6; 0xd66; 0xde6; 0xe50; 0xed0; 0xf20; 0x1040; 0x1090; 0x17e0;
   0x1810; 0x1946; 0x19d0; 0x1a80; 0x1a90; 0x1b50; 0x1bb0; 0x1c40; 0x1c50;
   0xa620; 0xa8d0; 0xa900; 0xa9d0; 0xa9f0; 0xaa50; 0xabf0; 0xff10; 0x104a0;
   0x10d30; 0x11066; 0x110f0; 0x11136; 0x111d0; 0x112f0; 0x11450; 0x114d0;
   0x11650; 0x116c0; 0x11730; 0x118e0; 0x11950; 0x11c50; 0x11d50; 0x11da0;
   0x16a60; 0x16ac0; 0x16b50; 0x1d7ce; 0x1d7d8; 0x1d7e2; 0x1d7ec; 0x1d7f6;
   0x1e140; 0x1e2f0; 0x1e950; 0x1fbf0].

Definition unicode_decimal (cp : Z) : option Z :=
  (fun zero => cp - zero)
    <$> List.find (fun zero => (zero <=? cp) && (cp <? zero + 10)) unicode_zeros.

(** What [int] reads a character as: an ASCII character as itself, white
    space as a blank, a decimal digit of any script as the ASCII digit of
    the same value; any other character makes the literal invalid. *)
Definition ascii_of_code_point (cp : Z) : option ascii :=
  if cp <? 127 then Some (ascii_of_N (Z.to_N cp))
  else if existsb (Z.eqb cp) unicode_spaces then Some " "%char
  else (fun d => ascii_of_N (Z.to_N (48 + d))) <$> unicode_decimal cp.

Fixpoint ascii_of_code_points (cps : list Z) : option (list ascii) :=
  match cps with
  | [] => Some []
  | cp :: cps' =>
      match ascii_of_code_point cp with
      | Some c => cons c <$> ascii_of_code_points cps'
      | None => None
      end
  end.

(** [int(s)] for a [str]: the characters are first brought to ASCII, then
    read as surrounding white space, an optional sign and decimal digits
    with single underscores between them. [None] stands for [ValueError].
    The limit the interpreter can put on the number of digits
    ([sys.set_int_max_str_digits], 4300 by default where it exists, 0 to
    switch it off) is a setting of the interpreter and is not modelled. *)
Definition py_int (s : string) : option Z :=
  match code_points (list_ascii_of_string s) with
  | Some cps =>
      match ascii_of_code_points cps with
      | Some text => int_of_ascii text
      | None => None
      end
  | None => None
  end.

(* ===================================================================== *)
(** * Objects of the collaborating modules *)
(* ===================================================================== *)

(** Modelled from the spec: the enumeration [WatchType] of
    [faaskeeper.watch], which is not among the sources; the spec lists
    GET_DATA, EXISTS and GET_CHILDREN. *)
Inductive WatchType : Type := GET_DATA | EXISTS | GET_CHILDREN.

(** Modelled from the spec: the enumeration [WatchEventType] of
    [faaskeeper.watch], which is not among the sources; the spec requires
    NODE_DATA_CHANGED among its members. The module only ever tests a
    member for being NODE_DATA_CHANGED. *)
Inductive WatchEventType : Type :=
  | NODE_CREATED
  | NODE_DATA_CHANGED
  | NODE_CHILDREN_CHANGED
  | NODE_DELETED.

#[global] Instance WatchType_eq_dec : EqDecision WatchType.
Proof. solve_decision. Defined.
#[global] Instance WatchEventType_eq_dec : EqDecision WatchEventType.
Proof. solve_decision. Defined.

Definition WatchEventType_str (e : WatchEventType) : string :=
  match e with
  | NODE_CREATED => "WatchEventType.NODE_CREATED"
  | NODE_DATA_CHANGED => "WatchEventType.NODE_DATA_CHANGED"
  | NODE_CHILDREN_CHANGED => "WatchEventType.NODE_CHILDREN_CHANGED"
  | NODE_DELETED => "WatchEventType.NODE_DELETED"
  end.

(** A [Watch] object: the two attributes the module reads, and the user
    callback it carries, named by a number. *)
Record Watch : Type := mkWatch {
  watch_callback : nat;
  watch_type : WatchType;
  timestamp : Z
}.

#[global] Instance Watch_eq_dec : EqDecision Watch.
Proof. solve_decision. Defined.

(** [WatchedEvent(event_type, path, timestamp)] *)
Record WatchedEvent : Type := mkWatchedEvent {
  event_type : WatchEventType;
  event_path : string;
  event_timestamp : Z
}.

(** A [Future], named by a number. *)
Record Future : Type := mkFuture { future_id : nat }.

(** An [Operation]: its name and target path. *)
Record Operation : Type := mkOperation { op_name : string; op_path : string }.

(** A [Node]: [path], [modified.system.sum] and [modified.epoch.version]
    (in iteration order). *)
Record Node : Type := mkNode {
  path : string;
  modified_system_sum : Z;
  modified_epoch_version : list string
}.

(** The [result] of a direct request: [None], a [Node], an exception, or
    any other value. *)
Inductive DirectResult : Type :=
  | ResNone
  | ResNode (n : Node)
  | ResException (e : PyException)
  | ResValue (v : PyValue).

(** The tuples of the event queue, tagged by [EventQueue.EventType]. *)
Inductive Event : Type :=
  | CLOUD_INDIRECT_RESULT (result : PyDict)
  | CLOUD_DIRECT_RESULT (request_id : Z) (result : DirectResult) (future : Future)
  | CLOUD_EXPECTED_RESULT (request_id : Z) (request : Operation) (future : Future)
  | WATCH_NOTIFICATION (watch : Watch) (event : WatchedEvent).

(** The three fields [add_watch_notification] reads from its reply, once
    [_closing] has been tested: [result["path"]],
    [WatchEventType(result["watch-event"])] and [result["timestamp"]], for
    a reply on which the three reads succeed. *)
Record Notification : Type := mkNotification {
  n_path : string;
  n_watch_event : WatchEventType;
  n_timestamp : Z
}.

(* ===================================================================== *)
(** * [class EventQueue] *)
(* ===================================================================== *)

Module EventQueue.

(** [_queue], the watch registry [_watches] (MD5 of the path to the list
    of its watches), [_closing], and the warnings written to [_log]. *)
Record t : Type := mk {
  _queue : list Event;
  _watches : gmap string (list Watch);
  _closing : bool;
  _log : list string
}.

(** [__init__] *)
Definition init : t := mk [] ∅ false [].

Definition set_queue (f : list Event -> list Event) (q : t) : t :=
  mk (f (_queue q)) (_watches q) (_closing q) (_log q).
Definition set_watches
    (f : gmap string (list Watch) -> gmap string (list Watch)) (q : t) : t :=
  mk (_queue q) (f (_watches q)) (_closing q) (_log q).

(** [if self._closing: raise SessionClosingException()] *)
Definition check_closing : Py t unit :=
  fun q => if _closing q then (inl SessionClosingException, q) else (inr tt, q).

(** [self._queue.put(item)] *)
Definition put (item : Event) : Py t unit :=
  modify (set_queue (fun items => items ++ [item])).

(** [self._log.warn(msg)] *)
Definition warn (msg : string) : Py t unit :=
  modify (fun q => mk (_queue q) (_watches q) (_closing q) (_log q ++ [msg])).

Definition add_expected_result
    (request_id : Z) (request : Operation) (future : Future) : Py t unit :=
  check_closing ;; put (CLOUD_EXPECTED_RESULT request_id request future).

Definition add_direct_result
    (request_id : Z) (result : DirectResult) (future : Future) : Py t unit :=
  check_closing ;; put (CLOUD_DIRECT_RESULT request_id result future).

Definition add_indirect_result (result : PyDict) : Py t unit :=
  check_closing ;; put (CLOUD_INDIRECT_RESULT result).

Definition ignoring_msg (watch_event : WatchEventType) (path : string) : string :=
  "Ignoring unknown watch notification for even " +:+ WatchEventType_str watch_event
    +:+ " on path " +:+ path.

(** The [for idx, w in enumerate(existing_watches)] loop of
    [add_watch_notification], from index [idx] on. The [return] of the
    source closes the NODE_DATA_CHANGED branch, whatever the type of [w];
    the warning after the loop is reached when the loop runs out. *)
Fixpoint notification_loop
    (result : Notification) (hashed_path : string)
    (idx : nat) (rest : list Watch) : Py t unit :=
  match rest with
  | [] => warn (ignoring_msg (n_watch_event result) (n_path result))
  | w :: rest' =>
      if decide (n_watch_event result = NODE_DATA_CHANGED) then
        if decide (watch_type w = GET_DATA) then
          put (WATCH_NOTIFICATION w
                 (mkWatchedEvent (n_watch_event result) (n_path result)
                                 (n_timestamp result))) ;;
          modify (set_watches (alter (delete idx) hashed_path))
        else mret tt
      else notification_loop result hashed_path (S idx) rest'
  end.

Definition add_watch_notification (result : Notification) : Py t unit :=
  check_closing ;;
  let hashed_path := MD5.hexdigest (n_path result) in
  q ← get_state;
  match _watches q !! hashed_path with
  | Some (w :: ws) => notification_loop result hashed_path 0 (w :: ws)
  | _ => warn (ignoring_msg (n_watch_event result) (n_path result))
  end.

(** The [for idx, w in enumerate(existing_watches)] loop of [add_watch],
    from index [idx] on; the append after the loop when it runs out. *)
Fixpoint add_watch_loop
    (watch : Watch) (hashed_path : string)
    (idx : nat) (rest : list Watch) : Py t unit :=
  match rest with
  | [] => modify (set_watches (alter (fun ws => ws ++ [watch]) hashed_path))
  | w :: rest' =>
      if decide (watch_type w = watch_type watch) then
        modify (set_watches (alter (<[idx := watch]>) hashed_path))
      else add_watch_loop watch hashed_path (S idx) rest'
  end.

Definition add_watch (path : string) (watch : Watch) : Py t unit :=
  check_closing ;;
  let hashed_path := MD5.hexdigest path in
  q ← get_state;
  match _watches q !! hashed_path with
  | Some (w :: ws) => add_watch_loop watch hashed_path 0 (w :: ws)
  | _ => modify (set_watches (<[hashed_path := [watch]]>))
  end.

(** The inner loop of [get_watches]: the watches collected so far and
    [watches_removed]. *)
Definition get_watches_inner
    (timestamp' : Z) (acc : list Watch * nat) (w : Watch) : list Watch * nat :=
  if timestamp w <? timestamp' then (fst acc ++ [w], S (snd acc)) else acc.

(** One round of the outer loop of [get_watches], for the key [p]. *)
Definition get_watches_outer
    (timestamp' : Z) (acc : list Watch * gmap string (list Watch)) (p : string)
    : list Watch * gmap string (list Watch) :=
  let '(watches, registry) := acc in
  let existing_watches := default [] (registry !! p) in
  let '(watches, watches_removed) :=
    fold_left (get_watches_inner timestamp') existing_watches (watches, 0%nat) in
  if (watches_removed =? length existing_watches)%nat
  then (watches, delete p registry)
  else (watches, registry).

Definition get_watches (paths : list string) (timestamp' : Z) : Py t (list Watch) :=
  check_closing ;;
  q ← get_state;
  let '(watches, registry) :=
    fold_left (get_watches_outer timestamp') paths ([], _watches q) in
  modify (set_watches (fun _ => registry)) ;;
  mret watches.

(** [get]: the head of the queue, or [None] when the queue stays empty for
    the half second of the poll. *)
Definition get : Py t (option Event) :=
  fun q => match _queue q with
           | [] => (inr None, q)
           | item :: items => (inr (Some item), set_queue (fun _ => items) q)
           end.

Definition close : Py t unit :=
  modify (fun q => mk (_queue q) (_watches q) true (_log q)).

(** The calls other threads make on the queue. *)
Inductive Call : Type :=
  | AddExpectedResult (request_id : Z) (request : Operation) (future : Future)
  | AddDirectResult (request_id : Z) (result : DirectResult) (future : Future)
  | AddIndirectResult (result : PyDict)
  | AddWatchNotification (result : Notification)
  | AddWatch (path : string) (watch : Watch)
  | GetWatches (paths : list string) (timestamp' : Z)
  | Get
  | Close.

(** What a call returns. *)
Inductive Returned : Type :=
  | RetNone
  | RetWatches (watches : list Watch)
  | RetItem (item : option Event).

Definition perform (c : Call) : Py t Returned :=
  match c with
  | AddExpectedResult i r f => add_expected_result i r f ;; mret RetNone
  | AddDirectResult i r f => add_direct_result i r f ;; mret RetNone
  | AddIndirectResult r => add_indirect_result r ;; mret RetNone
  | AddWatchNotification r => add_watch_notification r ;; mret RetNone
  | AddWatch p w => add_watch p w ;; mret RetNone
  | GetWatches ps ts => ws ← get_watches ps ts; mret (RetWatches ws)
  | Get => item ← get; mret (RetItem item)
  | Close => close ;; mret RetNone
  end.

(** The enqueue side: the calls that put an item or change the registry. *)
Definition is_enqueue (c : Call) : bool :=
  match c with
  | AddExpectedResult _ _ _ | AddDirectResult _ _ _ | AddIndirectResult _
  | AddWatchNotification _ | AddWatch _ _ => true
  | _ => false
  end.

(** A sequence of calls: each call with what it returned or raised, and
    the queue at the end. *)
Fixpoint perform_all (calls : list Call) (q : t)
    : list (Call * (PyException + Returned)) * t :=
  match calls with
  | [] => ([], q)
  | c :: calls' =>
      let '(r, q') := perform c q in
      let '(log, q'') := perform_all calls' q' in
      ((c, r) :: log, q'')
  end.

(** States a queue can be in: [init], then any calls. *)
Inductive reachable : t -> Prop :=
  | reachable_init : reachable init
  | reachable_perform q c : reachable q -> reachable (snd (perform c q)).

End EventQueue.

(* ===================================================================== *)
(** * [class WorkQueue] *)
(* ===================================================================== *)

Module WorkQueue.

Record t : Type := mk {
  _queue : list (Z * Operation * Future);
  _closing : bool;
  _request_count : Z
}.

(** [__init__] *)
Definition init : t := mk [] false 0.

Definition add_request (op : Operation) (fut : Future) : Py t unit :=
  fun q =>
    if _closing q then (inl SessionClosingException, q)
    else (inr tt,
          mk (_queue q ++ [(_request_count q, op, fut)])
             (_closing q)
             (_request_count q + 1)).

(** [get]: the head of the queue, or [None] when the queue stays empty for
    the half second of the poll. *)
Definition get : Py t (option (Z * Operation * Future)) :=
  fun q => match _queue q with
           | [] => (inr None, q)
           | item :: items =>
               (inr (Some item), mk items (_closing q) (_request_count q))
           end.

Definition close : Py t unit :=
  modify (fun q => mk (_queue q) true (_request_count q)).

(** The calls other threads make on the queue. *)
Inductive Call : Type :=
  | AddRequest (op : Operation) (fut : Future)
  | Get
  | Close.

Inductive Returned : Type :=
  | RetNone
  | RetItem (item : option (Z * Operation * Future)).

Definition perform (c : Call) : Py t Returned :=
  match c with
  | AddRequest op fut => add_request op fut ;; mret RetNone
  | Get => item ← get; mret (RetItem item)
  | Close => close ;; mret RetNone
  end.

(** A sequence of calls: each call with what it returned or raised, and
    the queue at the end. *)
Fixpoint perform_all (calls : list Call) (q : t)
    : list (Call * (PyException + Returned)) * t :=
  match calls with
  | [] => ([], q)
  | c :: calls' =>
      let '(r, q') := perform c q in
      let '(log, q'') := perform_all calls' q' in
      ((c, r) :: log, q'')
  end.

(** The requests of a log whose [add_request] returned, in call order. *)
Definition accepted (log : list (Call * (PyException + Returned)))
    : list (Operation * Future) :=
  omap (fun cr => match cr with
                  | (AddRequest op fut, inr _) => Some (op, fut)
                  | _ => None
                  end) log.

(** The tuples the [get] calls of a log returned, in call order. *)
Definition dequeued (log : list (Call * (PyException + Returned)))
    : list (Z * Operation * Future) :=
  omap (fun cr => match cr with
                  | (_, inr (RetItem (Some item))) => Some item
                  | _ => None
                  end) log.

(** The tuple the [i]-th accepted request is enqueued as, according to
    the numbering from 0. *)
Definition numbered (first : Z) (reqs : list (Operation * Future))
    : list (Z * Operation * Future) :=
  imap (fun i req => (first + Z.of_nat i, req.1, req.2)) reqs.

End WorkQueue.

(* ===================================================================== *)
(** * [class ResponseListener]: the read of one connection *)
(* ===================================================================== *)

Module ResponseListener.

(** The argument of [conn.recv] in [run]. *)
Definition recv_bufsize : nat := 1024.

(** [conn.recv(bufsize)]: at most [bufsize] of the bytes the connection
    has delivered so far. *)
Definition recv (bufsize : nat) (delivered : list Byte.byte) : list Byte.byte :=
  firstn bufsize delivered.

(** The bytes [run] hands to [json.loads] for one accepted connection:
    one call of [recv], no loop around it. *)
Definition received_message (delivered : list Byte.byte) : list Byte.byte :=
  recv recv_bufsize delivered.

End ResponseListener.

(* ===================================================================== *)
(** * [class SorterThread] *)
(* ===================================================================== *)

(** The calls made on futures, operations and watches, in call order. *)
Inductive Effect : Type :=
  | SetResult (future : Future) (result : DirectResult)
  | SetException (future : Future) (exc : PyException)
  | ProcessResult (request : Operation) (result : PyDict) (future : Future)
  | GenerateMessage (watch : Watch) (event : WatchedEvent).

(** An entry of the list [futures] of [run]:
    [(request_id, request, future, timestamp)]. *)
Definition Pending : Type := Z * Operation * Future * float.

Definition pending_id (p : Pending) : Z := p.1.1.1.
Definition pending_request (p : Pending) : Operation := p.1.1.2.
Definition pending_future (p : Pending) : Future := p.1.2.
Definition pending_timestamp (p : Pending) : float := p.2.

Module SorterThread.

(** The event queue the thread polls, its local list [futures], the
    effects so far, and the wall clock: [clock n] is what the [n]-th call
    of [datetime.now().timestamp()] returns, [ticks] counts the calls. *)
Record t : Type := mk {
  _queue : EventQueue.t;
  futures : list Pending;
  trace : list Effect;
  clock : nat -> float;
  ticks : nat
}.

(** The thread when [run] enters its loop. *)
Definition init (q : EventQueue.t) (clock : nat -> float) : t :=
  mk q [] [] clock 0.

(** A call on the event queue. *)
Definition on_queue {A} (m : Py EventQueue.t A) : Py t A :=
  fun s => let '(r, q') := m (_queue s) in
           (r, mk q' (futures s) (trace s) (clock s) (ticks s)).

Definition emit (e : Effect) : Py t unit :=
  modify (fun s => mk (_queue s) (futures s) (trace s ++ [e]) (clock s) (ticks s)).

Definition set_futures (l : list Pending) : Py t unit :=
  modify (fun s => mk (_queue s) l (trace s) (clock s) (ticks s)).

(** [datetime.now().timestamp()] *)
Definition now : Py t float :=
  fun s => (inr (clock s (ticks s)),
            mk (_queue s) (futures s) (trace s) (clock s) (S (ticks s))).

(** [cur_timestamp - fut_timestamp >= 5.0] *)
Definition timed_out (cur_timestamp fut_timestamp : float) : bool :=
  PrimFloat.leb 5%float (PrimFloat.sub cur_timestamp fut_timestamp).

(** The [while i < len(futures)] loop of [_check_timeout]. Each round
    that does not [break] fails the future of [futures[i]], removes
    [futures[0]] and increments [i]. Returns the list and the futures
    failed, in order. *)
Fixpoint check_timeout_loop
    (cur_timestamp : float) (i : nat) (futures : list Pending)
    : list Pending * list Effect :=
  match futures with
  | [] => ([], [])
  | _ :: popped =>
      match futures !! i with
      | None => (futures, [])
      | Some fut =>
          if timed_out cur_timestamp (pending_timestamp fut) then
            let '(futures', failed) :=
              check_timeout_loop cur_timestamp (S i) popped in
            (futures',
             SetException (pending_future fut) (TimeoutException 5%float) :: failed)
          else (futures, [])
      end
  end.

Definition _check_timeout : Py t unit :=
  cur_timestamp ← now;
  s ← get_state;
  let '(futures', failed) := check_timeout_loop cur_timestamp 0 (futures s) in
  modify (fun s => mk (_queue s) futures' (trace s ++ failed) (clock s) (ticks s)).

(** [int(result["event"].split("-")[1])] *)
Definition parse_req_id (result : PyDict) : PyException + Z :=
  match result !! "event" with
  | None => inl (KeyError "event")
  | Some (PyStr event) =>
      match py_split "-" event !! 1%nat with
      | None => inl IndexError
      | Some local_idx =>
          match py_int local_idx with
          | None => inl ValueError
          | Some req_id => inr req_id
          end
      end
  | Some _ => inl AttributeError
  end.

Definition lift_result {A} (r : PyException + A) : Py t A := fun s => (r, s).

(** The paths read from the epoch: [p.split("_")[0]] for each entry. *)
Definition epoch_paths (node : Node) : list string :=
  map (fun p => default EmptyString (head (py_split "_" p)))
      (modified_epoch_version node).

(** The event fired for the watches of a node that was read. *)
Definition data_changed (node : Node) : WatchedEvent :=
  mkWatchedEvent NODE_DATA_CHANGED (path node) (modified_system_sum node).

(** The [CLOUD_DIRECT_RESULT] branch of [run]. *)
Definition direct_result (result : DirectResult) (future : Future) : Py t unit :=
  match result with
  | ResNode node =>
      let timestamp' := modified_system_sum node in
      watches ← on_queue (EventQueue.get_watches [MD5.hexdigest (path node)] timestamp');
      mapM (fun w => emit (GenerateMessage w (data_changed node))) watches ;;
      let paths := epoch_paths node in
      on_queue (EventQueue.get_watches paths timestamp') ;;
      mret tt
  | _ => mret tt
  end ;;
  match result with
  | ResException e => emit (SetException future e)
  | _ => emit (SetResult future result)
  end.

(** The [CLOUD_INDIRECT_RESULT] branch of [run]. *)
Definition indirect_result (result : PyDict) : Py t unit :=
  req_id ← lift_result (parse_req_id result);
  s ← get_state;
  match futures s with
  | [] => raise IndexError
  | first :: rest =>
      if decide (pending_id first = req_id) then
        set_futures rest ;;
        emit (ProcessResult (pending_request first) result (pending_future first))
      else raise AssertionError
  end.

(** One round of the [while self._work_event.is_set()] loop of [run]. *)
Definition run_iteration : Py t unit :=
  submission ← on_queue EventQueue.get;
  match submission with
  | None => _check_timeout
  | Some (CLOUD_EXPECTED_RESULT request_id request future) =>
      ts ← now;
      s ← get_state;
      set_futures (futures s ++ [(request_id, request, future, ts)]) ;;
      _check_timeout
  | Some (CLOUD_DIRECT_RESULT request_id result future) =>
      direct_result result future
  | Some (CLOUD_INDIRECT_RESULT result) =>
      indirect_result result
  | Some (WATCH_NOTIFICATION watch event) =>
      emit (GenerateMessage watch event) ;;
      _check_timeout
  end.

(** What happens next in a session: the sorter runs one round of its
    loop, or another thread makes a call on the event queue. *)
Inductive Step : Type :=
  | Poll
  | Other (c : EventQueue.Call).

(** A schedule of steps. An exception raised by a call of another thread
    goes to that thread; one raised in the loop of the sorter ends the
    sorter, and the run stops there with that exception. A round of the
    sorter is one step: [futures] is local to the sorter, and a round takes
    from the queue once, at its start. *)
Fixpoint run (schedule : list Step) (s : t) : option PyException * t :=
  match schedule with
  | [] => (None, s)
  | Poll :: schedule' =>
      match run_iteration s with
      | (inl e, s') => (Some e, s')
      | (inr _, s') => run schedule' s'
      end
  | Other c :: schedule' =>
      run schedule' (snd (on_queue (EventQueue.perform c) s))
  end.

(** The requests announced by [add_expected_result] in a schedule, in
    call order. *)
Definition expected_requests (schedule : list Step)
    : list ((PyException + Z) * Operation * Future) :=
  omap (fun a => match a with
                 | Other (EventQueue.AddExpectedResult i r f) => Some (inr i, r, f)
                 | _ => None
                 end) schedule.

(** The [process_result] calls of a trace, in call order: the local index
    of the reply, the request and the future. *)
Definition completions (trace : list Effect)
    : list ((PyException + Z) * Operation * Future) :=
  omap (fun e => match e with
                 | ProcessResult r reply f => Some (parse_req_id reply, r, f)
                 | _ => None
                 end) trace.

End SorterThread.

(* ===================================================================== *)
(** * [str] of an [int] *)
(* ===================================================================== *)

Definition digit_char (d : Z) : ascii := ascii_of_nat (48 + Z.to_nat d).

(** The decimal digits of [n >= 0], the most significant first, at most
    [fuel] of them. *)
Fixpoint decimal_digits (fuel : nat) (n : Z) : list ascii :=
  match fuel with
  | O => []
  | S fuel' =>
      if n <? 10 then [digit_char n]
      else decimal_digits fuel' (n / 10) ++ [digit_char (n mod 10)]
  end.

(** A number below [2 ^ (k + 1)] has at most [k + 1] decimal digits. *)
Definition decimal (n : Z) : list ascii :=
  decimal_digits (S (Z.to_nat (Z.log2 n))) n.

(** [str(n)], as an f-string formats an [int]. *)
Definition py_str_int (n : Z) : string :=
  string_of_list_ascii (if n <? 0 then "-"%char :: decimal (- n) else decimal n).

(* ===================================================================== *)
(** * [class SubmitterThread] *)
(* ===================================================================== *)

Module SubmitterThread.

(** The calls made on the provider client, in call order. *)
Inductive ProviderCall : Type :=
  | SendRequest (request_id : string) (request : Operation)
  | ExecuteRequest (request : Operation).

(** What the provider client does when one round calls it: it returns
    ([send_request] returns nothing that is used, [execute_request] returns
    [None] or a pair of a result and a watch), or it raises. *)
Inductive ProviderReply : Type :=
  | Returns (res : option (DirectResult * Watch))
  | Raises (e : PyException).

(** The session id, the work queue, the event queue, the calls made on the
    provider client and the lines written to [_log]. *)
Record t : Type := mk {
  _session_id : string;
  _queue : WorkQueue.t;
  _event_queue : EventQueue.t;
  provider_calls : list ProviderCall;
  _log : list string
}.

Definition on_work_queue {A} (m : Py WorkQueue.t A) : Py t A :=
  fun s => let '(r, q') := m (_queue s) in
           (r, mk (_session_id s) q' (_event_queue s) (provider_calls s) (_log s)).

Definition on_event_queue {A} (m : Py EventQueue.t A) : Py t A :=
  fun s => let '(r, q') := m (_event_queue s) in
           (r, mk (_session_id s) (_queue s) q' (provider_calls s) (_log s)).

(** [self._log.info(msg)] *)
Definition info (msg : string) : Py t unit :=
  modify (fun s => mk (_session_id s) (_queue s) (_event_queue s) (provider_calls s)
                      (_log s ++ [msg])).

Definition called (c : ProviderCall) (s : t) : t :=
  mk (_session_id s) (_queue s) (_event_queue s) (provider_calls s ++ [c]) (_log s).

(** [try: body except Exception as e: handler(e)] *)
Definition try_except {A} (body : Py t A) (handler : PyException -> Py t A) : Py t A :=
  fun s => match body s with
           | (inl e, s') => handler e s'
           | (inr a, s') => (inr a, s')
           end.

(** [f"{self._session_id}-{req_id}"] *)
Definition request_id_str (session_id : string) (req_id : Z) : string :=
  session_id +:+ "-" +:+ py_str_int req_id.

(** [self._provider_client.send_request(request_id=..., data=...)] *)
Definition send_request
    (request_id : string) (request : Operation) (reply : ProviderReply) : Py t unit :=
  fun s => match reply with
           | Raises e => (inl e, called (SendRequest request_id request) s)
           | Returns _ => (inr tt, called (SendRequest request_id request) s)
           end.

(** [self._provider_client.execute_request(request, listener_address)] *)
Definition execute_request (request : Operation) (reply : ProviderReply)
    : Py t (option (DirectResult * Watch)) :=
  fun s => match reply with
           | Raises e => (inl e, called (ExecuteRequest request) s)
           | Returns res => (inr res, called (ExecuteRequest request) s)
           end.

(** One round of the [while self._work_event.is_set()] loop of [run].
    [is_cloud_request] is the method of that name of the operations;
    [reply] is what the provider client does in this round. *)
Definition run_iteration
    (is_cloud_request : Operation -> bool) (reply : ProviderReply) : Py t unit :=
  submission ← on_work_queue WorkQueue.get;
  match submission with
  | None => mret tt
  | Some (req_id, request, future) =>
      try_except
        (if is_cloud_request request then
           info ("Begin executing operation: " +:+ op_name request) ;;
           on_event_queue (EventQueue.add_expected_result req_id request future) ;;
           s ← get_state;
           send_request (request_id_str (_session_id s) req_id) request reply
         else
           try_except
             (res ← execute_request request reply;
              match res with
              | Some (result, watch) =>
                  on_event_queue (EventQueue.add_watch (op_path request) watch) ;;
                  on_event_queue (EventQueue.add_direct_result req_id result future)
              | None =>
                  on_event_queue (EventQueue.add_direct_result req_id ResNone future)
              end)
             (fun e =>
                on_event_queue
                  (EventQueue.add_direct_result req_id (ResException e) future)))
        (fun e =>
           match e with
           | ProviderException _ =>
               on_event_queue
                 (EventQueue.add_direct_result req_id (ResException e) future)
           | _ =>
               on_event_queue
                 (EventQueue.add_direct_result req_id (ResException e) future) ;;
               info ("Finish executing operation: " +:+ op_name request)
           end)
  end.

End SubmitterThread.

(* ===================================================================== *)
(** * A session: the queues, the submitter and the sorter together *)
(* ===================================================================== *)

Module Session.

(** The submitter with the two queues it holds, the lists and the clock of
    the sorter, which polls the same event queue, and for each of the two
    threads the exception that ended its loop, if one did. *)
Record t : Type := mk {
  submitter : SubmitterThread.t;
  futures : list Pending;
  trace : list Effect;
  clock : nat -> float;
  ticks : nat;
  submitter_raised : option PyException;
  sorter_raised : option PyException
}.

(** A fresh session: both queues as [__init__] leaves them. *)
Definition init (session_id : string) (clock : nat -> float) : t :=
  mk (SubmitterThread.mk session_id WorkQueue.init EventQueue.init [] [])
     [] [] clock 0 None None.

Definition work_queue (s : t) : WorkQueue.t := SubmitterThread._queue (submitter s).
Definition event_queue (s : t) : EventQueue.t :=
  SubmitterThread._event_queue (submitter s).

(** The sorter, around the event queue of the session. *)
Definition sorter (s : t) : SorterThread.t :=
  SorterThread.mk (event_queue s) (futures s) (trace s) (clock s) (ticks s).

Definition set_work_queue (q : WorkQueue.t) (s : t) : t :=
  mk (SubmitterThread.mk (SubmitterThread._session_id (submitter s)) q
        (event_queue s) (SubmitterThread.provider_calls (submitter s))
        (SubmitterThread._log (submitter s)))
     (futures s) (trace s) (clock s) (ticks s) (submitter_raised s) (sorter_raised s).

Definition set_event_queue (q : EventQueue.t) (s : t) : t :=
  mk (SubmitterThread.mk (SubmitterThread._session_id (submitter s)) (work_queue s)
        q (SubmitterThread.provider_calls (submitter s))
        (SubmitterThread._log (submitter s)))
     (futures s) (trace s) (clock s) (ticks s) (submitter_raised s) (sorter_raised s).

(** What happens next: the user adds a request; the submitter or the
    sorter runs one round of its loop; the listener forwards a reply or a
    watch notification; a queue is closed. *)
Inductive Step : Type :=
  | Request (op : Operation) (fut : Future)
  | Submit (reply : SubmitterThread.ProviderReply)
  | Sort
  | Receive (reply : PyDict)
  | Notify (result : Notification)
  | CloseWorkQueue
  | CloseEventQueue.

Definition raised {A} (r : PyException + A) : option PyException :=
  match r with inl e => Some e | inr _ => None end.

(** One step. A thread whose loop was ended by an exception runs no
    further round. *)
Definition step (is_cloud_request : Operation -> bool) (a : Step) (s : t) : t :=
  match a with
  | Request op fut => set_work_queue (WorkQueue.add_request op fut (work_queue s)).2 s
  | Submit reply =>
      match submitter_raised s with
      | Some _ => s
      | None =>
          let '(r, u) := SubmitterThread.run_iteration is_cloud_request reply (submitter s) in
          mk u (futures s) (trace s) (clock s) (ticks s) (raised r) (sorter_raised s)
      end
  | Sort =>
      match sorter_raised s with
      | Some _ => s
      | None =>
          let '(r, v) := SorterThread.run_iteration (sorter s) in
          mk (submitter (set_event_queue (SorterThread._queue v) s))
             (SorterThread.futures v) (SorterThread.trace v)
             (SorterThread.clock v) (SorterThread.ticks v)
             (submitter_raised s) (raised r)
      end
  | Receive reply =>
      set_event_queue (EventQueue.add_indirect_result reply (event_queue s)).2 s
  | Notify result =>
      set_event_queue (EventQueue.add_watch_notification result (event_queue s)).2 s
  | CloseWorkQueue => set_work_queue (WorkQueue.close (work_queue s)).2 s
  | CloseEventQueue => set_event_queue (EventQueue.close (event_queue s)).2 s
  end.

Definition run (is_cloud_request : Operation -> bool) (schedule : list Step) (s : t) : t :=
  fold_left (fun s a => step is_cloud_request a s) schedule s.

End Session.

(* ===================================================================== *)
(** * Reference definitions for the statements *)
(* ===================================================================== *)

(** A watch registered before the observed state: [w.timestamp < timestamp]. *)
Definition older (observed : Z) (w : Watch) : Prop := timestamp w < observed.

#[global] Instance older_dec observed w : Decision (older observed w).
Proof. unfold older. apply _. Defined.

(** What [get_watches] leaves at key [p] of a registry holding [bucket]
    there: nothing when [p] was asked for and every watch of the bucket is
    older than the observed state, the whole bucket otherwise. *)
Definition bucket_after
    (paths : list string) (observed : Z) (p : string) (bucket : list Watch)
    : option (list Watch) :=
  if decide (p ∈ paths /\ Forall (older observed) bucket) then None else Some bucket.

(** Replace in place the first watch of the type of [watch], or append
    [watch] when the bucket has none of that type. *)
Fixpoint replace_or_append (watch : Watch) (bucket : list Watch) : list Watch :=
  match bucket with
  | [] => [watch]
  | w :: bucket' =>
      if decide (watch_type w = watch_type watch) then watch :: bucket'
      else w :: replace_or_append watch bucket'
  end.

(** At most one watch of each type in every bucket of the registry. *)
Definition one_watch_per_type (registry : gmap string (list Watch)) : Prop :=
  forall hashed_path bucket,
    registry !! hashed_path = Some bucket -> NoDup (watch_type <$> bucket).

(** A request as the ordering argument follows it: its id, as the local
    index of a reply that parses, the operation and the future. *)
Definition Slot : Type := (PyException + Z) * Operation * Future.

(** The request a call announces, if it is [add_expected_result]. *)
Definition announced (c : EventQueue.Call) : list Slot :=
  match c with
  | EventQueue.AddExpectedResult i r f => [(inr i, r, f)]
  | _ => []
  end.

(** The announced requests still in the event queue, in queue order. *)
Definition queued_expected (q : EventQueue.t) : list Slot :=
  omap (fun e => match e with
                 | CLOUD_EXPECTED_RESULT i r f => Some (inr i, r, f)
                 | _ => None
                 end) (EventQueue._queue q).

(** The entries of [futures], in list order. *)
Definition pending_slots (futures : list Pending) : list Slot :=
  map (fun p => (inr (pending_id p), pending_request p, pending_future p)) futures.

(** The requests the sorter has completed by [process_result], holds in
    [futures], or has still to dequeue, in that order. *)
Definition in_flight (s : SorterThread.t) : list Slot :=
  SorterThread.completions (SorterThread.trace s)
  ++ pending_slots (SorterThread.futures s)
  ++ queued_expected (SorterThread._queue s).

(** The direct-result branch as the specification words it, first half:
    every watch fetched for a node, under the MD5 of its path or under a
    path read from its epoch, is fired with NODE_DATA_CHANGED. [s] is the
    sorter before the round, [s'] after it. *)
Definition fetched_watches_fire (s : SorterThread.t) (node : Node) (s' : SorterThread.t)
    : Prop :=
  forall key bucket w,
    key ∈ MD5.hexdigest (path node) :: SorterThread.epoch_paths node ->
    EventQueue._watches (SorterThread._queue s) !! key = Some bucket ->
    w ∈ bucket ->
    older (modified_system_sum node) w ->
    GenerateMessage w (SorterThread.data_changed node) ∈ SorterThread.trace s'.

(** Second half: no watch that was fired is in the registry afterwards. *)
Definition fired_watches_unregistered (s' : SorterThread.t) : Prop :=
  forall w e key bucket,
    GenerateMessage w e ∈ SorterThread.trace s' ->
    EventQueue._watches (SorterThread._queue s') !! key = Some bucket ->
    w ∉ bucket.

(** Every other element of a list, from the first one on. *)
Fixpoint every_other {A} (l : list A) : list A :=
  match l with
  | x :: _ :: l' => x :: every_other l'
  | _ => l
  end.

(** The elements at the head of a list that satisfy [P]. *)
Fixpoint leading {A} (P : A -> bool) (l : list A) : list A :=
  match l with
  | x :: l' => if P x then x :: leading P l' else []
  | [] => []
  end.

(** The entries a timeout scan at [cur_timestamp] fails: of every other
    pending entry, those at the head that have timed out. *)
Definition scan_failed (cur_timestamp : float) (futures : list Pending) : list Pending :=
  leading (fun p => SorterThread.timed_out cur_timestamp (pending_timestamp p))
          (every_other futures).

(** [fut[2].set_exception(TimeoutException(5.0))] *)
Definition timeout_failure (p : Pending) : Effect :=
  SetException (pending_future p) (TimeoutException 5%float).

(** The [generate_message] calls of a trace, in call order. *)
Definition deliveries (trace : list Effect) : list (Watch * WatchedEvent) :=
  omap (fun e => match e with
                 | GenerateMessage w ev => Some (w, ev)
                 | _ => None
                 end) trace.

(** A string of decimal digits. *)
Definition all_digits (l : list ascii) : Prop :=
  Forall (fun c => exists d, 0 <= d < 10 /\ c = digit_char d) l.

(** The request ids of the CLOUD_EXPECTED_RESULT events of an event
    queue, in queue order. *)
Definition expected_ids (q : EventQueue.t) : list Z :=
  omap (fun e => match e with
                 | CLOUD_EXPECTED_RESULT i _ _ => Some i
                 | _ => None
                 end) (EventQueue._queue q).

(** The request ids a session holds, from the oldest on: those of the
    pending list of the sorter, those announced in the event queue, those
    waiting in the work queue. *)
Definition request_chain (s : Session.t) : list Z :=
  map pending_id (Session.futures s)
  ++ expected_ids (Session.event_queue s)
  ++ map (fun item => item.1.1) (WorkQueue._queue (Session.work_queue s)).

(** The requests of a sequence of calls on a work queue that are made
    before the first [close], in call order. *)
Fixpoint requests_before_close (calls : list WorkQueue.Call)
    : list (Operation * Future) :=
  match calls with
  | [] => []
  | WorkQueue.Close :: _ => []
  | WorkQueue.AddRequest op fut :: calls' => (op, fut) :: requests_before_close calls'
  | WorkQueue.Get :: calls' => requests_before_close calls'
  end.

(** The requests of a schedule that the work queue accepts, in call
    order: those made before the work queue is closed. *)
Fixpoint accepted_requests (schedule : list Session.Step) : list (Operation * Future) :=
  match schedule with
  | [] => []
  | Session.CloseWorkQueue :: _ => []
  | Session.Request op fut :: schedule' => (op, fut) :: accepted_requests schedule'
  | _ :: schedule' => accepted_requests schedule'
  end.

(** A tuple of the work queue as a slot. *)
Definition slot_of (item : Z * Operation * Future) : Slot :=
  (inr item.1.1, item.1.2, item.2).

(** The requests a session holds and has completed, from the oldest on:
    what the sorter has completed, holds as pending and has still to
    dequeue, then what waits in the work queue. *)
Definition session_slots (s : Session.t) : list Slot :=
  in_flight (Session.sorter s)
  ++ map slot_of (WorkQueue._queue (Session.work_queue s)).

(** Every key of a registry has the length of an MD5 hex digest. *)
Definition keys_have_digest_length (registry : gmap string (list Watch)) : Prop :=
  forall key bucket, registry !! key = Some bucket -> String.length key = 32%nat.

(* ===================================================================== *)
(** * Sample objects for the examples *)
(* ===================================================================== *)

Module Sample.

Definition exists_watch : Watch := mkWatch 1 EXISTS 10.
Definition data_watch : Watch := mkWatch 2 GET_DATA 10.
Definition newer_data_watch : Watch := mkWatch 3 GET_DATA 30.
Definition children_watch : Watch := mkWatch 4 GET_CHILDREN 10.

(** A queue with an EXISTS watch on [/x]. *)
Definition one_watch : EventQueue.t :=
  (EventQueue.perform (EventQueue.AddWatch "/x" exists_watch) EventQueue.init).2.

(** A queue with an EXISTS watch and then a GET_DATA watch on [/x]. *)
Definition two_watches : EventQueue.t :=
  (EventQueue.perform (EventQueue.AddWatch "/x" data_watch) one_watch).2.

Definition create_a : Operation := mkOperation "create" "/a".
Definition create_b : Operation := mkOperation "create" "/b".
Definition create_c : Operation := mkOperation "create" "/c".
Definition future0 : Future := mkFuture 0.
Definition future1 : Future := mkFuture 1.
Definition future2 : Future := mkFuture 2.

(** A reply of a worker for the request with local index [idx] of the
    session [5f2c1a9e]. *)
Definition reply (idx : string) : PyDict :=
  <["event" := PyStr ("5f2c1a9e-" +:+ idx)]> {["status" := PyStr "success"]}.

(** A clock that stands still. *)
Definition steady_clock : nat -> float := fun _ => 100%float.

(** A clock that reads 100 s for its first [n] readings and 200 s after. *)
Definition late_clock (n : nat) : nat -> float :=
  fun k => if (k <? n)%nat then 100%float else 200%float.

(** Requests 0 and 1 announced and taken over by the sorter. *)
Definition two_pending (clock : nat -> float) : SorterThread.t :=
  (SorterThread.run
     [SorterThread.Other (EventQueue.AddExpectedResult 0 create_a future0);
      SorterThread.Other (EventQueue.AddExpectedResult 1 create_b future1);
      SorterThread.Poll; SorterThread.Poll]
     (SorterThread.init EventQueue.init clock)).2.

(** Requests 0, 1 and 2 announced and taken over by the sorter. *)
Definition three_pending (clock : nat -> float) : SorterThread.t :=
  (SorterThread.run
     [SorterThread.Other (EventQueue.AddExpectedResult 0 create_a future0);
      SorterThread.Other (EventQueue.AddExpectedResult 1 create_b future1);
      SorterThread.Other (EventQueue.AddExpectedResult 2 create_c future2);
      SorterThread.Poll; SorterThread.Poll; SorterThread.Poll]
     (SorterThread.init EventQueue.init clock)).2.

(** The reply [idx] arrives while requests 0 and 1 are pending. *)
Definition reply_arrives (idx : string) : SorterThread.t :=
  (SorterThread.run
     [SorterThread.Other (EventQueue.AddIndirectResult (reply idx))]
     (two_pending steady_clock)).2.

Definition y_watch : Watch := mkWatch 5 GET_DATA 10.
Definition newer_exists_watch : Watch := mkWatch 6 EXISTS 30.

(** A node [/x] read at timestamp 20 whose epoch names the bucket of [/y]. *)
Definition node_x : Node :=
  mkNode "/x" 20 [MD5.hexdigest "/y" +:+ "_0_15"].

(** The node of the fourth scenario of the specification. *)
Definition node_x_scenario : Node := mkNode "/x" 20 ["/y_001"].

(** Watches on [/x] (one older, one newer than the read) and on [/y], then
    the direct read of [node] arrives. *)
Definition direct_read (node : Node) : SorterThread.t :=
  (SorterThread.run
     [SorterThread.Other (EventQueue.AddWatch "/x" data_watch);
      SorterThread.Other (EventQueue.AddWatch "/x" newer_exists_watch);
      SorterThread.Other (EventQueue.AddWatch "/y" y_watch);
      SorterThread.Other (EventQueue.AddDirectResult 0 (ResNode node) future0)]
     (SorterThread.init EventQueue.init steady_clock)).2.

(** A sorter whose event queue holds the GET_DATA watch alone on [/x]. *)
Definition lone_watch : SorterThread.t :=
  (SorterThread.run
     [SorterThread.Other (EventQueue.AddWatch "/x" data_watch)]
     (SorterThread.init EventQueue.init steady_clock)).2.

(** A message without an ["event"] field arrives while two requests are
    pending. *)
Definition stray_message : SorterThread.t :=
  (SorterThread.run
     [SorterThread.Other (EventQueue.AddIndirectResult {["status" := PyStr "success"]})]
     (two_pending steady_clock)).2.

(** The direct read of [node_x] is queued, then the queue is closed. *)
Definition closed_before_read : SorterThread.t :=
  (SorterThread.run [SorterThread.Other EventQueue.Close] (direct_read node_x)).2.

(** In the examples the operations named [create] are cloud requests. *)
Definition is_cloud_request (op : Operation) : bool := String.eqb (op_name op) "create".

Definition get_x : Operation := mkOperation "get_data" "/x".

(** A submitter of the session [5f2c1a9e] with one request in its work
    queue. *)
Definition submitter_with (op : Operation) (events : EventQueue.t) : SubmitterThread.t :=
  SubmitterThread.mk "5f2c1a9e"
    (WorkQueue.perform (WorkQueue.AddRequest op future0) WorkQueue.init).2
    events [] [].

End Sample.

(* ===================================================================== *)
(** * Properties *)
(* ===================================================================== *)

(** ** The digest against known values *)

Example md5_empty : MD5.hexdigest "" = "d41d8cd98f00b204e9800998ecf8427e"%string.
Proof. vm_compute. reflexivity. Qed.

Example md5_abc : MD5.hexdigest "abc" = "900150983cd24fb0d6963f7d28e17f72"%string.
Proof. vm_compute. reflexivity. Qed.

Example md5_two_blocks :
  MD5.hexdigest "aaaaaaaaaaaaaaaaaaaaaaaaaaaaaaaaaaaaaaaaaaaaaaaaaaaaaaaaaaaaaaaaaaaaaa"
  = "0f5c6c4e740bfcc08c3c26ccb2673d46"%string.
Proof. vm_compute. reflexivity. Qed.

(** ** [int] on text, checked against the interpreter *)

(** ASCII literals: white space around, a sign, single underscores. *)
Example py_int_ascii :
  py_int " 1_000 " = Some 1000 /\ py_int "-007" = Some (-7) /\ py_int "+5" = Some 5
  /\ py_int "1__0" = None /\ py_int "_1" = None /\ py_int "+ 1" = None
  /\ py_int "0x1f" = None /\ py_int "" = None.
Proof. vm_compute. by repeat split. Qed.

(** Digits and white space of other scripts, given by their UTF-8 bytes:
    ARABIC-INDIC DIGIT THREE, FULLWIDTH DIGIT ONE and TWO, a NO-BREAK SPACE
    before a digit; SUPERSCRIPT TWO is a digit but no decimal digit. *)
Example py_int_other_scripts :
  py_int (string_of_list_ascii (map ascii_of_nat [217; 163]%nat)) = Some 3
  /\ py_int (string_of_list_ascii
               (map ascii_of_nat [239; 188; 145; 239; 188; 146]%nat)) = Some 12
  /\ py_int (string_of_list_ascii (map ascii_of_nat [194; 160; 55]%nat)) = Some 7
  /\ py_int (string_of_list_ascii (map ascii_of_nat [194; 178]%nat)) = None.
Proof. vm_compute. by repeat split. Qed.

(** ** Unfolding the monad *)

Ltac py_unfold :=
  unfold mbind, mret, py_bind, py_ret, raise, get_state, modify in *.

(** ** [WorkQueue]: numbering and order *)

Section WorkQueueFacts.
Import WorkQueue.

Lemma numbered_cons first req reqs :
  numbered first (req :: reqs) = (first, req.1, req.2) :: numbered (first + 1) reqs.
Proof.
  unfold numbered. rewrite imap_cons. f_equal.
  - f_equal. f_equal. lia.
  - apply imap_ext. intros i x _. simpl. do 2 f_equal. lia.
Qed.

Lemma numbered_ids first reqs :
  map (fun item => item.1.1) (numbered first reqs)
  = map (fun i => first + Z.of_nat i) (seq 0 (length reqs)).
Proof.
  revert first. induction reqs as [|req reqs IH]; intros first; [done|].
  rewrite numbered_cons. cbn [map length seq]. f_equal; [simpl; lia|].
  rewrite IH, <- seq_shift, map_map. apply map_ext. intros i. lia.
Qed.

Lemma perform_all_cons c calls q :
  perform_all (c :: calls) q
  = ((c, (perform c q).1) :: (perform_all calls (perform c q).2).1,
     (perform_all calls (perform c q).2).2).
Proof.
  cbn [perform_all]. destruct (perform c q) as [r q'].
  cbn [fst snd]. destruct (perform_all calls q') as [log q'']. reflexivity.
Qed.

Lemma perform_add_request op fut q :
  perform (AddRequest op fut) q
  = if _closing q then (inl SessionClosingException, q)
    else (inr RetNone,
          mk (_queue q ++ [(_request_count q, op, fut)]) false (_request_count q + 1)).
Proof.
  unfold perform, add_request. py_unfold. by destruct (_closing q) eqn:E; rewrite ?E.
Qed.

Lemma perform_get q :
  perform Get q
  = match _queue q with
    | [] => (inr (RetItem None), q)
    | item :: items =>
        (inr (RetItem (Some item)), mk items (_closing q) (_request_count q))
    end.
Proof. unfold perform, get. py_unfold. by destruct (_queue q). Qed.

Lemma perform_close q :
  perform Close q = (inr RetNone, mk (_queue q) true (_request_count q)).
Proof. reflexivity. Qed.

Lemma perform_all_numbering calls q :
  dequeued (perform_all calls q).1 ++ _queue (perform_all calls q).2
  = _queue q ++ numbered (_request_count q) (accepted (perform_all calls q).1)
  /\ _request_count (perform_all calls q).2
     = _request_count q + Z.of_nat (length (accepted (perform_all calls q).1)).
Proof.
  revert q. induction calls as [|c calls IH]; intros q.
  - simpl. unfold numbered. simpl. rewrite app_nil_r. split; [done|lia].
  - rewrite perform_all_cons. destruct c as [op fut| |].
    + rewrite perform_add_request. destruct (_closing q) eqn:Hc.
      * apply (IH q).
      * set (q1 := mk _ _ _). destruct (IH q1) as [IH1 IH2]. cbn [fst snd].
        change (accepted ((AddRequest op fut, inr RetNone)
                          :: (perform_all calls q1).1))
          with ((op, fut) :: accepted (perform_all calls q1).1).
        change (dequeued ((AddRequest op fut, inr RetNone)
                          :: (perform_all calls q1).1))
          with (dequeued (perform_all calls q1).1).
        rewrite numbered_cons, IH1, IH2. subst q1.
        cbn [_queue _request_count fst snd length].
        rewrite <- app_assoc. split; [done|lia].
    + rewrite perform_get. destruct (_queue q) as [|item items] eqn:Hq.
      * destruct (IH q) as [IH1 IH2]. rewrite Hq in IH1. by split.
      * set (q1 := mk _ _ _). destruct (IH q1) as [IH1 IH2]. cbn [fst snd].
        change (dequeued ((Get, inr (RetItem (Some item)))
                          :: (perform_all calls q1).1))
          with (item :: dequeued (perform_all calls q1).1).
        change (accepted ((Get, inr (RetItem (Some item)))
                          :: (perform_all calls q1).1))
          with (accepted (perform_all calls q1).1).
        rewrite <- app_comm_cons, IH1, IH2. by subst q1.
    + rewrite perform_close. apply (IH (mk (_queue q) true (_request_count q))).
Qed.

Lemma accepted_cons c r log :
  accepted ((c, r) :: log)
  = match c, r with
    | AddRequest op fut, inr _ => (op, fut) :: accepted log
    | _, _ => accepted log
    end.
Proof. unfold accepted. cbn [omap]. by destruct c, r. Qed.

(** Which requests are accepted is settled by the calls alone. *)
Lemma accepted_perform_all calls q :
  accepted (perform_all calls q).1
  = if _closing q then [] else requests_before_close calls.
Proof.
  revert q. induction calls as [|c calls IH]; intros q.
  - by destruct (_closing q).
  - rewrite perform_all_cons. cbn [fst]. rewrite accepted_cons, IH.
    destruct c as [op fut| |]; cbn [requests_before_close].
    + rewrite perform_add_request. by destruct (_closing q) eqn:Hc; cbn [fst snd _closing]; rewrite ?Hc.
    + rewrite perform_get. by destruct (_queue q); destruct (_closing q) eqn:Hc; cbn [fst snd _closing]; rewrite ?Hc.
    + rewrite perform_close. cbn [fst snd _closing]. by destruct (_closing q).
Qed.

Lemma perform_all_add_requests reqs q :
  _closing q = false ->
  (perform_all (map (fun req => AddRequest req.1 req.2) reqs) q).2
  = mk (_queue q ++ numbered (_request_count q) reqs) false
       (_request_count q + Z.of_nat (length reqs)).
Proof.
  revert q. induction reqs as [|[op fut] reqs IH]; intros q Hc.
  - cbn. rewrite app_nil_r, Z.add_0_r. destruct q. cbn in Hc. by subst.
  - cbn [map]. rewrite perform_all_cons, perform_add_request, Hc. cbn [fst snd].
    rewrite IH by done. cbn [_queue _request_count length].
    rewrite numbered_cons, <- app_assoc. cbn [fst snd app]. f_equal. lia.
Qed.

Lemma perform_all_gets items c n :
  perform_all (replicate (length items) Get) (mk items c n)
  = (map (fun item => (Get, inr (RetItem (Some item)))) items, mk [] c n).
Proof.
  induction items as [|item items IH]; [done|].
  cbn [length replicate]. rewrite perform_all_cons, perform_get.
  cbn [_queue _closing _request_count fst snd map]. by rewrite IH.
Qed.

End WorkQueueFacts.

(** C6. On a fresh [WorkQueue], whatever calls are made: the requests
    accepted are those made before the first [close]; the tuples handed out
    by [get] followed by those still queued are the accepted requests in
    call order, the [i]-th of them carrying request id [i]: ids start at 0,
    grow by 1 and are pairwise distinct. On a queue that is not closing
    [add_request] returns and puts the request at the end of the queue under
    the current request count, which it increments; [get] hands out the head
    of a queue that is not empty and removes it. So after any sequence of
    [add_request] calls on a fresh queue the queue holds the requests
    numbered from 0 in call order, and as many [get] calls return these
    tuples in this order and leave the queue empty. *)
Theorem C6_request_ids_count_from_zero_in_fifo_order :
  (forall calls : list WorkQueue.Call,
     let log := (WorkQueue.perform_all calls WorkQueue.init).1 in
     let q := (WorkQueue.perform_all calls WorkQueue.init).2 in
     WorkQueue.accepted log = requests_before_close calls
     /\ WorkQueue.dequeued log ++ WorkQueue._queue q
        = WorkQueue.numbered 0 (WorkQueue.accepted log)
     /\ map (fun item => item.1.1) (WorkQueue.numbered 0 (WorkQueue.accepted log))
        = map Z.of_nat (seq 0 (length (WorkQueue.accepted log)))
     /\ NoDup (map (fun item => item.1.1)
                   (WorkQueue.dequeued log ++ WorkQueue._queue q))
     /\ WorkQueue._request_count q = Z.of_nat (length (WorkQueue.accepted log)))
  /\ (forall (q : WorkQueue.t) (op : Operation) (fut : Future),
        WorkQueue._closing q = false ->
        WorkQueue.add_request op fut q
        = (inr tt,
           WorkQueue.mk
             (WorkQueue._queue q ++ [(WorkQueue._request_count q, op, fut)])
             false (WorkQueue._request_count q + 1)))
  /\ (forall (q : WorkQueue.t) item items,
        WorkQueue._queue q = item :: items ->
        WorkQueue.get q
        = (inr (Some item),
           WorkQueue.mk items (WorkQueue._closing q) (WorkQueue._request_count q)))
  /\ (forall reqs : list (Operation * Future),
        let filled :=
          (WorkQueue.perform_all
             (map (fun req => WorkQueue.AddRequest req.1 req.2) reqs)
             WorkQueue.init).2 in
        let emptied :=
          WorkQueue.perform_all (replicate (length reqs) WorkQueue.Get) filled in
        WorkQueue._queue filled = WorkQueue.numbered 0 reqs
        /\ emptied.1
           = map (fun item => (WorkQueue.Get, inr (WorkQueue.RetItem (Some item))))
                 (WorkQueue.numbered 0 reqs)
        /\ WorkQueue._queue emptied.2 = []).
Proof.
  split; [|split; [|split]].
  - intros calls log q.
    destruct (perform_all_numbering calls WorkQueue.init) as [H1 H2].
    fold log q in H1, H2. simpl in H1, H2.
    assert (Hids : map (fun item => item.1.1)
                       (WorkQueue.numbered 0 (WorkQueue.accepted log))
                   = map Z.of_nat (seq 0 (length (WorkQueue.accepted log)))).
    { rewrite numbered_ids. apply map_ext. intros; lia. }
    split; [exact (accepted_perform_all calls WorkQueue.init)|].
    repeat split; [done|done| |lia].
    rewrite H1, Hids. apply NoDup_fmap_2; [apply _|]. apply NoDup_ListNoDup, seq_NoDup.
  - intros q op fut Hc. unfold WorkQueue.add_request. by rewrite Hc.
  - intros q item items Hq. unfold WorkQueue.get. by rewrite Hq.
  - intros reqs filled emptied. subst emptied filled.
    rewrite (perform_all_add_requests reqs WorkQueue.init eq_refl).
    cbn [WorkQueue.init WorkQueue._queue WorkQueue._request_count app].
    assert (Hlen : length reqs = length (WorkQueue.numbered 0 reqs)).
    { unfold WorkQueue.numbered. by rewrite length_imap. }
    rewrite Hlen, perform_all_gets. done.
Qed.

Lemma C6_request_ids_witness :
  WorkQueue.add_request Sample.create_a Sample.future0 WorkQueue.init
  = (inr tt, WorkQueue.mk [(0, Sample.create_a, Sample.future0)] false 1)
  /\ WorkQueue.get
       (WorkQueue.mk [(0, Sample.create_a, Sample.future0);
                      (1, Sample.create_b, Sample.future1)] false 2)
     = (inr (Some (0, Sample.create_a, Sample.future0)),
        WorkQueue.mk [(1, Sample.create_b, Sample.future1)] false 2).
Proof.
  destruct C6_request_ids_count_from_zero_in_fifo_order as (_ & Hadd & Hget & _).
  split.
  - exact (Hadd WorkQueue.init Sample.create_a Sample.future0 eq_refl).
  - exact (Hget (WorkQueue.mk [(0, Sample.create_a, Sample.future0);
                               (1, Sample.create_b, Sample.future1)] false 2)
                _ _ eq_refl).
Defined.

(** ** [EventQueue]: the closing flag *)

Section EventQueueClosing.
Import EventQueue.

Lemma closing_guard {A} (m : Py t A) q :
  (check_closing ;; m) q
  = if _closing q then (inl SessionClosingException, q) else m q.
Proof. unfold check_closing. py_unfold. by destruct (_closing q). Qed.

Lemma eq_perform_all_cons c calls q :
  perform_all (c :: calls) q
  = ((c, (perform c q).1) :: (perform_all calls (perform c q).2).1,
     (perform_all calls (perform c q).2).2).
Proof.
  cbn [perform_all]. destruct (perform c q) as [r q']. cbn [fst snd].
  destruct (perform_all calls q') as [log q'']. reflexivity.
Qed.

Lemma eq_perform_get q :
  perform Get q
  = match _queue q with
    | [] => (inr (RetItem None), q)
    | item :: items =>
        (inr (RetItem (Some item)), mk items (_watches q) (_closing q) (_log q))
    end.
Proof. unfold perform, get. py_unfold. by destruct (_queue q). Qed.

Lemma enqueue_closed c q :
  _closing q = true -> is_enqueue c = true ->
  perform c q = (inl SessionClosingException, q).
Proof.
  intros Hc Hm. destruct c; try discriminate; cbn [perform];
    unfold add_expected_result, add_direct_result, add_indirect_result,
           add_watch_notification, add_watch;
    unfold mbind at 1; unfold py_bind; rewrite closing_guard, Hc; reflexivity.
Qed.

Lemma closing_perform c q :
  _closing q = true -> _closing (perform c q).2 = true.
Proof.
  intros Hc. destruct c; try (by rewrite enqueue_closed).
  - cbn [perform]. unfold get_watches. unfold mbind at 1; unfold py_bind.
    by rewrite closing_guard, Hc.
  - rewrite eq_perform_get. by destruct (_queue q).
  - reflexivity.
Qed.

Lemma closing_perform_all calls q :
  _closing q = true -> _closing (perform_all calls q).2 = true.
Proof.
  revert q. induction calls as [|c calls IH]; intros q Hc; [done|].
  rewrite eq_perform_all_cons. cbn [snd]. by apply IH, closing_perform.
Qed.

Lemma eq_gets_all items w c l :
  (perform_all (replicate (length items) Get) (mk items w c l)).1
  = map (fun item => (Get, inr (RetItem (Some item)))) items.
Proof.
  induction items as [|item items IH]; [done|].
  cbn [length replicate]. rewrite eq_perform_all_cons, eq_perform_get.
  cbn [_queue _watches _closing _log fst snd map]. by rewrite IH.
Qed.

End EventQueueClosing.

Section WorkQueueClosing.
Import WorkQueue.

Lemma wq_closing_perform_all calls q :
  _closing q = true -> _closing (perform_all calls q).2 = true.
Proof.
  revert q. induction calls as [|c calls IH]; intros q Hc; [done|].
  rewrite perform_all_cons. cbn [snd]. apply IH. destruct c.
  - by rewrite perform_add_request, Hc.
  - rewrite perform_get. by destruct (_queue q).
  - reflexivity.
Qed.

Lemma wq_gets_all items c n :
  (perform_all (replicate (length items) Get) (mk items c n)).1
  = map (fun item => (Get, inr (RetItem (Some item)))) items.
Proof.
  induction items as [|item items IH]; [done|].
  cbn [length replicate]. rewrite perform_all_cons, perform_get.
  cbn [_queue _closing _request_count fst snd map]. by rewrite IH.
Qed.

End WorkQueueClosing.

(** C7. Once [close] has run on a queue, and whatever calls follow it, each
    enqueue method raises [SessionClosingException] and leaves the queue as
    it was, items, watch registry and log included: [add_expected_result],
    [add_direct_result], [add_indirect_result], [add_watch_notification] and
    [add_watch] of [EventQueue], and [add_request] of [WorkQueue]. *)
Theorem C7_enqueue_after_close_raises_session_closing :
  (forall (q : EventQueue.t) (calls : list EventQueue.Call),
     let q' := (EventQueue.perform_all calls (EventQueue.close q).2).2 in
     (forall i r f,
        EventQueue.add_expected_result i r f q' = (inl SessionClosingException, q'))
     /\ (forall i r f,
           EventQueue.add_direct_result i r f q' = (inl SessionClosingException, q'))
     /\ (forall r,
           EventQueue.add_indirect_result r q' = (inl SessionClosingException, q'))
     /\ (forall r,
           EventQueue.add_watch_notification r q' = (inl SessionClosingException, q'))
     /\ (forall p w,
           EventQueue.add_watch p w q' = (inl SessionClosingException, q')))
  /\ (forall (q : WorkQueue.t) (calls : list WorkQueue.Call),
        let q' := (WorkQueue.perform_all calls (WorkQueue.close q).2).2 in
        forall op fut,
          WorkQueue.add_request op fut q' = (inl SessionClosingException, q')).
Proof.
  split.
  - intros q calls q'.
    assert (Hc : EventQueue._closing q' = true)
      by (apply closing_perform_all; reflexivity).
    repeat split; intros;
      unfold EventQueue.add_expected_result, EventQueue.add_direct_result,
             EventQueue.add_indirect_result, EventQueue.add_watch_notification,
             EventQueue.add_watch;
      rewrite closing_guard, Hc; reflexivity.
  - intros q calls q' op fut.
    assert (Hc : WorkQueue._closing q' = true)
      by (apply wq_closing_perform_all; reflexivity).
    unfold WorkQueue.add_request. by rewrite Hc.
Qed.

(** C10. [close] only sets the flag: it keeps the queued items (and, for
    [EventQueue], the watch registry and the log). [get] never raises, closed
    or not, and after [close] as many calls of [get] as there were items
    return exactly those items in the order they were enqueued. The same
    holds for [WorkQueue]. *)
Theorem C10_close_blocks_only_the_enqueue_side :
  (forall q : EventQueue.t,
     (exists item q', EventQueue.get q = (inr item, q'))
     /\ (EventQueue.close q).2
        = EventQueue.mk (EventQueue._queue q) (EventQueue._watches q) true
                        (EventQueue._log q)
     /\ (EventQueue.perform_all
           (replicate (length (EventQueue._queue q)) EventQueue.Get)
           (EventQueue.close q).2).1
        = map (fun item => (EventQueue.Get, inr (EventQueue.RetItem (Some item))))
              (EventQueue._queue q))
  /\ (forall q : WorkQueue.t,
        (exists item q', WorkQueue.get q = (inr item, q'))
        /\ (WorkQueue.close q).2
           = WorkQueue.mk (WorkQueue._queue q) true (WorkQueue._request_count q)
        /\ (WorkQueue.perform_all
              (replicate (length (WorkQueue._queue q)) WorkQueue.Get)
              (WorkQueue.close q).2).1
           = map (fun item => (WorkQueue.Get, inr (WorkQueue.RetItem (Some item))))
                 (WorkQueue._queue q)).
Proof.
  split; intros q; (split; [|split]).
  - unfold EventQueue.get. destruct (EventQueue._queue q); eauto.
  - reflexivity.
  - apply eq_gets_all.
  - unfold WorkQueue.get. destruct (WorkQueue._queue q); eauto.
  - reflexivity.
  - apply wq_gets_all.
Qed.

(** ** [EventQueue.get_watches] *)

Section GetWatches.
Import EventQueue.

Lemma get_watches_inner_fold observed l acc :
  fold_left (get_watches_inner observed) l acc
  = (acc.1 ++ filter (older observed) l,
     (acc.2 + length (filter (older observed) l))%nat).
Proof.
  revert acc. induction l as [|w l IH]; intros [ws n].
  - simpl. rewrite app_nil_r. f_equal. lia.
  - cbn [fold_left]. rewrite IH. unfold get_watches_inner. cbn [fst snd].
    destruct (Z.ltb_spec (timestamp w) observed) as [Hlt|Hge].
    + rewrite filter_cons_True by done. cbn [fst snd length].
      rewrite <- app_assoc. f_equal. lia.
    + rewrite filter_cons_False by (unfold older; lia). done.
Qed.

Lemma length_filter_all {A} (P : A -> Prop) `{!forall x, Decision (P x)} (l : list A) :
  length (filter P l) = length l <-> Forall P l.
Proof.
  split.
  - intros Hlen. apply Forall_forall. intros x Hx.
    destruct (decide (P x)) as [|Hn]; [done|].
    pose proof (length_filter_lt P l x Hx Hn). lia.
  - induction 1 as [|x l Hx _ IH]; [done|].
    rewrite filter_cons_True by done. simpl. by rewrite IH.
Qed.

Lemma get_watches_outer_eq observed watches registry p :
  get_watches_outer observed (watches, registry) p
  = (watches ++ filter (older observed) (default [] (registry !! p)),
     if decide (Forall (older observed) (default [] (registry !! p)))
     then delete p registry else registry).
Proof.
  unfold get_watches_outer. rewrite get_watches_inner_fold. cbn [fst snd plus].
  destruct (decide (Forall _ _)) as [Hall|Hsome].
  - rewrite (proj2 (length_filter_all _ _) Hall), Nat.eqb_refl. done.
  - destruct (Nat.eqb_spec (length (filter (older observed) (default [] (registry !! p))))
                           (length (default [] (registry !! p)))) as [Heq|]; [|done].
    by apply length_filter_all in Heq.
Qed.

(** The registry after the outer loop. *)
Lemma get_watches_fold_registry observed paths watches registry p :
  (fold_left (get_watches_outer observed) paths (watches, registry)).2 !! p
  = registry !! p ≫= bucket_after paths observed p.
Proof.
  revert watches registry. induction paths as [|p0 paths IH]; intros watches registry.
  - simpl. destruct (registry !! p) as [b|]; [|done]. simpl. unfold bucket_after.
    rewrite decide_False; [done|]. intros [Hin _]. by apply not_elem_of_nil in Hin.
  - cbn [fold_left]. rewrite get_watches_outer_eq, IH.
    destruct (decide (p = p0)) as [->|Hne].
    + destruct (registry !! p0) as [b|] eqn:Hb.
      * change (default [] (Some b)) with b.
        destruct (decide (Forall (older observed) b)) as [Hall|Hsome].
        -- rewrite lookup_delete_eq. simpl. unfold bucket_after.
           rewrite decide_True; [done|]. split; [left|done].
        -- rewrite Hb. simpl. unfold bucket_after.
           rewrite !decide_False; [done| |]; by intros [_ ?].
      * change (default [] (@None (list Watch))) with (@nil Watch).
        destruct (decide (Forall (older observed) [])) as [_|Hn].
        -- by rewrite lookup_delete_eq.
        -- by rewrite Hb.
    + assert (Hsame : (if decide (Forall (older observed) (default [] (registry !! p0)))
                       then delete p0 registry else registry) !! p = registry !! p).
      { destruct (decide _); [by rewrite lookup_delete_ne|done]. }
      rewrite Hsame. destruct (registry !! p) as [b|]; [|done]. simpl.
      unfold bucket_after.
      destruct (decide (p ∈ paths /\ Forall (older observed) b)) as [[Hin Hall]|Hn].
      * rewrite decide_True; [done|]. split; [by right|done].
      * rewrite decide_False; [done|]. intros [Hin Hall]. apply Hn. split; [|done].
        apply elem_of_cons in Hin as [?|?]; [congruence|done].
Qed.

(** The watches after the outer loop: those collected before, and the
    older watches of the buckets asked for. *)
Lemma get_watches_fold_elem observed paths watches registry w :
  w ∈ (fold_left (get_watches_outer observed) paths (watches, registry)).1
  <-> w ∈ watches
      \/ exists p bucket,
           p ∈ paths /\ registry !! p = Some bucket /\ w ∈ bucket /\ older observed w.
Proof.
  revert watches registry. induction paths as [|p0 paths IH]; intros watches registry.
  - simpl. split; [by left|]. intros [?|(p & b & Hin & _)]; [done|].
    by apply not_elem_of_nil in Hin.
  - cbn [fold_left]. rewrite get_watches_outer_eq, IH, elem_of_app, list_elem_of_filter.
    set (registry' := if decide _ then _ else _).
    assert (Hsub : forall p b, registry' !! p = Some b -> registry !! p = Some b).
    { intros p b. subst registry'. destruct (decide _); [|done].
      rewrite lookup_delete_Some. by intros [_ ?]. }
    assert (Hne : forall p, p <> p0 -> registry' !! p = registry !! p).
    { intros p Hp. subst registry'. destruct (decide _); [|done].
      by rewrite lookup_delete_ne. }
    split.
    + intros [[?|[Hold Hin]]|(p & b & Hin & Hp & Hw & Hold)].
      * by left.
      * right. destruct (registry !! p0) as [b|] eqn:Hb.
        -- change (default [] (Some b)) with b in Hin.
           exists p0, b. repeat split; [left|done..].
        -- by apply not_elem_of_nil in Hin.
      * right. exists p, b. repeat split; [by right|by apply Hsub|done..].
    + intros [?|(p & b & Hin & Hp & Hw & Hold)]; [by left; left|].
      destruct (decide (p = p0)) as [->|Hp0].
      * left; right. by rewrite Hp.
      * right. exists p, b. apply elem_of_cons in Hin as [?|Hin]; [done|].
        by rewrite Hne.
Qed.

Lemma flat_map_ext_elem {A B} (f g : A -> list B) (l : list A) :
  (forall a, a ∈ l -> f a = g a) -> flat_map f l = flat_map g l.
Proof.
  induction l as [|a l IH]; intros Hfg; [done|]. simpl.
  rewrite Hfg by left. rewrite IH; [done|]. intros. apply Hfg. by right.
Qed.

(** The watches after the outer loop, as a list, when no key is asked for
    twice. *)
Lemma get_watches_fold_list observed paths watches registry :
  NoDup paths ->
  (fold_left (get_watches_outer observed) paths (watches, registry)).1
  = watches ++ flat_map (fun p => filter (older observed) (default [] (registry !! p)))
                        paths.
Proof.
  intros Hnd. revert watches registry.
  induction Hnd as [|p0 paths Hnotin _ IH]; intros watches registry.
  - simpl. by rewrite app_nil_r.
  - cbn [fold_left flat_map]. rewrite get_watches_outer_eq, IH, <- app_assoc.
    do 2 f_equal. apply flat_map_ext_elem. intros p Hin.
    destruct (decide (p = p0)) as [->|Hne]; [done|].
    destruct (decide _); [by rewrite lookup_delete_ne|done].
Qed.

Lemma get_watches_open paths observed q :
  _closing q = false ->
  get_watches paths observed q
  = (inr (fold_left (get_watches_outer observed) paths ([], _watches q)).1,
     mk (_queue q)
        (fold_left (get_watches_outer observed) paths ([], _watches q)).2
        false (_log q)).
Proof.
  intros Hc. unfold get_watches. rewrite closing_guard, Hc. py_unfold.
  destruct (fold_left _ _ _) as [ws reg]. unfold set_watches. by rewrite Hc.
Qed.

End GetWatches.

(** C5. On a queue that is not closing, [get_watches paths observed]
    returns the watches registered under the keys of [paths] whose timestamp
    is strictly below [observed], and no other; as a list, bucket after
    bucket, when no key is given twice. A bucket asked for is removed from
    the registry when every watch in it is older than [observed] and is left
    whole otherwise, its older watches returned all the same; nothing else
    of the queue changes. *)
Theorem C5_get_watches_returns_the_older_watches :
  forall (q : EventQueue.t) (paths : list string) (observed : Z),
    EventQueue._closing q = false ->
    exists watches q',
      EventQueue.get_watches paths observed q = (inr watches, q')
      /\ (forall w, w ∈ watches <->
            exists p bucket,
              p ∈ paths /\ EventQueue._watches q !! p = Some bucket
              /\ w ∈ bucket /\ timestamp w < observed)
      /\ (NoDup paths ->
          watches = flat_map (fun p => filter (older observed)
                                         (default [] (EventQueue._watches q !! p)))
                             paths)
      /\ (forall p bucket,
            EventQueue._watches q !! p = Some bucket ->
            EventQueue._watches q' !! p
            = if decide (p ∈ paths /\ Forall (older observed) bucket)
              then None else Some bucket)
      /\ (forall p,
            EventQueue._watches q !! p = None -> EventQueue._watches q' !! p = None)
      /\ EventQueue._queue q' = EventQueue._queue q
      /\ EventQueue._closing q' = false
      /\ EventQueue._log q' = EventQueue._log q.
Proof.
  intros q paths observed Hc. eexists _, _. split; [by apply get_watches_open|].
  cbn [EventQueue._queue EventQueue._watches EventQueue._closing EventQueue._log].
  repeat split.
  - intros Hw. apply get_watches_fold_elem in Hw as [Hw|Hw]; [|done].
    by apply not_elem_of_nil in Hw.
  - intros Hw. apply get_watches_fold_elem. by right.
  - intros Hnd. by rewrite get_watches_fold_list.
  - intros p b Hb. by rewrite get_watches_fold_registry, Hb.
  - intros p Hb. by rewrite get_watches_fold_registry, Hb.
Qed.

(** ** [EventQueue.add_watch] *)

Section AddWatch.
Import EventQueue.

Lemma alter_lookup_insert {A} (f : A -> A) (m : gmap string A) i x :
  m !! i = Some x -> alter f i m = <[i := f x]> m.
Proof.
  intros Hi. apply map_eq. intros j. destruct (decide (i = j)) as [->|Hne].
  - by rewrite lookup_alter_eq, lookup_insert_eq, Hi.
  - by rewrite lookup_alter_ne, lookup_insert_ne.
Qed.

Lemma add_watch_loop_eq watch h pre rest q :
  _watches q !! h = Some (pre ++ rest) ->
  Forall (fun w => watch_type w <> watch_type watch) pre ->
  add_watch_loop watch h (length pre) rest q
  = (inr tt, set_watches (<[h := pre ++ replace_or_append watch rest]>) q).
Proof.
  revert pre. induction rest as [|w rest IH]; intros pre Hh Hpre.
  - cbn [add_watch_loop replace_or_append]. unfold modify, set_watches.
    by rewrite (alter_lookup_insert _ _ _ _ Hh), app_nil_r.
  - cbn [add_watch_loop replace_or_append].
    destruct (decide (watch_type w = watch_type watch)) as [Heq|Hne].
    + unfold modify, set_watches. rewrite (alter_lookup_insert _ _ _ _ Hh).
      replace (length pre) with (length pre + 0)%nat by lia.
      by rewrite insert_app_r.
    + specialize (IH (pre ++ [w])). rewrite length_app in IH. cbn [length] in IH.
      replace (length pre + 1)%nat with (S (length pre)) in IH by lia.
      rewrite IH.
      * by rewrite <- app_assoc.
      * by rewrite <- app_assoc.
      * apply Forall_app. split; [done|]. by constructor.
Qed.

Lemma add_watch_open path watch q :
  _closing q = false ->
  add_watch path watch q
  = (inr tt,
     set_watches
       (<[MD5.hexdigest path :=
            replace_or_append watch (default [] (_watches q !! MD5.hexdigest path))]>)
       q).
Proof.
  intros Hc. unfold add_watch. rewrite closing_guard, Hc. py_unfold.
  destruct (_watches q !! MD5.hexdigest path) as [[|w ws]|] eqn:Hh; try done.
  by apply (add_watch_loop_eq watch _ [] (w :: ws) q).
Qed.

Lemma replace_or_append_types watch bucket ty :
  ty ∈ watch_type <$> replace_or_append watch bucket ->
  ty = watch_type watch \/ ty ∈ watch_type <$> bucket.
Proof.
  induction bucket as [|w bucket IH]; cbn [replace_or_append].
  - rewrite list_fmap_singleton, list_elem_of_singleton. by left.
  - destruct (decide (watch_type w = watch_type watch)) as [Heq|Hne];
      rewrite !fmap_cons, !elem_of_cons.
    + intros [?|?]; [by left|by right; right].
    + intros [?|Hin]; [by right; left|]. destruct (IH Hin); [by left|by right; right].
Qed.

Lemma replace_or_append_NoDup watch bucket :
  NoDup (watch_type <$> bucket) ->
  NoDup (watch_type <$> replace_or_append watch bucket).
Proof.
  induction bucket as [|w bucket IH]; cbn [replace_or_append]; intros Hnd.
  - rewrite list_fmap_singleton. apply NoDup_singleton.
  - rewrite fmap_cons in Hnd. apply NoDup_cons in Hnd as [Hnotin Hnd].
    destruct (decide (watch_type w = watch_type watch)) as [Heq|Hne];
      rewrite fmap_cons; apply NoDup_cons.
    + by rewrite <- Heq.
    + split; [|by apply IH]. intros Hin.
      by destruct (replace_or_append_types _ _ _ Hin).
Qed.

Lemma replace_or_append_twice w1 w2 bucket :
  watch_type w1 = watch_type w2 ->
  exists i,
    replace_or_append w1 bucket !! i = Some w1
    /\ replace_or_append w2 (replace_or_append w1 bucket)
       = <[i := w2]> (replace_or_append w1 bucket).
Proof.
  intros Hty. induction bucket as [|w bucket IH]; cbn [replace_or_append].
  - exists 0%nat. split; [done|]. cbn [replace_or_append]. by rewrite decide_True.
  - destruct (decide (watch_type w = watch_type w1)) as [Heq|Hne].
    + exists 0%nat. split; [done|]. cbn [replace_or_append]. by rewrite decide_True.
    + destruct IH as (i & Hi & Hroa). exists (S i). split; [done|].
      cbn [replace_or_append]. rewrite decide_False by congruence.
      by rewrite Hroa.
Qed.

Lemma replace_or_append_filter watch bucket :
  NoDup (watch_type <$> bucket) ->
  filter (fun w => watch_type w = watch_type watch) (replace_or_append watch bucket)
  = [watch].
Proof.
  induction bucket as [|w bucket IH]; cbn [replace_or_append]; intros Hnd.
  - by rewrite filter_cons_True.
  - rewrite fmap_cons in Hnd. apply NoDup_cons in Hnd as [Hnotin Hnd].
    destruct (decide (watch_type w = watch_type watch)) as [Heq|Hne].
    + rewrite filter_cons_True by done. f_equal.
      destruct (filter _ bucket) as [|w' ws] eqn:Hf; [done|]. exfalso.
      assert (Hw' : w' ∈ filter (fun w => watch_type w = watch_type watch) bucket)
        by (rewrite Hf; left).
      apply list_elem_of_filter in Hw' as [Hty Hin]. apply Hnotin.
      rewrite Heq, <- Hty. by apply list_elem_of_fmap_2.
    + rewrite filter_cons_False by done. by apply IH.
Qed.

Lemma replace_or_append_absent watch bucket :
  Forall (fun w => watch_type w <> watch_type watch) bucket ->
  replace_or_append watch bucket = bucket ++ [watch].
Proof.
  induction 1 as [|w bucket Hw _ IH]; cbn [replace_or_append]; [done|].
  by rewrite decide_False, IH.
Qed.

(** The registry after the scan of [add_watch_notification]: as before, or
    with one entry of the bucket deleted. *)
Lemma notification_loop_registry result h idx rest q :
  _watches (notification_loop result h idx rest q).2 = _watches q
  \/ exists i, _watches (notification_loop result h idx rest q).2
               = alter (delete i) h (_watches q).
Proof.
  revert idx. induction rest as [|w rest IH]; intros idx; cbn [notification_loop].
  - by left.
  - destruct (decide (n_watch_event result = NODE_DATA_CHANGED)); [|apply IH].
    destruct (decide (watch_type w = GET_DATA)); [|by left].
    right. by exists idx.
Qed.

Lemma add_watch_notification_registry result q :
  _watches (add_watch_notification result q).2 = _watches q
  \/ exists i, _watches (add_watch_notification result q).2
               = alter (delete i) (MD5.hexdigest (n_path result)) (_watches q).
Proof.
  unfold add_watch_notification. rewrite closing_guard.
  destruct (_closing q); [by left|]. py_unfold.
  destruct (_watches q !! MD5.hexdigest (n_path result)) as [[|w ws]|];
    [by left| |by left].
  apply notification_loop_registry.
Qed.

Lemma then_ret_state {S A B} (m : Py S A) (b : B) (s : S) :
  ((m ;; mret b) s).2 = (m s).2.
Proof. py_unfold. by destruct (m s) as [[e|a] s']. Qed.

Lemma perform_state c q :
  (perform c q).2
  = match c with
    | AddExpectedResult i r f => (add_expected_result i r f q).2
    | AddDirectResult i r f => (add_direct_result i r f q).2
    | AddIndirectResult r => (add_indirect_result r q).2
    | AddWatchNotification r => (add_watch_notification r q).2
    | AddWatch p w => (add_watch p w q).2
    | GetWatches ps ts => (get_watches ps ts q).2
    | Get => (get q).2
    | Close => (close q).2
    end.
Proof.
  destruct c; cbn [perform]; try apply then_ret_state.
  - py_unfold. by destruct (get_watches paths timestamp' q) as [[e|a] s'].
  - py_unfold. by destruct (get q) as [[e|a] s'].
Qed.

Lemma one_watch_per_type_perform c q :
  one_watch_per_type (_watches q) -> one_watch_per_type (_watches (perform c q).2).
Proof.
  intros Hinv. destruct (_closing q) eqn:Hc.
  { destruct c; try (by rewrite enqueue_closed).
    - rewrite perform_state. unfold get_watches. by rewrite closing_guard, Hc.
    - rewrite eq_perform_get. by destruct (_queue q).
    - done. }
  rewrite perform_state. destruct c as [i r f|i r f|r|result|p w|ps ts| |].
  - unfold add_expected_result. by rewrite closing_guard, Hc.
  - unfold add_direct_result. by rewrite closing_guard, Hc.
  - unfold add_indirect_result. by rewrite closing_guard, Hc.
  - destruct (add_watch_notification_registry result q) as [Hreg|[i Hreg]];
      rewrite Hreg; [done|].
    intros h b. rewrite lookup_alter_Some.
    intros [(_ & b0 & Hb0 & ->)|[_ Hb]]; [|by eapply Hinv].
    apply (sublist_NoDup _ (watch_type <$> b0));
      [by eapply Hinv|apply fmap_sublist, sublist_delete].
  - rewrite add_watch_open by done. cbn [snd _watches set_watches].
    intros h b. rewrite lookup_insert_Some.
    intros [[_ <-]|[_ Hb]]; [|by eapply Hinv].
    apply replace_or_append_NoDup.
    destruct (_watches q !! MD5.hexdigest p) as [b0|] eqn:Hb0;
      [by eapply Hinv|apply NoDup_nil_2].
  - rewrite get_watches_open by done. cbn [snd _watches].
    intros h b. rewrite get_watches_fold_registry.
    destruct (_watches q !! h) as [b0|] eqn:Hb0; [|done]. simpl. unfold bucket_after.
    destruct (decide _); [done|]. intros [= <-]. by eapply Hinv.
  - unfold get. by destruct (_queue q).
  - done.
Qed.

Lemma one_watch_per_type_reachable q :
  reachable q -> one_watch_per_type (_watches q).
Proof.
  induction 1 as [|q c _ IH].
  - intros h b. cbn [init _watches]. by rewrite lookup_empty.
  - by apply one_watch_per_type_perform.
Qed.

End AddWatch.

(** C8. Every registry a queue can reach holds at most one watch of each
    type per bucket. On an open queue [add_watch] replaces in place the
    watch of the same type in the bucket of the path, or appends the new
    watch when the bucket has none of that type. Hence registering two
    watches of one type for a path, one after the other, leaves the second
    where the first was, as the only watch of that type; and a watch of a
    type not yet in the bucket goes to its end. *)
Theorem C8_add_watch_replaces_in_place_or_appends :
  (forall q, EventQueue.reachable q -> one_watch_per_type (EventQueue._watches q))
  /\ (forall q path watch,
        EventQueue._closing q = false ->
        EventQueue.add_watch path watch q
        = (inr tt,
           EventQueue.set_watches
             (<[MD5.hexdigest path :=
                  replace_or_append watch
                    (default [] (EventQueue._watches q !! MD5.hexdigest path))]>)
             q))
  /\ (forall q path w1 w2,
        EventQueue.reachable q ->
        EventQueue._closing q = false ->
        watch_type w1 = watch_type w2 ->
        let q1 := (EventQueue.add_watch path w1 q).2 in
        let q2 := (EventQueue.add_watch path w2 q1).2 in
        exists bucket i,
          EventQueue._watches q1 !! MD5.hexdigest path = Some bucket
          /\ bucket !! i = Some w1
          /\ EventQueue._watches q2 !! MD5.hexdigest path = Some (<[i := w2]> bucket)
          /\ filter (fun w => watch_type w = watch_type w2) (<[i := w2]> bucket) = [w2])
  /\ (forall q path watch bucket,
        EventQueue._closing q = false ->
        EventQueue._watches q !! MD5.hexdigest path = Some bucket ->
        Forall (fun w => watch_type w <> watch_type watch) bucket ->
        EventQueue._watches (EventQueue.add_watch path watch q).2 !! MD5.hexdigest path
        = Some (bucket ++ [watch])).
Proof.
  split; [exact one_watch_per_type_reachable|].
  split; [exact (fun q p w => add_watch_open p w q)|].
  split.
  - intros q p w1 w2 Hreach Hc Hty q1 q2. subst q1 q2.
    rewrite (add_watch_open p w1 q Hc). cbn [snd].
    rewrite add_watch_open by done.
    cbn [snd EventQueue._watches EventQueue.set_watches].
    rewrite !lookup_insert_eq. cbn [default from_option]. unfold id.
    set (b0 := from_option (fun x => x) [] (EventQueue._watches q !! MD5.hexdigest p)).
    destruct (replace_or_append_twice w1 w2 b0 Hty) as (i & Hi & Htwice).
    exists (replace_or_append w1 b0), i. repeat split; [done|by rewrite Htwice|].
    rewrite <- Htwice. apply replace_or_append_filter, replace_or_append_NoDup.
    subst b0. destruct (EventQueue._watches q !! MD5.hexdigest p) as [b|] eqn:Hb.
    + by eapply one_watch_per_type_reachable.
    + apply NoDup_nil_2.
  - intros q p w b Hc Hb Hall. rewrite add_watch_open by done.
    cbn [snd EventQueue._watches EventQueue.set_watches].
    rewrite lookup_insert_eq, Hb. cbn [default from_option]. unfold id.
    by rewrite replace_or_append_absent.
Qed.

Lemma C8_add_watch_witness :
  one_watch_per_type (EventQueue._watches Sample.two_watches)
  /\ (exists bucket i,
        EventQueue._watches
          (EventQueue.add_watch "/x" Sample.data_watch Sample.one_watch).2
          !! MD5.hexdigest "/x" = Some bucket
        /\ bucket !! i = Some Sample.data_watch
        /\ EventQueue._watches
             (EventQueue.add_watch "/x" Sample.newer_data_watch
                (EventQueue.add_watch "/x" Sample.data_watch Sample.one_watch).2).2
             !! MD5.hexdigest "/x" = Some (<[i := Sample.newer_data_watch]> bucket)
        /\ filter (fun w => watch_type w = watch_type Sample.newer_data_watch)
                  (<[i := Sample.newer_data_watch]> bucket)
           = [Sample.newer_data_watch])
  /\ EventQueue._watches
       (EventQueue.add_watch "/x" Sample.children_watch Sample.two_watches).2
       !! MD5.hexdigest "/x"
     = Some ([Sample.exists_watch; Sample.data_watch] ++ [Sample.children_watch]).
Proof.
  destruct C8_add_watch_replaces_in_place_or_appends as (Hinv & _ & Htwice & Happend).
  split; [|split].
  - apply Hinv. do 2 apply EventQueue.reachable_perform. apply EventQueue.reachable_init.
  - apply (Htwice Sample.one_watch "/x"%string Sample.data_watch Sample.newer_data_watch).
    + apply EventQueue.reachable_perform, EventQueue.reachable_init.
    + reflexivity.
    + reflexivity.
  - apply (Happend Sample.two_watches "/x"%string Sample.children_watch).
    + reflexivity.
    + vm_compute. reflexivity.
    + repeat constructor; discriminate.
Defined.

(** ** [SorterThread]: the timeout scan *)

Section CheckTimeout.
Import SorterThread.

Lemma check_timeout_loop_suffix cur i l :
  (check_timeout_loop cur i l).1 `suffix_of` l.
Proof.
  revert i. induction l as [|p l IH]; intros i; cbn [check_timeout_loop]; [done|].
  destruct ((p :: l) !! i) as [fut|]; [|done].
  destruct (timed_out cur (pending_timestamp fut)); [|done].
  specialize (IH (S i)). destruct (check_timeout_loop cur (S i) l) as [l' failed].
  cbn [fst] in *. by apply suffix_cons_r.
Qed.

Lemma check_timeout_loop_failed cur i l :
  completions (check_timeout_loop cur i l).2 = [].
Proof.
  revert i. induction l as [|p l IH]; intros i; cbn [check_timeout_loop]; [done|].
  destruct ((p :: l) !! i) as [fut|]; [|done].
  destruct (timed_out cur (pending_timestamp fut)); [|done].
  specialize (IH (S i)). destruct (check_timeout_loop cur (S i) l) as [l' failed].
  cbn [snd] in *. done.
Qed.

Lemma check_timeout_eq s :
  _check_timeout s
  = (inr tt,
     mk (_queue s)
        (check_timeout_loop (clock s (ticks s)) 0 (futures s)).1
        (trace s ++ (check_timeout_loop (clock s (ticks s)) 0 (futures s)).2)
        (clock s) (S (ticks s))).
Proof.
  unfold _check_timeout, now. py_unfold. cbn [futures].
  by destruct (check_timeout_loop _ _ _) as [l failed].
Qed.

End CheckTimeout.

(** ** [SorterThread]: the branches of [run] *)

Section SorterBranches.
Import SorterThread.

Lemma indirect_result_eq result s :
  indirect_result result s
  = match parse_req_id result with
    | inl e => (inl e, s)
    | inr req_id =>
        match futures s with
        | [] => (inl IndexError, s)
        | first :: rest =>
            if decide (pending_id first = req_id) then
              (inr tt,
               mk (_queue s) rest
                  (trace s ++ [ProcessResult (pending_request first) result
                                             (pending_future first)])
                  (clock s) (ticks s))
            else (inl AssertionError, s)
        end
    end.
Proof.
  unfold indirect_result, lift_result. py_unfold.
  destruct (parse_req_id result) as [e|req_id]; [done|].
  destruct (futures s) as [|first rest]; [done|].
  by destruct (decide (pending_id first = req_id)).
Qed.

Lemma emit_all (f : Watch -> Effect) ws s :
  mapM (fun w => emit (f w)) ws s
  = (inr (map (fun _ => tt) ws),
     mk (_queue s) (futures s) (trace s ++ map f ws) (clock s) (ticks s)).
Proof.
  revert s. induction ws as [|w ws IH]; intros s.
  - cbn [mapM map]. py_unfold. rewrite app_nil_r. by destruct s.
  - cbn [mapM map]. unfold mbind at 1. unfold py_bind. unfold emit at 1, modify.
    unfold mbind at 1. unfold py_bind. rewrite IH. py_unfold.
    cbn [_queue futures trace clock ticks]. by rewrite <- app_assoc.
Qed.

(** The two [get_watches] calls of the branch, on an open queue. *)
Lemma direct_result_node node future s :
  EventQueue._closing (_queue s) = false ->
  let registry := EventQueue._watches (_queue s) in
  let own := fold_left (EventQueue.get_watches_outer (modified_system_sum node))
                       [MD5.hexdigest (path node)] ([], registry) in
  let epoch := fold_left (EventQueue.get_watches_outer (modified_system_sum node))
                         (epoch_paths node) ([], own.2) in
  direct_result (ResNode node) future s
  = (inr tt,
     mk (EventQueue.mk (EventQueue._queue (_queue s)) epoch.2 false
                       (EventQueue._log (_queue s)))
        (futures s)
        (trace s
         ++ map (fun w => GenerateMessage w (data_changed node)) own.1
         ++ [SetResult future (ResNode node)])
        (clock s) (ticks s)).
Proof.
  intros Hc registry own epoch. unfold direct_result.
  unfold mbind at 1. unfold py_bind.
  unfold mbind at 1. unfold py_bind.
  unfold on_queue at 1. rewrite (get_watches_open _ _ _ Hc).
  fold registry. fold own.
  unfold mbind at 1. unfold py_bind. rewrite emit_all.
  unfold mbind at 1. unfold py_bind. unfold on_queue.
  cbn [_queue futures trace clock ticks].
  rewrite get_watches_open by done.
  cbn [EventQueue._queue EventQueue._watches EventQueue._closing EventQueue._log].
  fold epoch. py_unfold. unfold emit, modify.
  cbn [_queue futures trace clock ticks]. by rewrite <- app_assoc.
Qed.

Lemma direct_result_node_closing node future s :
  EventQueue._closing (_queue s) = true ->
  direct_result (ResNode node) future s = (inl SessionClosingException, s).
Proof.
  intros Hc. unfold direct_result.
  unfold mbind at 1. unfold py_bind.
  unfold mbind at 1. unfold py_bind.
  unfold on_queue at 1. unfold EventQueue.get_watches at 1.
  rewrite closing_guard, Hc. by destruct s.
Qed.

Lemma direct_result_other result future s :
  (forall node, result <> ResNode node) ->
  direct_result result future s
  = (inr tt,
     mk (_queue s) (futures s)
        (trace s ++ [match result with
                     | ResException e => SetException future e
                     | _ => SetResult future result
                     end])
        (clock s) (ticks s)).
Proof.
  intros Hn. destruct result as [|node|e|v]; try done. by destruct (Hn node).
Qed.

End SorterBranches.

(** ** [SorterThread]: replies are matched in the order of the requests *)

Section Ordering.
Import SorterThread.

Local Abbreviation after_get s items :=
  (mk (EventQueue.set_queue (fun _ => items) (_queue s))
      (futures s) (trace s) (clock s) (ticks s)).

Lemma run_iteration_eq s :
  run_iteration s
  = match EventQueue._queue (_queue s) with
    | [] => _check_timeout s
    | CLOUD_EXPECTED_RESULT i r f :: items =>
        _check_timeout
          (mk (EventQueue.set_queue (fun _ => items) (_queue s))
              (futures s ++ [(i, r, f, clock s (ticks s))])
              (trace s) (clock s) (S (ticks s)))
    | CLOUD_DIRECT_RESULT i result f :: items =>
        direct_result result f (after_get s items)
    | CLOUD_INDIRECT_RESULT result :: items =>
        indirect_result result (after_get s items)
    | WATCH_NOTIFICATION w e :: items =>
        _check_timeout
          (mk (EventQueue.set_queue (fun _ => items) (_queue s))
              (futures s) (trace s ++ [GenerateMessage w e]) (clock s) (ticks s))
    end.
Proof.
  unfold run_iteration. unfold mbind at 1. unfold py_bind.
  unfold on_queue, EventQueue.get.
  destruct (EventQueue._queue (_queue s)) as [|item items]; [by destruct s|].
  destruct item; try done.
Qed.

Lemma completions_app tr1 tr2 :
  completions (tr1 ++ tr2) = completions tr1 ++ completions tr2.
Proof. apply omap_app. Qed.

Lemma pending_slots_suffix l1 l2 :
  l1 `suffix_of` l2 -> pending_slots l1 `sublist_of` pending_slots l2.
Proof.
  intros [k ->]. unfold pending_slots. rewrite map_app.
  apply sublist_inserts_l. done.
Qed.

(** The scan keeps the order: it only drops entries from the head. *)
Lemma check_timeout_in_flight s :
  in_flight (_check_timeout s).2 `sublist_of` in_flight s.
Proof.
  rewrite check_timeout_eq. unfold in_flight. cbn [snd _queue futures trace].
  rewrite completions_app, check_timeout_loop_failed, app_nil_r.
  apply sublist_app; [done|]. apply sublist_app; [|done].
  apply pending_slots_suffix, check_timeout_loop_suffix.
Qed.

Lemma direct_result_in_flight result future s :
  in_flight (direct_result result future s).2 = in_flight s.
Proof.
  assert (Hother : forall result, (forall node, result <> ResNode node) ->
            in_flight (direct_result result future s).2 = in_flight s).
  { intros r Hr. rewrite direct_result_other by done. unfold in_flight.
    cbn [snd _queue futures trace]. rewrite completions_app.
    replace (completions [_]) with (@nil Slot) by (by destruct r).
    by rewrite app_nil_r. }
  destruct result as [|node|e|v]; [by apply Hother| |by apply Hother..].
  destruct (EventQueue._closing (_queue s)) eqn:Hc.
  - by rewrite direct_result_node_closing.
  - rewrite direct_result_node by done. unfold in_flight, queued_expected.
    cbn [snd _queue futures trace EventQueue._queue].
    rewrite !completions_app. cbn [completions omap]. rewrite app_nil_r.
    replace (completions (map _ _)) with (@nil Slot); [by rewrite app_nil_r|].
    generalize (fold_left (EventQueue.get_watches_outer (modified_system_sum node))
                          [MD5.hexdigest (path node)]
                          ([], EventQueue._watches (_queue s))).1.
    intros ws. by induction ws.
Qed.

Lemma indirect_result_in_flight result s :
  in_flight (indirect_result result s).2 = in_flight s.
Proof.
  rewrite indirect_result_eq.
  destruct (parse_req_id result) as [e|req_id] eqn:Hparse; [done|].
  destruct (futures s) as [|first rest] eqn:Hf; [done|].
  destruct (decide (pending_id first = req_id)) as [Hid|]; [|done].
  unfold in_flight. cbn [snd _queue futures trace]. rewrite Hf.
  rewrite completions_app.
  change (completions [ProcessResult (pending_request first) result
                                     (pending_future first)])
    with [(parse_req_id result, pending_request first, pending_future first)].
  change (pending_slots (first :: rest))
    with ((inr (pending_id first), pending_request first, pending_future first)
          :: pending_slots rest).
  rewrite Hparse, Hid, <- app_assoc. done.
Qed.

Lemma poll_in_flight s :
  in_flight (run_iteration s).2 `sublist_of` in_flight s.
Proof.
  rewrite run_iteration_eq.
  destruct (EventQueue._queue (_queue s)) as [|item items] eqn:Hq;
    [apply check_timeout_in_flight|].
  assert (Hdrop : forall s0,
            futures s0 = futures s -> trace s0 = trace s ->
            EventQueue._queue (_queue s0) = items ->
            (forall i r f, item <> CLOUD_EXPECTED_RESULT i r f) ->
            in_flight s0 = in_flight s).
  { intros s0 Hf Ht Hi Hne. unfold in_flight, queued_expected.
    rewrite Hf, Ht, Hi, Hq. cbn [omap]. destruct item; try done. by destruct (Hne request_id request future). }
  destruct item as [result|i result f|i r f|w e].
  - rewrite indirect_result_in_flight. by rewrite Hdrop.
  - rewrite direct_result_in_flight. by rewrite Hdrop.
  - etrans; [apply check_timeout_in_flight|].
    unfold in_flight, queued_expected, pending_slots.
    cbn [_queue futures trace EventQueue._queue EventQueue.set_queue].
    rewrite Hq, map_app. cbn [omap map]. by rewrite <- app_assoc.
  - etrans; [apply check_timeout_in_flight|].
    unfold in_flight, queued_expected.
    cbn [_queue futures trace EventQueue._queue EventQueue.set_queue].
    rewrite Hq, completions_app. cbn [omap completions]. by rewrite app_nil_r.
Qed.

End Ordering.

Section OrderingOtherThreads.
Import SorterThread.

Lemma queued_expected_put q e :
  queued_expected (EventQueue.put e q).2
  = queued_expected q
    ++ match e with
       | CLOUD_EXPECTED_RESULT i r f => [(inr i, r, f)]
       | _ => []
       end.
Proof.
  unfold queued_expected, EventQueue.put, modify, EventQueue.set_queue.
  cbn [snd EventQueue._queue]. rewrite omap_app. by destruct e.
Qed.

Lemma queued_expected_notification_loop result h idx rest q :
  queued_expected (EventQueue.notification_loop result h idx rest q).2
  = queued_expected q.
Proof.
  revert idx. induction rest as [|w rest IH]; intros idx;
    cbn [EventQueue.notification_loop]; [done|].
  destruct (decide (n_watch_event result = NODE_DATA_CHANGED)); [|apply IH].
  destruct (decide (watch_type w = GET_DATA)); [|done].
  py_unfold. unfold EventQueue.put, modify.
  cbn [snd]. unfold queued_expected, EventQueue.set_watches, EventQueue.set_queue.
  cbn [EventQueue._queue]. rewrite omap_app. cbn [omap]. by rewrite app_nil_r.
Qed.

Lemma queued_expected_perform c q :
  queued_expected (EventQueue.perform c q).2
  `sublist_of` queued_expected q ++ announced c.
Proof.
  rewrite perform_state.
  destruct c as [i r f|i r f|r|result|p w|ps ts| |]; cbn [announced];
    rewrite ?app_nil_r.
  - unfold EventQueue.add_expected_result. rewrite closing_guard.
    destruct (EventQueue._closing q); [by apply sublist_inserts_r|].
    by rewrite queued_expected_put.
  - unfold EventQueue.add_direct_result. rewrite closing_guard.
    destruct (EventQueue._closing q); [done|].
    by rewrite queued_expected_put, app_nil_r.
  - unfold EventQueue.add_indirect_result. rewrite closing_guard.
    destruct (EventQueue._closing q); [done|].
    by rewrite queued_expected_put, app_nil_r.
  - unfold EventQueue.add_watch_notification. rewrite closing_guard.
    destruct (EventQueue._closing q); [done|]. py_unfold.
    destruct (EventQueue._watches q !! MD5.hexdigest (n_path result)) as [[|w0 ws]|];
      [done| |done].
    by rewrite queued_expected_notification_loop.
  - destruct (EventQueue._closing q) eqn:Hc.
    + unfold EventQueue.add_watch. by rewrite closing_guard, Hc.
    + by rewrite add_watch_open.
  - destruct (EventQueue._closing q) eqn:Hc.
    + unfold EventQueue.get_watches. by rewrite closing_guard, Hc.
    + by rewrite get_watches_open.
  - unfold EventQueue.get, queued_expected.
    destruct (EventQueue._queue q) as [|item items] eqn:Hq; cbn [snd]; [by rewrite Hq|].
    cbn [EventQueue.set_queue EventQueue._queue]. cbn [omap].
    destruct item; try done. by apply sublist_cons.
  - done.
Qed.

Lemma other_in_flight c s :
  in_flight (on_queue (EventQueue.perform c) s).2
  `sublist_of` in_flight s ++ announced c.
Proof.
  unfold on_queue, in_flight.
  pose proof (queued_expected_perform c (_queue s)) as Hq.
  destruct (EventQueue.perform c (_queue s)) as [r q']. cbn [snd] in *.
  cbn [_queue futures trace]. rewrite <- !app_assoc.
  apply sublist_app; [done|]. apply sublist_app; [done|]. done.
Qed.

Lemma expected_requests_cons a schedule :
  expected_requests (a :: schedule)
  = match a with Poll => [] | Other c => announced c end
    ++ expected_requests schedule.
Proof.
  unfold expected_requests. cbn [omap]. destruct a as [|c]; [done|]. by destruct c.
Qed.

(** Along any schedule, the requests completed, pending and still queued
    stay, in that order, a subsequence of the requests announced. *)
Lemma run_in_flight schedule s announced_before :
  in_flight s `sublist_of` announced_before ->
  in_flight (run schedule s).2
  `sublist_of` announced_before ++ expected_requests schedule.
Proof.
  revert s announced_before.
  induction schedule as [|a schedule IH]; intros s before Hs.
  - cbn. by rewrite app_nil_r.
  - rewrite expected_requests_cons. destruct a as [|c]; cbn [run].
    + pose proof (poll_in_flight s) as Hpoll.
      destruct (run_iteration s) as [[e|[]] s']; cbn [snd] in *.
      * apply sublist_inserts_r. by etrans.
      * apply IH. by etrans.
    + rewrite app_assoc. apply IH. etrans; [apply other_in_flight|].
      by apply sublist_app.
Qed.

End OrderingOtherThreads.

(** C1. When the sorter dequeues a CLOUD_INDIRECT_RESULT whose local index
    parses to [idx]: with no pending entry the round raises [IndexError];
    with a head entry of another request id it raises [AssertionError],
    and the pending list and the trace are left as they were; with a head
    entry of request id [idx] the head is popped and [process_result] is
    called with its operation, the reply and its future. Hence, along any
    schedule of a session, the [process_result] calls are made in the order
    in which the requests were announced, each for the request whose id is
    the local index of its reply. *)
Theorem C1_indirect_reply_completes_the_head_request_or_fails :
  (forall (s : SorterThread.t) (reply : PyDict) (items : list Event) (idx : Z),
     EventQueue._queue (SorterThread._queue s) = CLOUD_INDIRECT_RESULT reply :: items ->
     SorterThread.parse_req_id reply = inr idx ->
     let polled := EventQueue.set_queue (fun _ => items) (SorterThread._queue s) in
     SorterThread.run_iteration s
     = match SorterThread.futures s with
       | [] =>
           (inl IndexError,
            SorterThread.mk polled [] (SorterThread.trace s)
                            (SorterThread.clock s) (SorterThread.ticks s))
       | first :: rest =>
           if decide (pending_id first = idx) then
             (inr tt,
              SorterThread.mk polled rest
                (SorterThread.trace s
                 ++ [ProcessResult (pending_request first) reply (pending_future first)])
                (SorterThread.clock s) (SorterThread.ticks s))
           else
             (inl AssertionError,
              SorterThread.mk polled (first :: rest) (SorterThread.trace s)
                              (SorterThread.clock s) (SorterThread.ticks s))
       end)
  /\ (forall (schedule : list SorterThread.Step) (clock : nat -> float),
        SorterThread.completions
          (SorterThread.trace
             (SorterThread.run schedule (SorterThread.init EventQueue.init clock)).2)
        `sublist_of` SorterThread.expected_requests schedule).
Proof.
  split.
  - intros s reply items idx Hq Hparse polled.
    rewrite run_iteration_eq, Hq, indirect_result_eq, Hparse.
    cbn [SorterThread._queue SorterThread.futures SorterThread.trace
         SorterThread.clock SorterThread.ticks].
    destruct (SorterThread.futures s) as [|first rest]; [done|].
    by destruct (decide (pending_id first = idx)).
  - intros schedule clock.
    pose proof (run_in_flight schedule (SorterThread.init EventQueue.init clock) [])
      as Hrun.
    etrans; [|apply Hrun; done].
    unfold in_flight. by apply sublist_inserts_r.
Qed.

Lemma C1_indirect_reply_witness :
  (SorterThread.run_iteration (Sample.reply_arrives "1")).1 = inl AssertionError
  /\ SorterThread.futures (SorterThread.run_iteration (Sample.reply_arrives "1")).2
     = SorterThread.futures (Sample.two_pending Sample.steady_clock)
  /\ SorterThread.trace (SorterThread.run_iteration (Sample.reply_arrives "1")).2 = []
  /\ (SorterThread.run_iteration (Sample.reply_arrives "0")).1 = inr tt
  /\ SorterThread.futures (SorterThread.run_iteration (Sample.reply_arrives "0")).2
     = [(1, Sample.create_b, Sample.future1, 100%float)]
  /\ SorterThread.trace (SorterThread.run_iteration (Sample.reply_arrives "0")).2
     = [ProcessResult Sample.create_a (Sample.reply "0") Sample.future0].
Proof.
  destruct C1_indirect_reply_completes_the_head_request_or_fails as [Hstep _].
  rewrite (Hstep (Sample.reply_arrives "1") (Sample.reply "1") [] 1 eq_refl eq_refl).
  rewrite (Hstep (Sample.reply_arrives "0") (Sample.reply "0") [] 0 eq_refl eq_refl).
  vm_compute. repeat split.
Defined.

(** C2. Two requests are pending, both older than five seconds when the
    event queue stays empty: the scan of that round fails the future of the
    first request only and removes the first entry only; the second stays
    pending, its future untouched. With three such requests the scan fails
    the futures of the first and the third, removes the first and the second
    entry, and leaves the third, already failed, in the list. *)
Theorem C2_timeout_scan_skips_every_other_entry :
  SorterThread.run_iteration (Sample.two_pending (Sample.late_clock 4))
  = (inr tt,
     SorterThread.mk EventQueue.init
       [(1, Sample.create_b, Sample.future1, 100%float)]
       [SetException Sample.future0 (TimeoutException 5%float)]
       (Sample.late_clock 4) 5)
  /\ SorterThread.run_iteration (Sample.three_pending (Sample.late_clock 6))
     = (inr tt,
        SorterThread.mk EventQueue.init
          [(2, Sample.create_c, Sample.future2, 100%float)]
          [SetException Sample.future0 (TimeoutException 5%float);
           SetException Sample.future2 (TimeoutException 5%float)]
          (Sample.late_clock 6) 7).
Proof. split; vm_compute; reflexivity. Qed.

(** C4. The bucket of [/x] holds an EXISTS watch followed by a GET_DATA
    watch. A NODE_DATA_CHANGED notification for [/x] returns at the first
    watch of the bucket: nothing is enqueued, the GET_DATA watch stays
    registered and no warning is logged. *)
Theorem C4_notification_stops_at_the_first_watch :
  EventQueue._watches Sample.two_watches !! MD5.hexdigest "/x"
  = Some [Sample.exists_watch; Sample.data_watch]
  /\ EventQueue.add_watch_notification
       (mkNotification "/x" NODE_DATA_CHANGED 7) Sample.two_watches
     = (inr tt, Sample.two_watches).
Proof. split; vm_compute; reflexivity. Qed.

(** ** [SorterThread]: a direct result *)

Section DirectResult.
Import SorterThread.

Lemma bucket_after_cons key paths observed p (bucket : option (list Watch)) :
  (bucket ≫= bucket_after [key] observed p) ≫= bucket_after paths observed p
  = bucket ≫= bucket_after (key :: paths) observed p.
Proof.
  destruct bucket as [b|]; [|done]. cbn. unfold bucket_after.
  destruct (decide (p ∈ [key] /\ Forall (older observed) b)) as [[Hin Hall]|Hn1]; cbn.
  - rewrite decide_True; [done|]. split; [|done].
    apply list_elem_of_singleton in Hin as ->. left.
  - destruct (decide (p ∈ paths /\ Forall (older observed) b)) as [[Hin Hall]|Hn2].
    + rewrite decide_True; [done|]. split; [by right|done].
    + rewrite decide_False; [done|]. intros [Hin Hall].
      apply elem_of_cons in Hin as [->|Hin].
      * apply Hn1. split; [left|done].
      * by apply Hn2.
Qed.

Lemma own_watches observed key registry :
  (fold_left (EventQueue.get_watches_outer observed) [key] ([], registry)).1
  = filter (older observed) (default [] (registry !! key)).
Proof. cbn [fold_left]. by rewrite get_watches_outer_eq. Qed.

End DirectResult.

(** C3 (amended). When the sorter dequeues a CLOUD_DIRECT_RESULT on a
    queue that is not closing, the round returns with the pending list as
    it was. For a [Node] it fires NODE_DATA_CHANGED, with the path of the
    node and [modified.system.sum] as timestamp, for the watches registered
    under the MD5 of the path with an older timestamp, in bucket order, and
    for no other watch; then it completes the future with [set_result].
    The bucket of the path and the buckets named by the epoch are removed
    from the registry when all their watches are older than the timestamp,
    and are left whole otherwise. For an exception the future is completed
    with [set_exception], for anything else with [set_result], the registry
    untouched. *)
Theorem C3_direct_result_fires_the_watches_of_the_node_path :
  forall (s : SorterThread.t) (request_id : Z) (result : DirectResult)
         (future : Future) (items : list Event),
    EventQueue._queue (SorterThread._queue s)
      = CLOUD_DIRECT_RESULT request_id result future :: items ->
    EventQueue._closing (SorterThread._queue s) = false ->
    exists s',
      SorterThread.run_iteration s = (inr tt, s')
      /\ SorterThread.futures s' = SorterThread.futures s
      /\ EventQueue._queue (SorterThread._queue s') = items
      /\ match result with
         | ResNode node =>
             let observed := modified_system_sum node in
             let registry := EventQueue._watches (SorterThread._queue s) in
             SorterThread.trace s'
             = SorterThread.trace s
               ++ map (fun w => GenerateMessage w (SorterThread.data_changed node))
                      (filter (older observed)
                              (default [] (registry !! MD5.hexdigest (path node))))
               ++ [SetResult future result]
             /\ forall p,
                  EventQueue._watches (SorterThread._queue s') !! p
                  = registry !! p
                      ≫= bucket_after
                           (MD5.hexdigest (path node) :: SorterThread.epoch_paths node)
                           observed p
         | ResException e =>
             SorterThread.trace s' = SorterThread.trace s ++ [SetException future e]
             /\ EventQueue._watches (SorterThread._queue s')
                = EventQueue._watches (SorterThread._queue s)
         | _ =>
             SorterThread.trace s' = SorterThread.trace s ++ [SetResult future result]
             /\ EventQueue._watches (SorterThread._queue s')
                = EventQueue._watches (SorterThread._queue s)
         end.
Proof.
  intros s request_id result future items Hq Hc.
  rewrite run_iteration_eq, Hq.
  destruct result as [|node|e|v]; try (eexists; repeat split; done).
  rewrite direct_result_node by done. eexists. split; [reflexivity|].
  cbn [SorterThread._queue SorterThread.futures SorterThread.trace
       EventQueue._queue EventQueue._watches EventQueue.set_queue].
  repeat split.
  - by rewrite own_watches.
  - intros p. rewrite !get_watches_fold_registry. apply bucket_after_cons.
Qed.

Lemma C3_direct_result_witness :
  exists s',
    SorterThread.run_iteration (Sample.direct_read Sample.node_x) = (inr tt, s')
    /\ SorterThread.trace s'
       = [GenerateMessage Sample.data_watch (SorterThread.data_changed Sample.node_x);
          SetResult Sample.future0 (ResNode Sample.node_x)]
    /\ EventQueue._watches (SorterThread._queue s') !! MD5.hexdigest "/x"
       = Some [Sample.data_watch; Sample.newer_exists_watch]
    /\ EventQueue._watches (SorterThread._queue s') !! MD5.hexdigest "/y" = None.
Proof.
  destruct (C3_direct_result_fires_the_watches_of_the_node_path
              (Sample.direct_read Sample.node_x) 0 (ResNode Sample.node_x)
              Sample.future0 [] eq_refl eq_refl)
    as (s' & Hrun & _ & _ & Htrace & Hreg).
  exists s'. split; [exact Hrun|]. split; [|split].
  - rewrite Htrace. vm_compute. reflexivity.
  - rewrite Hreg. vm_compute. reflexivity.
  - rewrite Hreg. vm_compute. reflexivity.
Defined.

(** C3, as stated, fails. After the direct read of [/x] at timestamp 20,
    with an older GET_DATA watch and a newer EXISTS watch on [/x] and an
    older watch in the bucket the epoch names: the watch of the epoch bucket
    was fetched, its bucket is gone, and it was not fired; the watch of [/x]
    that was fired is still registered. With the epoch of the fourth
    scenario, ["/y_001"], the watch on [/y] is neither fired nor removed. *)
Lemma C3_epoch_watches_are_not_fired :
  let s := Sample.direct_read Sample.node_x in
  let s' := (SorterThread.run_iteration s).2 in
  let t' := (SorterThread.run_iteration (Sample.direct_read Sample.node_x_scenario)).2 in
  ~ fetched_watches_fire s Sample.node_x s'
  /\ ~ fired_watches_unregistered s'
  /\ EventQueue._watches (SorterThread._queue s) !! MD5.hexdigest "/y"
     = Some [Sample.y_watch]
  /\ EventQueue._watches (SorterThread._queue s') !! MD5.hexdigest "/y" = None
  /\ (forall e, GenerateMessage Sample.y_watch e ∉ SorterThread.trace s')
  /\ (forall e, GenerateMessage Sample.y_watch e ∉ SorterThread.trace t')
  /\ EventQueue._watches (SorterThread._queue t') !! MD5.hexdigest "/y"
     = Some [Sample.y_watch].
Proof.
  intros s s' t'.
  assert (Htrace : SorterThread.trace s'
            = [GenerateMessage Sample.data_watch (SorterThread.data_changed Sample.node_x);
               SetResult Sample.future0 (ResNode Sample.node_x)])
    by (vm_compute; reflexivity).
  assert (Htrace' : SorterThread.trace t'
            = [GenerateMessage Sample.data_watch
                 (SorterThread.data_changed Sample.node_x_scenario);
               SetResult Sample.future0 (ResNode Sample.node_x_scenario)])
    by (vm_compute; reflexivity).
  split; [|split; [|split; [|split; [|split; [|split]]]]].
  - intros Hfire.
    specialize (Hfire (MD5.hexdigest "/y") [Sample.y_watch] Sample.y_watch).
    rewrite Htrace in Hfire.
    assert (Hin : GenerateMessage Sample.y_watch (SorterThread.data_changed Sample.node_x)
                  ∈ [GenerateMessage Sample.data_watch
                       (SorterThread.data_changed Sample.node_x);
                     SetResult Sample.future0 (ResNode Sample.node_x)]).
    { apply Hfire.
      - right. vm_compute. left.
      - vm_compute. reflexivity.
      - left.
      - unfold older. vm_compute. reflexivity. }
    apply elem_of_cons in Hin as [Heq|Hin]; [discriminate Heq|].
    apply list_elem_of_singleton in Hin. discriminate Hin.
  - intros Hgone.
    apply (Hgone Sample.data_watch (SorterThread.data_changed Sample.node_x)
                 (MD5.hexdigest "/x") [Sample.data_watch; Sample.newer_exists_watch]).
    + rewrite Htrace. left.
    + vm_compute. reflexivity.
    + left.
  - vm_compute. reflexivity.
  - vm_compute. reflexivity.
  - intros e. rewrite Htrace. intros Hin.
    apply elem_of_cons in Hin as [Heq|Hin]; [discriminate Heq|].
    apply list_elem_of_singleton in Hin. discriminate Hin.
  - intros e. rewrite Htrace'. intros Hin.
    apply elem_of_cons in Hin as [Heq|Hin]; [discriminate Heq|].
    apply list_elem_of_singleton in Hin. discriminate Hin.
  - vm_compute. reflexivity.
Qed.

Lemma C5_get_watches_witness :
  exists watches q',
    EventQueue.get_watches [MD5.hexdigest "/x"] 11 Sample.two_watches = (inr watches, q')
    /\ watches = [Sample.exists_watch; Sample.data_watch]
    /\ EventQueue._watches q' !! MD5.hexdigest "/x" = None.
Proof.
  destruct (C5_get_watches_returns_the_older_watches
              Sample.two_watches [MD5.hexdigest "/x"] 11 eq_refl)
    as (watches & q' & Hget & _ & Hlist & Hreg & _).
  exists watches, q'. split; [exact Hget|]. split.
  - rewrite Hlist by (apply NoDup_singleton). vm_compute. reflexivity.
  - rewrite (Hreg (MD5.hexdigest "/x") [Sample.exists_watch; Sample.data_watch])
      by (vm_compute; reflexivity).
    apply decide_True. split; [left|]. repeat constructor; unfold older; vm_compute; reflexivity.
Defined.

(** ** [ResponseListener]: the size of a message *)

(** C9 (amended). The message read from a connection is what one
    [recv(1024)] returns: the first 1024 bytes of what the connection
    delivered, all of it when that is shorter. *)
Theorem C9_message_is_read_into_1024_bytes :
  forall delivered : list Byte.byte,
    ResponseListener.received_message delivered = take 1024 delivered
    /\ length (ResponseListener.received_message delivered)
       = Nat.min 1024 (length delivered).
Proof.
  intros delivered. unfold ResponseListener.received_message, ResponseListener.recv.
  split; [reflexivity|]. apply length_firstn.
Qed.

(** C9, as stated, fails: the ceiling of the receive buffer is 1024 bytes,
    below 64 KiB, and of a message of 2000 bytes only the first 1024 are
    read. *)
Lemma C9_receive_buffer_is_below_64KiB :
  ~ (65536 <= Z.of_nat ResponseListener.recv_bufsize)
  /\ length (ResponseListener.received_message (repeat Byte.x20 2000)) = 1024%nat.
Proof.
  split.
  - unfold ResponseListener.recv_bufsize. lia.
  - vm_compute. reflexivity.
Qed.

(** ** The two scans, in general *)

(** With two pending entries of which the first has timed out, the scan
    fails the first future and stops, whatever the age of the second. *)
Lemma check_timeout_loop_two_entries cur a b :
  SorterThread.timed_out cur (pending_timestamp a) = true ->
  SorterThread.check_timeout_loop cur 0 [a; b]
  = ([b], [SetException (pending_future a) (TimeoutException 5%float)]).
Proof.
  intros Ha. cbn [SorterThread.check_timeout_loop lookup list_lookup].
  by rewrite Ha.
Qed.

(** On an open queue, a NODE_DATA_CHANGED notification looks at the first
    watch of the bucket only: a GET_DATA watch there is promoted and
    deleted, any other first watch ends the call with nothing done. *)
Lemma add_watch_notification_first_watch q p ts w ws :
  EventQueue._closing q = false ->
  EventQueue._watches q !! MD5.hexdigest p = Some (w :: ws) ->
  EventQueue.add_watch_notification (mkNotification p NODE_DATA_CHANGED ts) q
  = if decide (watch_type w = GET_DATA) then
      (inr tt,
       EventQueue.mk
         (EventQueue._queue q
          ++ [WATCH_NOTIFICATION w (mkWatchedEvent NODE_DATA_CHANGED p ts)])
         (alter (delete 0%nat) (MD5.hexdigest p) (EventQueue._watches q))
         false (EventQueue._log q))
    else (inr tt, q).
Proof.
  intros Hc Hb. unfold EventQueue.add_watch_notification.
  rewrite closing_guard, Hc. py_unfold. cbn [n_path]. rewrite Hb.
  cbn [EventQueue.notification_loop n_watch_event n_path n_timestamp].
  rewrite decide_True by done.
  destruct (decide (watch_type w = GET_DATA)); [|done].
  py_unfold. unfold EventQueue.put, modify, EventQueue.set_queue, EventQueue.set_watches.
  cbn. by rewrite Hc.
Qed.

(* ===================================================================== *)
(** * Further properties of the queues and of the sorter *)
(* ===================================================================== *)

(** ** The timeout scan in closed form *)

Section ScanClosedForm.
Import SorterThread.

Lemma every_other_drop {A} (l : list A) i x :
  l !! i = Some x -> every_other (drop i l) = x :: every_other (drop (S (S i)) l).
Proof.
  intros Hi. rewrite (drop_S l x i Hi).
  destruct (drop (S i) l) as [|y d] eqn:Hd.
  - rewrite (drop_ge l (S (S i))); [done|].
    apply (f_equal length) in Hd. rewrite length_drop in Hd. simpl in Hd. lia.
  - cbn [every_other]. do 2 f_equal.
    assert (Hy : l !! S i = Some y).
    { rewrite <- (Nat.add_0_r (S i)), <- lookup_drop, Hd. done. }
    rewrite (drop_S l y (S i) Hy) in Hd. by injection Hd.
Qed.

Lemma check_timeout_loop_closed_form cur i l :
  let failed := leading (fun p => timed_out cur (pending_timestamp p))
                        (every_other (drop i l)) in
  check_timeout_loop cur i l = (drop (length failed) l, map timeout_failure failed).
Proof.
  revert i. induction l as [|p l IH]; intros i.
  - cbn zeta. rewrite !drop_nil. reflexivity.
  - cbn [check_timeout_loop]. destruct ((p :: l) !! i) as [fut|] eqn:Hi.
    + cbn zeta. rewrite (every_other_drop _ _ _ Hi). cbn [leading].
      destruct (timed_out cur (pending_timestamp fut)); [|done].
      specialize (IH (S i)). cbn zeta in IH. rewrite IH. done.
    + cbn zeta. rewrite (drop_ge (p :: l) i); [done|]. by apply lookup_ge_None.
Qed.

End ScanClosedForm.

(** X1. The timeout scan looks at every other pending entry, from the
    first one on, as long as the entry it looks at has timed out: it fails
    the futures of exactly those entries, each with [TimeoutException(5.0)],
    and removes as many entries from the head of the list; the clock is read
    once and nothing else changes. *)
Theorem X1_timeout_scan_in_closed_form :
  forall s : SorterThread.t,
    let cur := SorterThread.clock s (SorterThread.ticks s) in
    let failed := scan_failed cur (SorterThread.futures s) in
    SorterThread._check_timeout s
    = (inr tt,
       SorterThread.mk (SorterThread._queue s)
         (drop (length failed) (SorterThread.futures s))
         (SorterThread.trace s ++ map timeout_failure failed)
         (SorterThread.clock s) (S (SorterThread.ticks s))).
Proof.
  intros s cur failed. rewrite check_timeout_eq.
  pose proof (check_timeout_loop_closed_form cur 0 (SorterThread.futures s)) as H.
  cbn zeta in H. rewrite drop_0 in H. fold cur. rewrite H. done.
Qed.

(** X2. When every pending entry has timed out, the scan of [n] entries
    fails the futures of the entries at the even positions only and leaves
    the last [n / 2] entries pending, whether their future has just been
    failed or not: the entries at the odd positions are never failed, those
    among the first [n - n / 2] are removed all the same. *)
Theorem X2_timeout_scan_of_stale_entries :
  forall (cur : float) (futures : list Pending),
    Forall (fun p => SorterThread.timed_out cur (pending_timestamp p) = true) futures ->
    SorterThread.check_timeout_loop cur 0 futures
    = (drop (length futures - length futures / 2) futures,
       map timeout_failure (every_other futures)).
Proof.
  intros cur futures Hall.
  pose proof (check_timeout_loop_closed_form cur 0 futures) as H.
  cbn zeta in H. rewrite drop_0 in H. rewrite H. clear H.
  assert (Hlead : forall l : list Pending,
            Forall (fun p => SorterThread.timed_out cur (pending_timestamp p) = true) l ->
            leading (fun p => SorterThread.timed_out cur (pending_timestamp p)) l = l).
  { induction 1 as [|p l Hp _ IH]; [done|]. cbn [leading]. by rewrite Hp, IH. }
  assert (Hsub : forall l : list Pending,
            Forall (fun p => SorterThread.timed_out cur (pending_timestamp p) = true) l ->
            Forall (fun p => SorterThread.timed_out cur (pending_timestamp p) = true)
                   (every_other l)
            /\ length (every_other l) = (length l - length l / 2)%nat).
  { intros l. induction l as [l IH] using (induction_ltof1 _ (@length _)).
    unfold ltof in IH. destruct l as [|x [|y l]]; intros Hl.
    - by split.
    - by split.
    - inversion Hl as [|? ? Hx Hl1]; subst. inversion Hl1 as [|? ? Hy Hl2]; subst.
      destruct (IH l) as [IH1 IH2]; [simpl; lia|done|].
      cbn [every_other length]. split; [by constructor|].
      rewrite IH2.
      replace (S (S (length l))) with (length l + 1 * 2)%nat by lia.
      rewrite Nat.div_add by lia.
      assert (length l / 2 <= length l)%nat
        by (apply Nat.Div0.div_le_upper_bound; lia).
      lia. }
  destruct (Hsub futures Hall) as [Hev Hlen].
  unfold scan_failed. by rewrite (Hlead _ Hev), Hlen.
Qed.

Lemma X2_timeout_scan_witness :
  SorterThread.check_timeout_loop 200%float 0
    (SorterThread.futures (Sample.three_pending Sample.steady_clock))
  = ([(2, Sample.create_c, Sample.future2, 100%float)],
     [timeout_failure (0, Sample.create_a, Sample.future0, 100%float);
      timeout_failure (2, Sample.create_c, Sample.future2, 100%float)]).
Proof.
  rewrite (X2_timeout_scan_of_stale_entries 200%float
             (SorterThread.futures (Sample.three_pending Sample.steady_clock))).
  - vm_compute. reflexivity.
  - vm_compute. repeat constructor.
Defined.

(** ** The watch registry: registering, fetching, notifying *)

Section RegistryFacts.
Import EventQueue.

Lemma replace_or_append_elem watch bucket : watch ∈ replace_or_append watch bucket.
Proof.
  induction bucket as [|w bucket IH]; cbn [replace_or_append]; [left|].
  destruct (decide (watch_type w = watch_type watch)); [left|by right].
Qed.

Lemma replace_or_append_idemp watch bucket :
  replace_or_append watch (replace_or_append watch bucket)
  = replace_or_append watch bucket.
Proof.
  induction bucket as [|w bucket IH]; cbn [replace_or_append].
  - by rewrite decide_True.
  - destruct (decide (watch_type w = watch_type watch)) as [Heq|Hne];
      cbn [replace_or_append].
    + by rewrite decide_True.
    + by rewrite decide_False, IH.
Qed.

Lemma notification_loop_other_event result h idx rest q :
  n_watch_event result <> NODE_DATA_CHANGED ->
  notification_loop result h idx rest q
  = warn (ignoring_msg (n_watch_event result) (n_path result)) q.
Proof.
  intros Hne. revert idx. induction rest as [|w rest IH]; intros idx;
    cbn [notification_loop]; [done|].
  by rewrite decide_False.
Qed.

Lemma bucket_after_idemp paths observed p (bucket : option (list Watch)) :
  (bucket ≫= bucket_after paths observed p) ≫= bucket_after paths observed p
  = bucket ≫= bucket_after paths observed p.
Proof.
  destruct bucket as [b|]; [|done]. cbn. unfold bucket_after at 2 3.
  destruct (decide (p ∈ paths /\ Forall (older observed) b)) as [Hall|Hn]; [done|].
  cbn. unfold bucket_after. by rewrite decide_False.
Qed.

End RegistryFacts.

(** X3. Registering and fetching. On a queue that is not closing,
    [get_watches] for the key of a path, right after [add_watch] of [watch]
    for that path, returns the older watches of the bucket, [watch] among
    them exactly when its timestamp is below the observed one; when the
    whole bucket is older the path is no longer watched afterwards. *)
Theorem X3_add_watch_then_get_watches :
  forall (q : EventQueue.t) (p : string) (watch : Watch) (observed : Z),
    EventQueue._closing q = false ->
    let key := MD5.hexdigest p in
    let bucket := replace_or_append watch (default [] (EventQueue._watches q !! key)) in
    exists q',
      EventQueue.get_watches [key] observed (EventQueue.add_watch p watch q).2
      = (inr (filter (older observed) bucket), q')
      /\ (watch ∈ filter (older observed) bucket <-> timestamp watch < observed)
      /\ EventQueue._watches q' !! key
         = (if decide (Forall (older observed) bucket) then None else Some bucket)
      /\ EventQueue._queue q' = EventQueue._queue q.
Proof.
  intros q p watch observed Hc key bucket.
  rewrite (add_watch_open p watch q Hc). cbn [snd]. fold key. fold bucket.
  rewrite get_watches_open by done.
  cbn [EventQueue._watches EventQueue._queue EventQueue._log EventQueue.set_watches
       fold_left].
  rewrite get_watches_outer_eq, lookup_insert_eq.
  change (default [] (Some bucket)) with bucket.
  eexists. split; [reflexivity|]. cbn [snd EventQueue._watches EventQueue._queue].
  split; [|split; [|done]].
  - rewrite list_elem_of_filter. split; [by intros [? _]|].
    intros Hlt. split; [done|]. apply replace_or_append_elem.
  - destruct (decide (Forall (older observed) bucket)).
    + by rewrite lookup_delete_eq.
    + by rewrite lookup_insert_eq.
Qed.

Lemma X3_add_watch_then_get_watches_witness :
  exists q',
    EventQueue.get_watches [MD5.hexdigest "/x"] 20
      (EventQueue.add_watch "/x" Sample.newer_data_watch Sample.two_watches).2
    = (inr [Sample.exists_watch], q')
    /\ EventQueue._watches q' !! MD5.hexdigest "/x"
       = Some [Sample.exists_watch; Sample.newer_data_watch].
Proof.
  destruct (X3_add_watch_then_get_watches Sample.two_watches "/x"
              Sample.newer_data_watch 20 eq_refl) as (q' & Hget & _ & Hreg & _).
  exists q'. split.
  - rewrite Hget. vm_compute. reflexivity.
  - rewrite Hreg. vm_compute. reflexivity.
Defined.

(** X4. Registering the same watch for the same path a second time changes
    nothing: on a queue that is not closing [add_watch] is idempotent. It
    never touches the queued items, the log, the closing flag or the bucket
    of another key. *)
Theorem X4_add_watch_is_idempotent :
  forall (q : EventQueue.t) (p : string) (watch : Watch),
    EventQueue._closing q = false ->
    let q1 := (EventQueue.add_watch p watch q).2 in
    EventQueue.add_watch p watch q1 = (inr tt, q1)
    /\ EventQueue._queue q1 = EventQueue._queue q
    /\ EventQueue._log q1 = EventQueue._log q
    /\ EventQueue._closing q1 = false
    /\ forall key, key <> MD5.hexdigest p ->
         EventQueue._watches q1 !! key = EventQueue._watches q !! key.
Proof.
  intros q p watch Hc q1. subst q1. rewrite (add_watch_open p watch q Hc). cbn [snd].
  split; [|split; [done|split; [done|split; [done|]]]].
  - rewrite add_watch_open by done. f_equal.
    unfold EventQueue.set_watches.
    cbn [EventQueue._queue EventQueue._watches EventQueue._closing EventQueue._log].
    rewrite lookup_insert_eq. change (default [] (Some ?b)) with b.
    by rewrite replace_or_append_idemp, insert_insert_eq.
  - intros key Hkey. cbn [EventQueue.set_watches EventQueue._watches].
    by rewrite lookup_insert_ne.
Qed.

Lemma X4_add_watch_witness :
  EventQueue.add_watch "/x" Sample.data_watch Sample.two_watches
  = (inr tt, Sample.two_watches).
Proof.
  destruct (X4_add_watch_is_idempotent Sample.one_watch "/x" Sample.data_watch eq_refl)
    as [Hidem _].
  exact Hidem.
Defined.

(** X5. A watch notification of any event type other than
    NODE_DATA_CHANGED is never promoted: on a queue that is not closing,
    whatever watches are registered for the path, [add_watch_notification]
    only writes the warning to the log; the queued items and the registry
    stay as they are. *)
Theorem X5_other_event_types_are_only_logged :
  forall (q : EventQueue.t) (result : Notification),
    EventQueue._closing q = false ->
    n_watch_event result <> NODE_DATA_CHANGED ->
    EventQueue.add_watch_notification result q
    = (inr tt,
       EventQueue.mk (EventQueue._queue q) (EventQueue._watches q) false
         (EventQueue._log q
          ++ [EventQueue.ignoring_msg (n_watch_event result) (n_path result)])).
Proof.
  intros q result Hc Hne. unfold EventQueue.add_watch_notification.
  rewrite closing_guard, Hc. py_unfold.
  assert (Hwarn : EventQueue.warn
                    (EventQueue.ignoring_msg (n_watch_event result) (n_path result)) q
                  = (inr tt,
                     EventQueue.mk (EventQueue._queue q) (EventQueue._watches q) false
                       (EventQueue._log q
                        ++ [EventQueue.ignoring_msg (n_watch_event result)
                                                    (n_path result)])))
    by (unfold EventQueue.warn, modify; by rewrite Hc).
  destruct (EventQueue._watches q !! MD5.hexdigest (n_path result)) as [[|w ws]|];
    [done| |done].
  by rewrite notification_loop_other_event.
Qed.

Lemma X5_other_event_types_witness :
  EventQueue.add_watch_notification (mkNotification "/x" NODE_DELETED 7)
                                    Sample.two_watches
  = (inr tt,
     EventQueue.mk [] (EventQueue._watches Sample.two_watches) false
       ["Ignoring unknown watch notification for even WatchEventType.NODE_DELETED on path /x"%string]).
Proof.
  rewrite (X5_other_event_types_are_only_logged Sample.two_watches
             (mkNotification "/x" NODE_DELETED 7) eq_refl); [reflexivity|].
  discriminate.
Defined.

(** X6. Fetching again. After a [get_watches] on a queue that is not
    closing, the same call again leaves the registry as the first call left
    it, and returns once more the older watches of the buckets that the
    first call did not remove, those holding a watch that is not older:
    such watches are handed out by every call. *)
Theorem X6_get_watches_again :
  forall (q : EventQueue.t) (paths : list string) (observed : Z),
    EventQueue._closing q = false ->
    let q1 := (EventQueue.get_watches paths observed q).2 in
    exists again,
      EventQueue.get_watches paths observed q1 = (inr again, q1)
      /\ forall w,
           w ∈ again <->
           exists p bucket,
             p ∈ paths /\ EventQueue._watches q !! p = Some bucket
             /\ w ∈ bucket /\ timestamp w < observed
             /\ ~ Forall (older observed) bucket.
Proof.
  intros q paths observed Hc q1. subst q1.
  rewrite (get_watches_open paths observed q Hc). cbn [snd].
  rewrite get_watches_open by done.
  cbn [EventQueue._queue EventQueue._watches EventQueue._log].
  eexists. split.
  - f_equal. f_equal. apply map_eq. intros p.
    rewrite !get_watches_fold_registry. apply bucket_after_idemp.
  - intros w. rewrite get_watches_fold_elem. split.
    + intros [Hin|(p & b & Hp & Hb & Hw & Hold)]; [by apply not_elem_of_nil in Hin|].
      rewrite get_watches_fold_registry in Hb.
      destruct (EventQueue._watches q !! p) as [b0|] eqn:Hb0; [|done].
      cbn in Hb. unfold bucket_after in Hb.
      destruct (decide (p ∈ paths /\ Forall (older observed) b0)) as [|Hn]; [done|].
      injection Hb as <-. exists p, b0. repeat split; try done.
      intros Hall. by apply Hn.
    + intros (p & b & Hp & Hb & Hw & Hold & Hn). right. exists p, b.
      repeat split; try done. rewrite get_watches_fold_registry, Hb. cbn.
      unfold bucket_after. rewrite decide_False; [done|]. by intros [_ ?].
Qed.

Lemma X6_get_watches_again_witness :
  exists again,
    EventQueue.get_watches [MD5.hexdigest "/x"] 20
      (EventQueue.get_watches [MD5.hexdigest "/x"] 20
         (SorterThread._queue (Sample.direct_read Sample.node_x))).2
    = (inr again,
       (EventQueue.get_watches [MD5.hexdigest "/x"] 20
          (SorterThread._queue (Sample.direct_read Sample.node_x))).2)
    /\ Sample.data_watch ∈ again.
Proof.
  destruct (X6_get_watches_again
              (SorterThread._queue (Sample.direct_read Sample.node_x))
              [MD5.hexdigest "/x"] 20 eq_refl) as (again & Hget & Hin).
  exists again. split; [exact Hget|]. apply Hin.
  exists (MD5.hexdigest "/x"), [Sample.data_watch; Sample.newer_exists_watch].
  split; [left|]. split; [vm_compute; reflexivity|]. split; [left|].
  split; [vm_compute; reflexivity|].
  intros Hall. apply Forall_cons in Hall as [_ Hall].
  apply Forall_cons in Hall as [Hnew _]. unfold older in Hnew. vm_compute in Hnew.
  discriminate Hnew.
Defined.

(** ** The sorter: notifications, malformed replies, a closing queue *)

Section SorterEdges.
Import SorterThread.

Lemma deliveries_app tr1 tr2 :
  deliveries (tr1 ++ tr2) = deliveries tr1 ++ deliveries tr2.
Proof. apply omap_app. Qed.

Lemma deliveries_timeout_failures l : deliveries (map timeout_failure l) = [].
Proof. by induction l. Qed.

Lemma check_timeout_deliveries s :
  deliveries (trace (_check_timeout s).2) = deliveries (trace s).
Proof.
  rewrite check_timeout_eq. cbn [snd trace].
  pose proof (check_timeout_loop_closed_form (clock s (ticks s)) 0 (futures s)) as H.
  cbn zeta in H. rewrite H. cbn [snd].
  by rewrite deliveries_app, deliveries_timeout_failures, app_nil_r.
Qed.

Lemma check_timeout_queue s : _queue (_check_timeout s).2 = _queue s.
Proof. by rewrite check_timeout_eq. Qed.

Lemma py_split_no_sep sep s :
  sep ∉ list_ascii_of_string s -> py_split sep s = [s].
Proof.
  induction s as [|c s IH]; [done|]. cbn [list_ascii_of_string py_split].
  intros Hnotin. apply not_elem_of_cons in Hnotin as [Hne Hnotin].
  destruct (Ascii.eqb_spec c sep) as [->|_]; [done|]. by rewrite IH.
Qed.

Lemma run_other c schedule s :
  run (Other c :: schedule) s
  = run schedule
        (mk (EventQueue.perform c (_queue s)).2 (futures s) (trace s) (clock s) (ticks s)).
Proof.
  cbn [run]. f_equal. unfold on_queue.
  by destruct (EventQueue.perform c (_queue s)) as [r q'].
Qed.

Lemma run_poll schedule s s' :
  run_iteration s = (inr tt, s') -> run (Poll :: schedule) s = run schedule s'.
Proof. intros Hrun. cbn [run]. by rewrite Hrun. Qed.

Lemma check_timeout_returns s : _check_timeout s = (inr tt, (_check_timeout s).2).
Proof. by rewrite check_timeout_eq. Qed.

End SorterEdges.

(** X7. A GET_DATA watch that is the only watch of its path fires once.
    With the event queue empty and not closing: the first NODE_DATA_CHANGED
    notification for the path makes the next round of the sorter call
    [generate_message] on the watch with the event of the notification; the
    bucket of the path is left empty, and a further notification for the
    path, of any kind, only adds a warning to the log: no second call is
    made. *)
Theorem X7_a_lone_data_watch_fires_once :
  forall (s : SorterThread.t) (p : string) (w : Watch) (ts : Z) (second : Notification),
    EventQueue._queue (SorterThread._queue s) = [] ->
    EventQueue._closing (SorterThread._queue s) = false ->
    EventQueue._watches (SorterThread._queue s) !! MD5.hexdigest p = Some [w] ->
    watch_type w = GET_DATA ->
    n_path second = p ->
    let first := mkNotification p NODE_DATA_CHANGED ts in
    let s' :=
      (SorterThread.run
         [SorterThread.Other (EventQueue.AddWatchNotification first);
          SorterThread.Poll;
          SorterThread.Other (EventQueue.AddWatchNotification second);
          SorterThread.Poll] s).2 in
    deliveries (SorterThread.trace s')
    = deliveries (SorterThread.trace s)
      ++ [(w, mkWatchedEvent NODE_DATA_CHANGED p ts)]
    /\ EventQueue._watches (SorterThread._queue s') !! MD5.hexdigest p = Some []
    /\ EventQueue._queue (SorterThread._queue s') = []
    /\ EventQueue._log (SorterThread._queue s')
       = EventQueue._log (SorterThread._queue s)
         ++ [EventQueue.ignoring_msg (n_watch_event second) p].
Proof.
  intros s p w ts second Hq Hc Hb Hty Hp first s'. subst s' first.
  (* the first notification *)
  rewrite run_other, perform_state.
  rewrite (add_watch_notification_first_watch _ p ts w [] Hc Hb).
  rewrite decide_True by done. cbn [snd]. rewrite Hq. cbn [app].
  (* the round that delivers it *)
  set (s1 := SorterThread.mk _ _ _ _ _).
  assert (Hrun1 : SorterThread.run_iteration s1
                  = (inr tt, (SorterThread.run_iteration s1).2)).
  { rewrite run_iteration_eq. subst s1. cbn [SorterThread._queue EventQueue._queue].
    apply check_timeout_returns. }
  rewrite (run_poll _ _ _ Hrun1).
  set (s2 := (SorterThread.run_iteration s1).2).
  assert (Hs2 : deliveries (SorterThread.trace s2)
                = deliveries (SorterThread.trace s)
                  ++ [(w, mkWatchedEvent NODE_DATA_CHANGED p ts)]
                /\ SorterThread._queue s2
                   = EventQueue.mk []
                       (alter (delete 0%nat) (MD5.hexdigest p)
                              (EventQueue._watches (SorterThread._queue s)))
                       false (EventQueue._log (SorterThread._queue s))).
  { subst s2. rewrite run_iteration_eq. subst s1.
    cbn [SorterThread._queue EventQueue._queue].
    rewrite check_timeout_deliveries, check_timeout_queue.
    cbn [SorterThread.trace SorterThread._queue EventQueue.set_queue
         EventQueue._queue EventQueue._watches EventQueue._closing EventQueue._log].
    by rewrite deliveries_app. }
  destruct Hs2 as [Hdel2 Hq2].
  (* the second notification *)
  rewrite run_other, perform_state, Hq2.
  assert (Hempty : alter (delete 0%nat) (MD5.hexdigest p)
                         (EventQueue._watches (SorterThread._queue s))
                   !! MD5.hexdigest p = Some []).
  { by rewrite lookup_alter_eq, Hb. }
  assert (Hsecond : EventQueue.add_watch_notification second
                      (EventQueue.mk []
                         (alter (delete 0%nat) (MD5.hexdigest p)
                                (EventQueue._watches (SorterThread._queue s)))
                         false (EventQueue._log (SorterThread._queue s)))
                    = (inr tt,
                       EventQueue.mk []
                         (alter (delete 0%nat) (MD5.hexdigest p)
                                (EventQueue._watches (SorterThread._queue s)))
                         false
                         (EventQueue._log (SorterThread._queue s)
                          ++ [EventQueue.ignoring_msg (n_watch_event second) p]))).
  { unfold EventQueue.add_watch_notification. rewrite closing_guard.
    cbn [EventQueue._closing]. py_unfold. cbn [EventQueue._watches].
    rewrite Hp, Hempty. reflexivity. }
  rewrite Hsecond. cbn [snd].
  (* the last round *)
  set (s3 := SorterThread.mk _ _ _ _ _).
  assert (Hrun3 : SorterThread.run_iteration s3 = SorterThread._check_timeout s3).
  { rewrite run_iteration_eq. by subst s3. }
  rewrite (run_poll [] s3 (SorterThread._check_timeout s3).2)
    by (rewrite Hrun3; apply check_timeout_returns).
  cbn [SorterThread.run snd].
  rewrite check_timeout_deliveries, check_timeout_queue. subst s3.
  cbn [SorterThread.trace SorterThread._queue EventQueue._queue EventQueue._watches
       EventQueue._log].
  by rewrite Hdel2, Hempty.
Qed.

Lemma X7_a_lone_data_watch_witness :
  deliveries
    (SorterThread.trace
       (SorterThread.run
          [SorterThread.Other
             (EventQueue.AddWatchNotification (mkNotification "/x" NODE_DATA_CHANGED 7));
           SorterThread.Poll;
           SorterThread.Other
             (EventQueue.AddWatchNotification (mkNotification "/x" NODE_DATA_CHANGED 8));
           SorterThread.Poll] Sample.lone_watch).2)
  = [(Sample.data_watch, mkWatchedEvent NODE_DATA_CHANGED "/x" 7)].
Proof.
  destruct (X7_a_lone_data_watch_fires_once Sample.lone_watch "/x" Sample.data_watch 7
              (mkNotification "/x" NODE_DATA_CHANGED 8)
              eq_refl eq_refl eq_refl eq_refl eq_refl) as [Hdel _].
  exact Hdel.
Defined.

(** X8. A message forwarded as an indirect result that the sorter cannot
    read ends the round with an exception, the message consumed, the
    pending list and the trace untouched, so that no future is completed:
    [KeyError] when it has no ["event"] field, [AttributeError] when the
    field is not a string, [IndexError] when the string has no ['-'], and
    [ValueError] when what follows the first ['-'] is not an integer. *)
Theorem X8_unreadable_indirect_result :
  forall (s : SorterThread.t) (reply : PyDict) (items : list Event),
    EventQueue._queue (SorterThread._queue s) = CLOUD_INDIRECT_RESULT reply :: items ->
    let raises e :=
      SorterThread.run_iteration s
      = (inl e,
         SorterThread.mk
           (EventQueue.set_queue (fun _ => items) (SorterThread._queue s))
           (SorterThread.futures s) (SorterThread.trace s)
           (SorterThread.clock s) (SorterThread.ticks s)) in
    (reply !! "event" = None -> raises (KeyError "event"))
    /\ (reply !! "event" = Some PyNone -> raises AttributeError)
    /\ (forall n, reply !! "event" = Some (PyInt n) -> raises AttributeError)
    /\ (forall event,
          reply !! "event" = Some (PyStr event) ->
          "-"%char ∉ list_ascii_of_string event ->
          raises IndexError)
    /\ (forall event local_idx,
          reply !! "event" = Some (PyStr event) ->
          py_split "-" event !! 1%nat = Some local_idx ->
          py_int local_idx = None ->
          raises ValueError).
Proof.
  intros s reply items Hq raises. subst raises. cbn beta.
  rewrite run_iteration_eq, Hq, indirect_result_eq.
  unfold SorterThread.parse_req_id.
  split; [|split; [|split; [|split]]].
  - by intros ->.
  - by intros ->.
  - by intros n ->.
  - intros event -> Hdash. by rewrite (py_split_no_sep _ _ Hdash).
  - intros event idx -> -> Hint. by rewrite Hint.
Qed.

Lemma X8_unreadable_indirect_result_witness :
  (SorterThread.run_iteration Sample.stray_message).1 = inl (KeyError "event")
  /\ SorterThread.futures (SorterThread.run_iteration Sample.stray_message).2
     = SorterThread.futures (Sample.two_pending Sample.steady_clock)
  /\ (SorterThread.run_iteration (Sample.reply_arrives "one")).1 = inl ValueError.
Proof.
  destruct (X8_unreadable_indirect_result Sample.stray_message
              {["status" := PyStr "success"]} [] eq_refl) as (Hkey & _).
  destruct (X8_unreadable_indirect_result (Sample.reply_arrives "one")
              (Sample.reply "one") [] eq_refl) as (_ & _ & _ & _ & Hvalue).
  rewrite (Hkey eq_refl).
  rewrite (Hvalue "5f2c1a9e-one"%string "one"%string eq_refl eq_refl eq_refl).
  vm_compute. repeat split.
Defined.

(** X9. Once the event queue is closing, a direct result that carries a
    [Node] ends the round of the sorter with [SessionClosingException],
    raised by [get_watches]: its future is not completed and no watch is
    fired. A direct result that is [None], an exception or another value
    still completes its future. *)
Theorem X9_direct_result_on_a_closing_queue :
  forall (s : SorterThread.t) (request_id : Z) (result : DirectResult)
         (future : Future) (items : list Event),
    EventQueue._queue (SorterThread._queue s)
      = CLOUD_DIRECT_RESULT request_id result future :: items ->
    EventQueue._closing (SorterThread._queue s) = true ->
    let polled := EventQueue.set_queue (fun _ => items) (SorterThread._queue s) in
    SorterThread.run_iteration s
    = match result with
      | ResNode _ =>
          (inl SessionClosingException,
           SorterThread.mk polled (SorterThread.futures s) (SorterThread.trace s)
                           (SorterThread.clock s) (SorterThread.ticks s))
      | ResException e =>
          (inr tt,
           SorterThread.mk polled (SorterThread.futures s)
                           (SorterThread.trace s ++ [SetException future e])
                           (SorterThread.clock s) (SorterThread.ticks s))
      | _ =>
          (inr tt,
           SorterThread.mk polled (SorterThread.futures s)
                           (SorterThread.trace s ++ [SetResult future result])
                           (SorterThread.clock s) (SorterThread.ticks s))
      end.
Proof.
  intros s request_id result future items Hq Hc polled.
  rewrite run_iteration_eq, Hq. destruct result as [|node|e|v]; try done.
  by rewrite direct_result_node_closing.
Qed.

Lemma X9_direct_result_on_a_closing_queue_witness :
  (SorterThread.run_iteration Sample.closed_before_read).1 = inl SessionClosingException
  /\ SorterThread.trace (SorterThread.run_iteration Sample.closed_before_read).2 = [].
Proof.
  rewrite (X9_direct_result_on_a_closing_queue Sample.closed_before_read 0
             (ResNode Sample.node_x) Sample.future0 [] eq_refl eq_refl).
  split; reflexivity.
Defined.

(** ** Request ids: what the submitter sends and what the sorter parses *)

Section RequestIds.

Lemma digit_cases d : 0 <= d < 10 ->
  d = 0 \/ d = 1 \/ d = 2 \/ d = 3 \/ d = 4 \/ d = 5 \/ d = 6 \/ d = 7 \/ d = 8 \/ d = 9.
Proof. lia. Qed.

Lemma digit_value_char d : 0 <= d < 10 -> digit_value (digit_char d) = Some d.
Proof.
  intros Hd. destruct (digit_cases d Hd) as [->|[->|[->|[->|[->|[->|[->|[->|[->| ->]]]]]]]]];
    reflexivity.
Qed.

Lemma digit_char_plain d : 0 <= d < 10 ->
  is_space (digit_char d) = false
  /\ digit_char d <> "-"%char /\ digit_char d <> "+"%char.
Proof.
  intros Hd. destruct (digit_cases d Hd) as [->|[->|[->|[->|[->|[->|[->|[->|[->| ->]]]]]]]]];
    by repeat split.
Qed.

Lemma parse_digits_all_digits l acc after_digit :
  all_digits l -> l <> [] ->
  parse_digits acc after_digit l
  = Some (fold_left (fun a c => 10 * a + default 0 (digit_value c)) l acc).
Proof.
  intros Hl. revert acc after_digit.
  induction Hl as [|c l (d & Hd & ->) Hl IH]; intros acc b Hne; [done|].
  cbn [parse_digits fold_left]. rewrite (digit_value_char d Hd). cbn [default from_option].
  destruct l as [|c' l']; [done|]. by apply IH.
Qed.

Lemma decimal_digits_spec fuel n :
  0 <= n < 10 ^ Z.of_nat (S fuel) ->
  all_digits (decimal_digits (S fuel) n)
  /\ decimal_digits (S fuel) n <> []
  /\ fold_left (fun a c => 10 * a + default 0 (digit_value c))
               (decimal_digits (S fuel) n) 0
     = n.
Proof.
  revert n. induction fuel as [|fuel IH]; intros n Hn.
  - assert (Hlt : n < 10) by (change (10 ^ Z.of_nat 1) with 10 in Hn; lia).
    cbn [decimal_digits]. destruct (Z.ltb_spec n 10) as [_|Hge]; [|lia].
    repeat split.
    + constructor; [|constructor]. exists n. split; [lia|done].
    + done.
    + cbn [fold_left]. rewrite digit_value_char by lia. cbn. lia.
  - remember (S fuel) as fuel' eqn:Hfuel. cbn [decimal_digits].
    destruct (Z.ltb_spec n 10) as [Hlt|Hge].
    + repeat split.
      * constructor; [|constructor]. exists n. split; [lia|done].
      * done.
      * cbn [fold_left]. rewrite digit_value_char by lia. cbn. lia.
    + assert (Hdiv : 0 <= n / 10 < 10 ^ Z.of_nat fuel').
      { split; [apply Z.div_pos; lia|].
        apply Z.div_lt_upper_bound; [lia|].
        rewrite Nat2Z.inj_succ, Z.pow_succ_r in Hn by lia. lia. }
      destruct (IH _ Hdiv) as (Hall & Hne & Hval).
      assert (Hmod : 0 <= n mod 10 < 10) by (apply Z.mod_pos_bound; lia).
      repeat split.
      * apply Forall_app. split; [done|]. constructor; [|constructor].
        exists (n mod 10). by split.
      * by destruct (decimal_digits fuel' (n / 10)).
      * rewrite fold_left_app, Hval. cbn [fold_left].
        rewrite digit_value_char by done. cbn [default from_option].
        pose proof (Z.div_mod n 10). unfold id. lia.
Qed.

Lemma decimal_spec n :
  0 <= n ->
  all_digits (decimal n) /\ decimal n <> []
  /\ fold_left (fun a c => 10 * a + default 0 (digit_value c)) (decimal n) 0 = n.
Proof.
  intros Hn. unfold decimal. apply decimal_digits_spec. split; [done|].
  rewrite Nat2Z.inj_succ, Z2Nat.id by apply Z.log2_nonneg.
  destruct (decide (n = 0)) as [->|Hnz]; [done|].
  pose proof (Z.log2_spec n ltac:(lia)) as [_ Hlog].
  eapply Z.lt_le_trans; [exact Hlog|].
  apply Z.pow_le_mono_l. lia.
Qed.

Lemma lstrip_plain c l : is_space c = false -> lstrip (c :: l) = c :: l.
Proof. intros Hc. cbn [lstrip]. by rewrite Hc. Qed.

Lemma strip_plain l :
  Forall (fun c => is_space c = false) l -> strip l = l.
Proof.
  intros Hl. unfold strip.
  assert (Hls : forall k, Forall (fun c => is_space c = false) k -> lstrip k = k).
  { intros k Hk. destruct Hk as [|c k Hc _]; [done|]. by apply lstrip_plain. }
  rewrite (Hls l Hl), Hls, rev_involutive; [done|]. by apply List.Forall_rev.
Qed.

Lemma all_digits_plain l :
  all_digits l ->
  Forall (fun c => is_space c = false) l /\ "-"%char ∉ l.
Proof.
  induction 1 as [|c l (d & Hd & ->) _ [IH1 IH2]]; [split; [done|apply not_elem_of_nil]|].
  destruct (digit_char_plain d Hd) as (Hsp & Hm & _).
  split; [by constructor|]. apply not_elem_of_cons. by split.
Qed.

Lemma code_points_plain l :
  Forall (fun c => byte_value c < 127) l -> code_points l = Some (map byte_value l).
Proof.
  induction 1 as [|c l Hc _ IH]; [done|].
  cbn [code_points map]. destruct (Z.ltb_spec (byte_value c) 0x80) as [_|Hge]; [|lia].
  by rewrite IH.
Qed.

Lemma ascii_of_code_points_plain l :
  Forall (fun c => byte_value c < 127) l ->
  ascii_of_code_points (map byte_value l) = Some l.
Proof.
  induction 1 as [|c l Hc _ IH]; [done|].
  cbn [ascii_of_code_points map]. unfold ascii_of_code_point.
  destruct (Z.ltb_spec (byte_value c) 127) as [_|Hge]; [|lia].
  cbv beta iota. fold (map byte_value l). rewrite IH.
  unfold byte_value. by rewrite N2Z.id, ascii_N_embedding.
Qed.

(** On ASCII text [int] reads the characters as they are. *)
Lemma py_int_plain l :
  Forall (fun c => byte_value c < 127) l ->
  py_int (string_of_list_ascii l) = int_of_ascii l.
Proof.
  intros Hl. unfold py_int. rewrite list_ascii_of_string_of_list_ascii.
  rewrite code_points_plain by done. cbv beta iota.
  by rewrite ascii_of_code_points_plain.
Qed.

Lemma all_digits_ascii l :
  all_digits l -> Forall (fun c => byte_value c < 127) l.
Proof.
  induction 1 as [|c l (d & Hd & ->) _ IH]; constructor; [|done].
  destruct (digit_cases d Hd) as [->|[->|[->|[->|[->|[->|[->|[->|[->| ->]]]]]]]]];
    reflexivity.
Qed.

Lemma py_int_all_digits l :
  all_digits l -> l <> [] ->
  py_int (string_of_list_ascii l)
  = Some (fold_left (fun a c => 10 * a + default 0 (digit_value c)) l 0).
Proof.
  intros Hall Hne. rewrite py_int_plain by (by apply all_digits_ascii).
  unfold int_of_ascii.
  destruct (all_digits_plain _ Hall) as [Hsp _]. rewrite strip_plain by done.
  rewrite <- (parse_digits_all_digits l 0 false) by done.
  destruct Hall as [|c l (d & Hd & ->) Hall]; [done|].
  destruct (digit_cases d Hd) as [->|[->|[->|[->|[->|[->|[->|[->|[->| ->]]]]]]]]];
    reflexivity.
Qed.

(** [int(str(n)) == n] *)
Lemma py_int_py_str_int n : py_int (py_str_int n) = Some n.
Proof.
  unfold py_str_int. destruct (Z.ltb_spec n 0) as [Hneg|Hpos].
  - destruct (decimal_spec (- n) ltac:(lia)) as (Hall & Hne & Hval).
    destruct (all_digits_plain _ Hall) as [Hsp _].
    rewrite py_int_plain by (constructor; [reflexivity|by apply all_digits_ascii]).
    unfold int_of_ascii. rewrite strip_plain by (by constructor).
    rewrite parse_digits_all_digits by done. rewrite Hval. cbn. f_equal. lia.
  - destruct (decimal_spec n Hpos) as (Hall & Hne & Hval).
    by rewrite py_int_all_digits, Hval.
Qed.

Lemma string_app_nil (s : string) : "" +:+ s = s.
Proof. reflexivity. Qed.

Lemma string_app_cons c (a s : string) : String c a +:+ s = String c (a +:+ s).
Proof. reflexivity. Qed.

Lemma py_split_app_sep sep a b :
  sep ∉ list_ascii_of_string a ->
  py_split sep (a +:+ String sep b) = a :: py_split sep b.
Proof.
  induction a as [|c a IH]; intros Hnotin.
  - rewrite string_app_nil. cbn [py_split]. by rewrite Ascii.eqb_refl.
  - cbn [list_ascii_of_string] in Hnotin.
    apply not_elem_of_cons in Hnotin as [Hne Hnotin].
    rewrite string_app_cons. cbn [py_split].
    destruct (Ascii.eqb_spec c sep) as [->|_]; [done|]. by rewrite IH.
Qed.

Lemma py_split_head_before_sep sep b x y :
  head (py_split sep (b +:+ String sep x)) = head (py_split sep (b +:+ String sep y)).
Proof.
  induction b as [|c b IH].
  - rewrite !string_app_nil. cbn [py_split]. by rewrite Ascii.eqb_refl.
  - rewrite !string_app_cons. cbn [py_split]. destruct (Ascii.eqb c sep); [done|].
    destruct (py_split sep (b +:+ String sep x)) as [|hx tx];
      destruct (py_split sep (b +:+ String sep y)) as [|hy ty]; cbn in *; congruence.
Qed.

Lemma string_app_assoc (a b c : string) : (a +:+ b) +:+ c = a +:+ (b +:+ c).
Proof.
  induction a as [|x a IH]; [done|]. rewrite !string_app_cons. by rewrite IH.
Qed.

End RequestIds.

Lemma parse_req_id_of_sent_id :
  forall (session_id : string) (req_id : Z) (reply : PyDict),
    0 <= req_id ->
    "-"%char ∉ list_ascii_of_string session_id ->
    SorterThread.parse_req_id
      (<["event" := PyStr (SubmitterThread.request_id_str session_id req_id)]> reply)
    = inr req_id.
Proof.
  intros session_id req_id reply Hpos Hdash.
  unfold SorterThread.parse_req_id, SubmitterThread.request_id_str.
  rewrite lookup_insert_eq.
  change ("-" +:+ py_str_int req_id) with (String "-" (py_str_int req_id)).
  rewrite py_split_app_sep by done.
  rewrite py_split_no_sep.
  - cbn [lookup list_lookup]. by rewrite py_int_py_str_int.
  - unfold py_str_int. destruct (Z.ltb_spec req_id 0) as [|_]; [lia|].
    rewrite list_ascii_of_string_of_list_ascii.
    destruct (decimal_spec req_id Hpos) as (Hall & _ & _).
    by destruct (all_digits_plain _ Hall).
Qed.

(** X10. The request id the submitter sends, [f"{session_id}-{req_id}"],
    parses back to [req_id]: for a session id without ['-'] and a request
    id that is not negative, a reply whose ["event"] field is that string
    gives the sorter the local index [req_id], whatever else the reply
    holds. *)
Theorem X10_sent_request_id_parses_back :
  forall (session_id : string) (req_id : Z) (reply : PyDict),
    0 <= req_id ->
    "-"%char ∉ list_ascii_of_string session_id ->
    SorterThread.parse_req_id
      (<["event" := PyStr (SubmitterThread.request_id_str session_id req_id)]> reply)
    = inr req_id.
Proof.
  intros. eapply parse_req_id_of_sent_id; eassumption.
Qed.

Lemma X10_sent_request_id_witness :
  SorterThread.parse_req_id
    (<["event" := PyStr (SubmitterThread.request_id_str "5f2c1a9e" 12)]>
       {["status" := PyStr "success"]})
  = inr 12.
Proof.
  apply X10_sent_request_id_parses_back.
  - lia.
  - vm_compute. intros Hin.
    repeat (apply elem_of_cons in Hin as [Heq|Hin]; [discriminate Heq|]).
    by apply not_elem_of_nil in Hin.
Defined.

(** X11. With a ['-'] inside the session id the sorter would not read
    the request id at all: what it parses from
    [f"{session_id}-{req_id}"] is then taken from the session id and is the
    same for every request id. *)
Theorem X11_dash_in_session_id_hides_the_request_id :
  forall (before after : string) (req_id req_id' : Z) (reply : PyDict),
    "-"%char ∉ list_ascii_of_string before ->
    let session_id := before +:+ "-" +:+ after in
    SorterThread.parse_req_id
      (<["event" := PyStr (SubmitterThread.request_id_str session_id req_id)]> reply)
    = SorterThread.parse_req_id
        (<["event" := PyStr (SubmitterThread.request_id_str session_id req_id')]> reply).
Proof.
  intros before after req_id req_id' reply Hdash session_id. subst session_id.
  unfold SorterThread.parse_req_id, SubmitterThread.request_id_str.
  rewrite !lookup_insert_eq.
  change ("-" +:+ after) with (String "-" after).
  change ("-" +:+ py_str_int req_id) with (String "-" (py_str_int req_id)).
  change ("-" +:+ py_str_int req_id') with (String "-" (py_str_int req_id')).
  rewrite !string_app_assoc, !string_app_cons.
  rewrite (py_split_app_sep "-" before (after +:+ String "-" (py_str_int req_id)) Hdash).
  rewrite (py_split_app_sep "-" before (after +:+ String "-" (py_str_int req_id')) Hdash).
  pose proof (py_split_head_before_sep "-" after (py_str_int req_id) (py_str_int req_id'))
    as Hhead.
  destruct (py_split "-" (after +:+ String "-" (py_str_int req_id))) as [|h1 t1];
    destruct (py_split "-" (after +:+ String "-" (py_str_int req_id'))) as [|h2 t2];
    cbn in Hhead |- *; try done.
  by simplify_eq.
Qed.

Lemma X11_dash_in_session_id_witness :
  SorterThread.parse_req_id
    (<["event" := PyStr (SubmitterThread.request_id_str "5f2c-7" 3)]> ∅)
  = inr 7
  /\ SorterThread.parse_req_id
       (<["event" := PyStr (SubmitterThread.request_id_str "5f2c-7" 4)]> ∅)
     = inr 7.
Proof.
  assert (Hdash : "-"%char ∉ list_ascii_of_string "5f2c").
  { vm_compute. intros Hin.
    repeat (apply elem_of_cons in Hin as [Heq|Hin]; [discriminate Heq|]).
    by apply not_elem_of_nil in Hin. }
  rewrite <- (X11_dash_in_session_id_hides_the_request_id "5f2c" "7" 3 4 ∅ Hdash).
  split; vm_compute; reflexivity.
Defined.

(** ** The submitter *)

Section SubmitterFacts.
Import SubmitterThread.

Lemma on_event_queue_closing {A} (m : Py EventQueue.t A) s :
  EventQueue._closing (_event_queue s) = true ->
  on_event_queue (EventQueue.check_closing ;; m) s = (inl SessionClosingException, s).
Proof.
  intros Hc. unfold on_event_queue. rewrite closing_guard, Hc. by destruct s.
Qed.

Lemma add_direct_result_open i r f q :
  EventQueue._closing q = false ->
  EventQueue.add_direct_result i r f q
  = (inr tt,
     EventQueue.mk (EventQueue._queue q ++ [CLOUD_DIRECT_RESULT i r f])
                   (EventQueue._watches q) false (EventQueue._log q)).
Proof.
  intros Hc. unfold EventQueue.add_direct_result. rewrite closing_guard, Hc.
  unfold EventQueue.put, modify, EventQueue.set_queue. by rewrite Hc.
Qed.

Lemma add_expected_result_open i r f q :
  EventQueue._closing q = false ->
  EventQueue.add_expected_result i r f q
  = (inr tt,
     EventQueue.mk (EventQueue._queue q ++ [CLOUD_EXPECTED_RESULT i r f])
                   (EventQueue._watches q) false (EventQueue._log q)).
Proof.
  intros Hc. unfold EventQueue.add_expected_result. rewrite closing_guard, Hc.
  unfold EventQueue.put, modify, EventQueue.set_queue. by rewrite Hc.
Qed.

End SubmitterFacts.

Lemma submitter_round_cloud :
  forall (is_cloud_request : Operation -> bool) (reply : SubmitterThread.ProviderReply)
         (s : SubmitterThread.t) (req_id : Z) (request : Operation) (future : Future)
         (items : list (Z * Operation * Future)),
    WorkQueue._queue (SubmitterThread._queue s) = (req_id, request, future) :: items ->
    is_cloud_request request = true ->
    EventQueue._closing (SubmitterThread._event_queue s) = false ->
    let events := SubmitterThread._event_queue s in
    let taken :=
      WorkQueue.mk items (WorkQueue._closing (SubmitterThread._queue s))
                   (WorkQueue._request_count (SubmitterThread._queue s)) in
    let sent :=
      SubmitterThread.provider_calls s
      ++ [SubmitterThread.SendRequest
            (SubmitterThread.request_id_str (SubmitterThread._session_id s) req_id)
            request] in
    let begun :=
      SubmitterThread._log s ++ ["Begin executing operation: " +:+ op_name request] in
    SubmitterThread.run_iteration is_cloud_request reply s
    = (inr tt,
       match reply with
       | SubmitterThread.Returns _ =>
           SubmitterThread.mk (SubmitterThread._session_id s) taken
             (EventQueue.mk
                (EventQueue._queue events
                 ++ [CLOUD_EXPECTED_RESULT req_id request future])
                (EventQueue._watches events) false (EventQueue._log events))
             sent begun
       | SubmitterThread.Raises e =>
           SubmitterThread.mk (SubmitterThread._session_id s) taken
             (EventQueue.mk
                ((EventQueue._queue events
                  ++ [CLOUD_EXPECTED_RESULT req_id request future])
                 ++ [CLOUD_DIRECT_RESULT req_id (ResException e) future])
                (EventQueue._watches events) false (EventQueue._log events))
             sent
             (begun ++ match e with
                       | ProviderException _ => []
                       | _ => ["Finish executing operation: " +:+ op_name request]
                       end)
       end).
Proof.
  intros cloud reply s req_id request future items Hq Hcloud Hc events taken sent begun.
  subst events taken sent begun.
  unfold SubmitterThread.run_iteration. unfold mbind at 1. unfold py_bind.
  unfold SubmitterThread.on_work_queue at 1. unfold WorkQueue.get. rewrite Hq.
  unfold SubmitterThread.try_except at 1. rewrite Hcloud.
  unfold mbind at 1. unfold py_bind. unfold SubmitterThread.info at 1, modify.
  unfold mbind at 1. unfold py_bind. unfold SubmitterThread.on_event_queue at 1.
  cbn [SubmitterThread._event_queue SubmitterThread._session_id SubmitterThread._queue
       SubmitterThread.provider_calls SubmitterThread._log].
  rewrite add_expected_result_open by done.
  unfold mbind at 1. unfold py_bind. unfold get_state.
  unfold SubmitterThread.send_request, SubmitterThread.called.
  cbn [SubmitterThread._event_queue SubmitterThread._session_id SubmitterThread._queue
       SubmitterThread.provider_calls SubmitterThread._log].
  destruct reply as [res|e]; [reflexivity|].
  destruct e; unfold mbind, py_bind, SubmitterThread.on_event_queue, SubmitterThread.info,
    modify;
    cbn [SubmitterThread._event_queue SubmitterThread._session_id SubmitterThread._queue
         SubmitterThread.provider_calls SubmitterThread._log];
    rewrite add_direct_result_open by done;
    cbn [SubmitterThread._event_queue SubmitterThread._session_id SubmitterThread._queue
         SubmitterThread.provider_calls SubmitterThread._log EventQueue._queue
         EventQueue._watches EventQueue._log];
    rewrite ?app_nil_r; reflexivity.
Qed.

(** X12. A cloud request, with the event queue not closing: the round of
    the submitter takes the request from the work queue, puts its
    CLOUD_EXPECTED_RESULT at the end of the event queue and only then calls
    [send_request], with the id [f"{session_id}-{req_id}"]. When that call
    raises, the exception is queued behind it as the CLOUD_DIRECT_RESULT of
    the same request, so that both events of the request are in the queue,
    and the round itself does not raise. *)
Theorem X12_submitter_cloud_request :
  forall (is_cloud_request : Operation -> bool) (reply : SubmitterThread.ProviderReply)
         (s : SubmitterThread.t) (req_id : Z) (request : Operation) (future : Future)
         (items : list (Z * Operation * Future)),
    WorkQueue._queue (SubmitterThread._queue s) = (req_id, request, future) :: items ->
    is_cloud_request request = true ->
    EventQueue._closing (SubmitterThread._event_queue s) = false ->
    let events := SubmitterThread._event_queue s in
    let taken :=
      WorkQueue.mk items (WorkQueue._closing (SubmitterThread._queue s))
                   (WorkQueue._request_count (SubmitterThread._queue s)) in
    let sent :=
      SubmitterThread.provider_calls s
      ++ [SubmitterThread.SendRequest
            (SubmitterThread.request_id_str (SubmitterThread._session_id s) req_id)
            request] in
    let begun :=
      SubmitterThread._log s ++ ["Begin executing operation: " +:+ op_name request] in
    SubmitterThread.run_iteration is_cloud_request reply s
    = (inr tt,
       match reply with
       | SubmitterThread.Returns _ =>
           SubmitterThread.mk (SubmitterThread._session_id s) taken
             (EventQueue.mk
                (EventQueue._queue events
                 ++ [CLOUD_EXPECTED_RESULT req_id request future])
                (EventQueue._watches events) false (EventQueue._log events))
             sent begun
       | SubmitterThread.Raises e =>
           SubmitterThread.mk (SubmitterThread._session_id s) taken
             (EventQueue.mk
                ((EventQueue._queue events
                  ++ [CLOUD_EXPECTED_RESULT req_id request future])
                 ++ [CLOUD_DIRECT_RESULT req_id (ResException e) future])
                (EventQueue._watches events) false (EventQueue._log events))
             sent
             (begun ++ match e with
                       | ProviderException _ => []
                       | _ => ["Finish executing operation: " +:+ op_name request]
                       end)
       end).
Proof.
  intros. eapply submitter_round_cloud; eassumption.
Qed.

Lemma submitter_round_direct :
  forall (is_cloud_request : Operation -> bool) (reply : SubmitterThread.ProviderReply)
         (s : SubmitterThread.t) (req_id : Z) (request : Operation) (future : Future)
         (items : list (Z * Operation * Future)),
    WorkQueue._queue (SubmitterThread._queue s) = (req_id, request, future) :: items ->
    is_cloud_request request = false ->
    EventQueue._closing (SubmitterThread._event_queue s) = false ->
    let events := SubmitterThread._event_queue s in
    let key := MD5.hexdigest (op_path request) in
    let result :=
      match reply with
      | SubmitterThread.Returns (Some (result, _)) => result
      | SubmitterThread.Returns None => ResNone
      | SubmitterThread.Raises e => ResException e
      end in
    let registry :=
      match reply with
      | SubmitterThread.Returns (Some (_, watch)) =>
          <[key := replace_or_append watch
                     (default [] (EventQueue._watches events !! key))]>
            (EventQueue._watches events)
      | _ => EventQueue._watches events
      end in
    SubmitterThread.run_iteration is_cloud_request reply s
    = (inr tt,
       SubmitterThread.mk (SubmitterThread._session_id s)
         (WorkQueue.mk items (WorkQueue._closing (SubmitterThread._queue s))
                       (WorkQueue._request_count (SubmitterThread._queue s)))
         (EventQueue.mk
            (EventQueue._queue events ++ [CLOUD_DIRECT_RESULT req_id result future])
            registry false (EventQueue._log events))
         (SubmitterThread.provider_calls s ++ [SubmitterThread.ExecuteRequest request])
         (SubmitterThread._log s)).
Proof.
  intros cloud reply s req_id request future items Hq Hcloud Hc events key result registry.
  subst events key result registry.
  unfold SubmitterThread.run_iteration. unfold mbind at 1. unfold py_bind.
  unfold SubmitterThread.on_work_queue at 1. unfold WorkQueue.get. rewrite Hq.
  unfold SubmitterThread.try_except. rewrite Hcloud.
  unfold mbind at 1. unfold py_bind.
  unfold SubmitterThread.execute_request, SubmitterThread.called.
  cbn [SubmitterThread._event_queue SubmitterThread._session_id SubmitterThread._queue
       SubmitterThread.provider_calls SubmitterThread._log].
  destruct reply as [[[result watch]|]|e].
  - unfold mbind, py_bind, SubmitterThread.on_event_queue.
    cbn [SubmitterThread._event_queue SubmitterThread._session_id SubmitterThread._queue
         SubmitterThread.provider_calls SubmitterThread._log].
    rewrite add_watch_open by done. rewrite add_direct_result_open by done.
    reflexivity.
  - unfold SubmitterThread.on_event_queue.
    cbn [SubmitterThread._event_queue SubmitterThread._session_id SubmitterThread._queue
         SubmitterThread.provider_calls SubmitterThread._log].
    rewrite add_direct_result_open by done. reflexivity.
  - unfold SubmitterThread.on_event_queue.
    cbn [SubmitterThread._event_queue SubmitterThread._session_id SubmitterThread._queue
         SubmitterThread.provider_calls SubmitterThread._log].
    rewrite add_direct_result_open by done. reflexivity.
Qed.

(** X13. A direct request, with the event queue not closing: the round
    takes the request from the work queue, calls [execute_request] once and
    queues exactly one CLOUD_DIRECT_RESULT for it: the result returned, the
    watch returned with it having first been registered for the path of the
    operation; [None] when the call returned [None]; the exception when it
    raised. The round does not raise and queues no CLOUD_EXPECTED_RESULT. *)
Theorem X13_submitter_direct_request :
  forall (is_cloud_request : Operation -> bool) (reply : SubmitterThread.ProviderReply)
         (s : SubmitterThread.t) (req_id : Z) (request : Operation) (future : Future)
         (items : list (Z * Operation * Future)),
    WorkQueue._queue (SubmitterThread._queue s) = (req_id, request, future) :: items ->
    is_cloud_request request = false ->
    EventQueue._closing (SubmitterThread._event_queue s) = false ->
    let events := SubmitterThread._event_queue s in
    let key := MD5.hexdigest (op_path request) in
    let result :=
      match reply with
      | SubmitterThread.Returns (Some (result, _)) => result
      | SubmitterThread.Returns None => ResNone
      | SubmitterThread.Raises e => ResException e
      end in
    let registry :=
      match reply with
      | SubmitterThread.Returns (Some (_, watch)) =>
          <[key := replace_or_append watch
                     (default [] (EventQueue._watches events !! key))]>
            (EventQueue._watches events)
      | _ => EventQueue._watches events
      end in
    SubmitterThread.run_iteration is_cloud_request reply s
    = (inr tt,
       SubmitterThread.mk (SubmitterThread._session_id s)
         (WorkQueue.mk items (WorkQueue._closing (SubmitterThread._queue s))
                       (WorkQueue._request_count (SubmitterThread._queue s)))
         (EventQueue.mk
            (EventQueue._queue events ++ [CLOUD_DIRECT_RESULT req_id result future])
            registry false (EventQueue._log events))
         (SubmitterThread.provider_calls s ++ [SubmitterThread.ExecuteRequest request])
         (SubmitterThread._log s)).
Proof.
  intros. eapply submitter_round_direct; eassumption.
Qed.

Lemma submitter_round_closing :
  forall (is_cloud_request : Operation -> bool) (reply : SubmitterThread.ProviderReply)
         (s : SubmitterThread.t) (req_id : Z) (request : Operation) (future : Future)
         (items : list (Z * Operation * Future)),
    WorkQueue._queue (SubmitterThread._queue s) = (req_id, request, future) :: items ->
    EventQueue._closing (SubmitterThread._event_queue s) = true ->
    SubmitterThread.run_iteration is_cloud_request reply s
    = (inl SessionClosingException,
       SubmitterThread.mk (SubmitterThread._session_id s)
         (WorkQueue.mk items (WorkQueue._closing (SubmitterThread._queue s))
                       (WorkQueue._request_count (SubmitterThread._queue s)))
         (SubmitterThread._event_queue s)
         (if is_cloud_request request then SubmitterThread.provider_calls s
          else SubmitterThread.provider_calls s
               ++ [SubmitterThread.ExecuteRequest request])
         (if is_cloud_request request
          then SubmitterThread._log s
               ++ ["Begin executing operation: " +:+ op_name request]
          else SubmitterThread._log s)).
Proof.
  intros cloud reply s req_id request future items Hq Hc.
  assert (Hdirect : forall (r : DirectResult) (s0 : SubmitterThread.t),
            EventQueue._closing (SubmitterThread._event_queue s0) = true ->
            SubmitterThread.on_event_queue
              (EventQueue.add_direct_result req_id r future) s0
            = (inl SessionClosingException, s0)).
  { intros r s0 Hc0. by apply on_event_queue_closing. }
  unfold SubmitterThread.run_iteration. unfold mbind at 1. unfold py_bind.
  unfold SubmitterThread.on_work_queue at 1. unfold WorkQueue.get. rewrite Hq.
  unfold SubmitterThread.try_except.
  destruct (cloud request).
  - unfold mbind at 1. unfold py_bind. unfold SubmitterThread.info at 1, modify.
    unfold mbind at 1. unfold py_bind.
    unfold EventQueue.add_expected_result. rewrite on_event_queue_closing by done.
    unfold mbind at 1. unfold py_bind. by rewrite Hdirect.
  - unfold mbind at 1. unfold py_bind.
    unfold SubmitterThread.execute_request, SubmitterThread.called.
    destruct reply as [[[result watch]|]|e].
    + unfold mbind at 1. unfold py_bind.
      unfold EventQueue.add_watch. rewrite on_event_queue_closing by done.
      rewrite Hdirect by done. unfold mbind at 1. unfold py_bind.
      by rewrite Hdirect.
    + rewrite Hdirect by done. rewrite Hdirect by done.
      unfold mbind at 1. unfold py_bind. by rewrite Hdirect.
    + rewrite Hdirect by done. unfold mbind at 1. unfold py_bind. by rewrite Hdirect.
Qed.

(** X14. Once the event queue is closing, a round of the submitter that
    finds a request in the work queue raises [SessionClosingException] out
    of its exception handlers: the request has left the work queue, nothing
    is queued for it, and its future is left without result. For a cloud
    request [send_request] is not called; for a direct request
    [execute_request] has been called all the same. *)
Theorem X14_submitter_on_a_closing_event_queue :
  forall (is_cloud_request : Operation -> bool) (reply : SubmitterThread.ProviderReply)
         (s : SubmitterThread.t) (req_id : Z) (request : Operation) (future : Future)
         (items : list (Z * Operation * Future)),
    WorkQueue._queue (SubmitterThread._queue s) = (req_id, request, future) :: items ->
    EventQueue._closing (SubmitterThread._event_queue s) = true ->
    SubmitterThread.run_iteration is_cloud_request reply s
    = (inl SessionClosingException,
       SubmitterThread.mk (SubmitterThread._session_id s)
         (WorkQueue.mk items (WorkQueue._closing (SubmitterThread._queue s))
                       (WorkQueue._request_count (SubmitterThread._queue s)))
         (SubmitterThread._event_queue s)
         (if is_cloud_request request then SubmitterThread.provider_calls s
          else SubmitterThread.provider_calls s
               ++ [SubmitterThread.ExecuteRequest request])
         (if is_cloud_request request
          then SubmitterThread._log s
               ++ ["Begin executing operation: " +:+ op_name request]
          else SubmitterThread._log s)).
Proof.
  intros. eapply submitter_round_closing; eassumption.
Qed.

Lemma X12_submitter_cloud_request_witness :
  let s' :=
    (SubmitterThread.run_iteration Sample.is_cloud_request
       (SubmitterThread.Raises (ProviderException "throttled"))
       (Sample.submitter_with Sample.create_a EventQueue.init)).2 in
  EventQueue._queue (SubmitterThread._event_queue s')
  = [CLOUD_EXPECTED_RESULT 0 Sample.create_a Sample.future0;
     CLOUD_DIRECT_RESULT 0 (ResException (ProviderException "throttled")) Sample.future0]
  /\ SubmitterThread.provider_calls s'
     = [SubmitterThread.SendRequest "5f2c1a9e-0" Sample.create_a].
Proof.
  intros s'. subst s'.
  rewrite (X12_submitter_cloud_request Sample.is_cloud_request
             (SubmitterThread.Raises (ProviderException "throttled"))
             (Sample.submitter_with Sample.create_a EventQueue.init)
             0 Sample.create_a Sample.future0 [] eq_refl eq_refl eq_refl).
  split; vm_compute; reflexivity.
Defined.

Lemma X13_submitter_direct_request_witness :
  let s' :=
    (SubmitterThread.run_iteration Sample.is_cloud_request
       (SubmitterThread.Returns (Some (ResNode Sample.node_x, Sample.data_watch)))
       (Sample.submitter_with Sample.get_x Sample.one_watch)).2 in
  EventQueue._queue (SubmitterThread._event_queue s')
  = [CLOUD_DIRECT_RESULT 0 (ResNode Sample.node_x) Sample.future0]
  /\ EventQueue._watches (SubmitterThread._event_queue s') !! MD5.hexdigest "/x"
     = Some [Sample.exists_watch; Sample.data_watch].
Proof.
  intros s'. subst s'.
  rewrite (X13_submitter_direct_request Sample.is_cloud_request
             (SubmitterThread.Returns (Some (ResNode Sample.node_x, Sample.data_watch)))
             (Sample.submitter_with Sample.get_x Sample.one_watch)
             0 Sample.get_x Sample.future0 [] eq_refl eq_refl eq_refl).
  split; vm_compute; reflexivity.
Defined.

Lemma X14_submitter_on_a_closing_event_queue_witness :
  SubmitterThread.run_iteration Sample.is_cloud_request
    (SubmitterThread.Returns None)
    (Sample.submitter_with Sample.create_a (EventQueue.close EventQueue.init).2)
  = (inl SessionClosingException,
     SubmitterThread.mk "5f2c1a9e" (WorkQueue.mk [] false 1)
       (EventQueue.close EventQueue.init).2 []
       ["Begin executing operation: create"%string]).
Proof.
  rewrite (X14_submitter_on_a_closing_event_queue Sample.is_cloud_request
             (SubmitterThread.Returns None)
             (Sample.submitter_with Sample.create_a (EventQueue.close EventQueue.init).2)
             0 Sample.create_a Sample.future0 [] eq_refl eq_refl).
  reflexivity.
Defined.

(** ** The session: the order of the request ids *)

Section SessionChain.

Lemma expected_ids_put q e :
  expected_ids (EventQueue.put e q).2
  = expected_ids q
    ++ match e with CLOUD_EXPECTED_RESULT i _ _ => [i] | _ => [] end.
Proof.
  unfold expected_ids, EventQueue.put, modify, EventQueue.set_queue.
  cbn [snd EventQueue._queue]. rewrite omap_app. by destruct e.
Qed.

Lemma expected_ids_notification_loop result h idx rest q :
  expected_ids (EventQueue.notification_loop result h idx rest q).2 = expected_ids q.
Proof.
  revert idx. induction rest as [|w rest IH]; intros idx;
    cbn [EventQueue.notification_loop]; [done|].
  destruct (decide (n_watch_event result = NODE_DATA_CHANGED)); [|apply IH].
  destruct (decide (watch_type w = GET_DATA)); [|done].
  py_unfold. unfold EventQueue.put, modify.
  cbn [snd]. unfold expected_ids, EventQueue.set_watches, EventQueue.set_queue.
  cbn [EventQueue._queue]. rewrite omap_app. cbn [omap]. by rewrite app_nil_r.
Qed.

Lemma expected_ids_add_indirect_result reply q :
  expected_ids (EventQueue.add_indirect_result reply q).2 = expected_ids q.
Proof.
  unfold EventQueue.add_indirect_result. rewrite closing_guard.
  destruct (EventQueue._closing q); [done|].
  by rewrite expected_ids_put, app_nil_r.
Qed.

Lemma expected_ids_add_watch_notification result q :
  expected_ids (EventQueue.add_watch_notification result q).2 = expected_ids q.
Proof.
  unfold EventQueue.add_watch_notification. rewrite closing_guard.
  destruct (EventQueue._closing q); [done|]. py_unfold.
  destruct (EventQueue._watches q !! MD5.hexdigest (n_path result)) as [[|w0 ws]|];
    [done| |done].
  apply expected_ids_notification_loop.
Qed.

(** A round of the sorter moves the first announced request to the end of
    the pending list, or drops entries from the head of the pending list. *)
Lemma sorter_round_chain s :
  map pending_id (SorterThread.futures (SorterThread.run_iteration s).2)
  ++ expected_ids (SorterThread._queue (SorterThread.run_iteration s).2)
  `sublist_of` map pending_id (SorterThread.futures s)
               ++ expected_ids (SorterThread._queue s).
Proof.
  assert (Hscan : forall s0,
            map pending_id (SorterThread.futures (SorterThread._check_timeout s0).2)
            ++ expected_ids (SorterThread._queue (SorterThread._check_timeout s0).2)
            `sublist_of` map pending_id (SorterThread.futures s0)
                         ++ expected_ids (SorterThread._queue s0)).
  { intros s0. rewrite check_timeout_eq.
    cbn [snd SorterThread.futures SorterThread._queue].
    apply sublist_app; [|done].
    destruct (check_timeout_loop_suffix
                (SorterThread.clock s0 (SorterThread.ticks s0)) 0
                (SorterThread.futures s0)) as [k Hk].
    rewrite Hk at 2. rewrite map_app. by apply sublist_inserts_l. }
  rewrite run_iteration_eq. unfold expected_ids at 2.
  destruct (EventQueue._queue (SorterThread._queue s)) as [|item items] eqn:Hq.
  { etrans; [apply Hscan|]. unfold expected_ids. by rewrite Hq. }
  destruct item as [result|i result f|i r f|w e]; cbn [omap].
  - rewrite indirect_result_eq.
    destruct (SorterThread.parse_req_id result) as [e|req_id]; [done|].
    cbn [SorterThread.futures].
    destruct (SorterThread.futures s) as [|first rest]; [done|].
    destruct (decide (pending_id first = req_id)); [|done].
    cbn [snd SorterThread.futures SorterThread._queue map]. by apply sublist_cons.
  - destruct result as [|node|e|v]; try done.
    destruct (EventQueue._closing (SorterThread._queue s)) eqn:Hc.
    + by rewrite direct_result_node_closing.
    + by rewrite direct_result_node.
  - etrans; [apply Hscan|].
    cbn [SorterThread.futures SorterThread._queue]. rewrite map_app.
    cbn [map]. by rewrite <- app_assoc.
  - etrans; [apply Hscan|]. done.
Qed.

End SessionChain.

Section SessionOrder.

Lemma sublist_Forall_2 {A} (P : A -> Prop) (l1 l2 : list A) :
  l1 `sublist_of` l2 -> Forall P l2 -> Forall P l1.
Proof.
  induction 1 as [|x l1 l2 _ IH|x l1 l2 _ IH]; intros Hl2; [done| |].
  - apply Forall_cons in Hl2 as [Hx Hl2]. constructor; [done|by apply IH].
  - apply Forall_cons in Hl2 as [_ Hl2]. by apply IH.
Qed.

Lemma sublist_StronglySorted {A} (R : A -> A -> Prop) (l1 l2 : list A) :
  l1 `sublist_of` l2 -> StronglySorted R l2 -> StronglySorted R l1.
Proof.
  induction 1 as [|x l1 l2 Hsub IH|x l1 l2 _ IH]; intros Hl2; [done| |].
  - apply StronglySorted_inv in Hl2 as [Hl2 Hx]. constructor; [by apply IH|].
    by apply (sublist_Forall_2 _ _ _ Hsub).
  - apply StronglySorted_inv in Hl2 as [Hl2 _]. by apply IH.
Qed.

Lemma submitter_round_idle is_cloud_request reply s :
  WorkQueue._queue (SubmitterThread._queue s) = [] ->
  SubmitterThread.run_iteration is_cloud_request reply s = (inr tt, s).
Proof.
  intros Hq. unfold SubmitterThread.run_iteration. unfold mbind at 1. unfold py_bind.
  unfold SubmitterThread.on_work_queue, WorkQueue.get. rewrite Hq. by destruct s.
Qed.

(** What a step does to the chain of request ids: it drops some of them,
    or it adds the next id at the end. *)
Lemma step_request_chain is_cloud_request a s :
  let count s := WorkQueue._request_count (Session.work_queue s) in
  (request_chain (Session.step is_cloud_request a s) `sublist_of` request_chain s
   /\ count (Session.step is_cloud_request a s) = count s)
  \/ (request_chain (Session.step is_cloud_request a s) = request_chain s ++ [count s]
      /\ count (Session.step is_cloud_request a s) = count s + 1).
Proof.
  intros count. subst count. cbn beta. destruct s as [u futures trace clock ticks sr tr].
  destruct a as [op fut|reply| |reply|result| |]; cbn [Session.step].
  - (* the user adds a request *)
    unfold Session.set_work_queue, Session.work_queue, Session.event_queue, request_chain.
    cbn [Session.submitter Session.futures SubmitterThread._queue
         SubmitterThread._event_queue Session.work_queue Session.event_queue].
    unfold WorkQueue.add_request. destruct (WorkQueue._closing (SubmitterThread._queue u)).
    + left. by split.
    + right. cbn [snd WorkQueue._queue WorkQueue._request_count].
      rewrite map_app. cbn [map fst]. by rewrite !app_assoc.
  - (* a round of the submitter *)
    cbn [Session.submitter_raised]. destruct sr as [e|]; [by left|]. left.
    cbn [Session.submitter].
    destruct (WorkQueue._queue (SubmitterThread._queue u)) as [|[[i r] f] items] eqn:Hq.
    { rewrite submitter_round_idle by done. by split. }
    destruct (EventQueue._closing (SubmitterThread._event_queue u)) eqn:Hc.
    { rewrite (submitter_round_closing _ _ _ _ _ _ _ Hq Hc).
      unfold request_chain, Session.work_queue, Session.event_queue.
      cbn [Session.submitter Session.futures SubmitterThread._queue
           SubmitterThread._event_queue WorkQueue._queue WorkQueue._request_count].
      rewrite Hq. split; [|done]. cbn [map fst].
      apply sublist_app; [done|]. apply sublist_app; [done|]. by apply sublist_cons. }
    destruct (is_cloud_request r) eqn:Hcloud.
    + rewrite (submitter_round_cloud _ _ _ _ _ _ _ Hq Hcloud Hc).
      unfold request_chain, Session.work_queue, Session.event_queue, expected_ids.
      destruct reply as [res|e];
        cbn [Session.submitter Session.futures SubmitterThread._queue
             SubmitterThread._event_queue WorkQueue._queue WorkQueue._request_count
             EventQueue._queue];
        rewrite Hq, !omap_app; cbn [omap map fst];
        rewrite ?app_nil_r, <- !app_assoc; by split.
    + rewrite (submitter_round_direct _ _ _ _ _ _ _ Hq Hcloud Hc).
      unfold request_chain, Session.work_queue, Session.event_queue, expected_ids.
      cbn [Session.submitter Session.futures SubmitterThread._queue
           SubmitterThread._event_queue WorkQueue._queue WorkQueue._request_count
           EventQueue._queue].
      rewrite Hq, !omap_app. cbn [omap map fst]. rewrite app_nil_r. split; [|done].
      apply sublist_app; [done|]. apply sublist_app; [done|]. by apply sublist_cons.
  - (* a round of the sorter *)
    cbn [Session.sorter_raised]. destruct tr as [e|]; [by left|]. left.
    pose proof (sorter_round_chain
                  (Session.sorter (Session.mk u futures trace clock ticks sr None)))
      as Hround.
    destruct (SorterThread.run_iteration _) as [r v]. cbn [snd] in Hround.
    unfold request_chain, Session.work_queue, Session.event_queue, Session.set_event_queue.
    cbn [Session.submitter Session.futures SubmitterThread._queue
         SubmitterThread._event_queue Session.work_queue Session.event_queue] in *.
    split; [|done]. rewrite !app_assoc. by apply sublist_app.
  - (* the listener forwards a reply *)
    left. unfold request_chain, Session.work_queue, Session.event_queue,
      Session.set_event_queue.
    cbn [Session.submitter Session.futures SubmitterThread._queue
         SubmitterThread._event_queue Session.work_queue Session.event_queue].
    by rewrite expected_ids_add_indirect_result.
  - (* the listener forwards a notification *)
    left. unfold request_chain, Session.work_queue, Session.event_queue,
      Session.set_event_queue.
    cbn [Session.submitter Session.futures SubmitterThread._queue
         SubmitterThread._event_queue Session.work_queue Session.event_queue].
    by rewrite expected_ids_add_watch_notification.
  - by left.
  - by left.
Qed.

End SessionOrder.

(** X15. In a session the request ids stay in order. From a fresh session
    and along any schedule of user requests, rounds of the submitter and of
    the sorter, forwarded replies and notifications, and closing of the
    queues, the ids held by the pending list of the sorter, then those
    announced in the event queue, then those waiting in the work queue, are
    strictly increasing, not negative and below the request counter; so the
    pending list is ordered by request id and holds no id twice. *)
Theorem X15_request_ids_stay_in_order :
  forall (is_cloud_request : Operation -> bool) (session_id : string)
         (clock : nat -> float) (schedule : list Session.Step),
    let s := Session.run is_cloud_request schedule (Session.init session_id clock) in
    StronglySorted Z.lt (request_chain s)
    /\ Forall (fun i => 0 <= i < WorkQueue._request_count (Session.work_queue s))
              (request_chain s)
    /\ StronglySorted Z.lt (map pending_id (Session.futures s)).
Proof.
  intros cloud session_id clock schedule s.
  pose (count := fun s => WorkQueue._request_count (Session.work_queue s)).
  assert (Hinv : StronglySorted Z.lt (request_chain s)
                 /\ Forall (fun i => 0 <= i < count s) (request_chain s)
                 /\ 0 <= count s).
  { subst s. unfold Session.run.
    assert (Hinit : StronglySorted Z.lt (request_chain (Session.init session_id clock))
                    /\ Forall (fun i => 0 <= i < count (Session.init session_id clock))
                              (request_chain (Session.init session_id clock))
                    /\ 0 <= count (Session.init session_id clock)).
    { split; [constructor|]. split; [constructor|done]. }
    revert Hinit. generalize (Session.init session_id clock) as s.
    induction schedule as [|a schedule IH]; intros s Hs; [done|].
    cbn [fold_left]. apply IH. destruct Hs as (Hsorted & Hbound & Hcount0).
    destruct (step_request_chain cloud a s) as [[Hsub Hcount]|[Hsnoc Hcount]];
      fold (count (Session.step cloud a s)) in Hcount; fold (count s) in Hcount.
    - rewrite Hcount. split; [|split; [|done]].
      + by apply (sublist_StronglySorted _ _ _ Hsub).
      + by apply (sublist_Forall_2 _ _ _ Hsub).
    - fold (count s) in Hsnoc. rewrite Hsnoc, Hcount. split; [|split; [|lia]].
      + apply StronglySorted_app_2; [|done|repeat constructor].
        intros x1 x2 Hx1 Hx2. apply list_elem_of_singleton in Hx2 as ->.
        rewrite Forall_forall in Hbound. by apply Hbound.
      + apply Forall_app. split.
        * eapply Forall_impl; [exact Hbound|]. intros i. cbn. lia.
        * constructor; [lia|constructor]. }
  destruct Hinv as (Hsorted & Hbound & _). split; [done|]. split; [done|].
  unfold request_chain in Hsorted. by apply StronglySorted_app_1_l in Hsorted.
Qed.

Section SessionScenarios.

Lemma session_sort_step is_cloud_request s r v :
  Session.sorter_raised s = None ->
  SorterThread.run_iteration (Session.sorter s) = (r, v) ->
  Session.step is_cloud_request Session.Sort s
  = Session.mk (Session.submitter (Session.set_event_queue (SorterThread._queue v) s))
      (SorterThread.futures v) (SorterThread.trace v)
      (SorterThread.clock v) (SorterThread.ticks v)
      (Session.submitter_raised s) (Session.raised r).
Proof. intros Hs Hrun. cbn [Session.step]. by rewrite Hs, Hrun. Qed.

Lemma session_submit_step is_cloud_request reply s r u :
  Session.submitter_raised s = None ->
  SubmitterThread.run_iteration is_cloud_request reply (Session.submitter s) = (r, u) ->
  Session.step is_cloud_request (Session.Submit reply) s
  = Session.mk u (Session.futures s) (Session.trace s) (Session.clock s)
      (Session.ticks s) (Session.raised r) (Session.sorter_raised s).
Proof. intros Hs Hrun. cbn [Session.step]. by rewrite Hs, Hrun. Qed.

Lemma check_timeout_one_entry s entry :
  SorterThread.futures s = [entry] ->
  SorterThread._check_timeout s
  = (inr tt,
     if SorterThread.timed_out (SorterThread.clock s (SorterThread.ticks s))
                               (pending_timestamp entry)
     then SorterThread.mk (SorterThread._queue s) []
            (SorterThread.trace s ++ [timeout_failure entry])
            (SorterThread.clock s) (S (SorterThread.ticks s))
     else SorterThread.mk (SorterThread._queue s) [entry] (SorterThread.trace s)
            (SorterThread.clock s) (S (SorterThread.ticks s))).
Proof.
  intros Hf. rewrite check_timeout_eq, Hf.
  cbn [SorterThread.check_timeout_loop lookup list_lookup].
  destruct (SorterThread.timed_out _ _); [done|]. cbn [fst snd]. by rewrite app_nil_r.
Qed.

End SessionScenarios.

(** X16. A cloud request whose [send_request] raises leaves its entry
    pending. In a fresh session: the user adds the request, the round of
    the submitter announces it and, the provider call raising [e], queues
    [e] as its direct result; the sorter then appends the pending entry and,
    in its next round, fails the future with [e] without removing the entry.
    When the entry later times out, the scan fails the same future a second
    time, with [TimeoutException(5.0)]. *)
Theorem X16_failed_cloud_request_stays_pending :
  forall (is_cloud_request : Operation -> bool) (session_id : string)
         (clock : nat -> float) (op : Operation) (fut : Future) (e : PyException),
    is_cloud_request op = true ->
    SorterThread.timed_out (clock 1%nat) (clock 0%nat) = false ->
    SorterThread.timed_out (clock 2%nat) (clock 0%nat) = true ->
    let s :=
      Session.run is_cloud_request
        [Session.Request op fut; Session.Submit (SubmitterThread.Raises e);
         Session.Sort; Session.Sort]
        (Session.init session_id clock) in
    let s' := Session.step is_cloud_request Session.Sort s in
    Session.trace s = [SetException fut e]
    /\ Session.futures s = [(0, op, fut, clock 0%nat)]
    /\ Session.sorter_raised s = None
    /\ Session.submitter_raised s = None
    /\ Session.trace s'
       = [SetException fut e; SetException fut (TimeoutException 5%float)]
    /\ Session.futures s' = [].
Proof.
  intros cloud session_id clock op fut e Hcloud Hfresh Hstale s s'.
  pose (begun := ["Begin executing operation: " +:+ op_name op]
                 ++ match e with
                    | ProviderException _ => []
                    | _ => ["Finish executing operation: " +:+ op_name op]
                    end).
  pose (calls := [SubmitterThread.SendRequest
                    (SubmitterThread.request_id_str session_id 0) op]).
  pose (entry := ((0, op, fut, clock 0%nat) : Pending)).
  pose (s1 := Session.mk
                (SubmitterThread.mk session_id (WorkQueue.mk [(0, op, fut)] false 1)
                   EventQueue.init [] [])
                [] [] clock 0 None None).
  pose (s2 := Session.mk
                (SubmitterThread.mk session_id (WorkQueue.mk [] false 1)
                   (EventQueue.mk
                      [CLOUD_EXPECTED_RESULT 0 op fut;
                       CLOUD_DIRECT_RESULT 0 (ResException e) fut] ∅ false [])
                   calls begun)
                [] [] clock 0 None None).
  pose (s3 := Session.mk
                (SubmitterThread.mk session_id (WorkQueue.mk [] false 1)
                   (EventQueue.mk [CLOUD_DIRECT_RESULT 0 (ResException e) fut] ∅ false [])
                   calls begun)
                [entry] [] clock 2 None None).
  pose (s4 := Session.mk
                (SubmitterThread.mk session_id (WorkQueue.mk [] false 1)
                   (EventQueue.mk [] ∅ false []) calls begun)
                [entry] [SetException fut e] clock 2 None None).
  pose (s5 := Session.mk
                (SubmitterThread.mk session_id (WorkQueue.mk [] false 1)
                   (EventQueue.mk [] ∅ false []) calls begun)
                [] [SetException fut e; SetException fut (TimeoutException 5%float)]
                clock 3 None None).
  assert (H1 : Session.step cloud (Session.Request op fut)
                 (Session.init session_id clock) = s1) by reflexivity.
  assert (H2 : Session.step cloud (Session.Submit (SubmitterThread.Raises e)) s1 = s2).
  { erewrite session_submit_step;
      [|done|by apply (submitter_round_cloud cloud _ _ 0 op fut [])].
    reflexivity. }
  assert (H3 : Session.step cloud Session.Sort s2 = s3).
  { erewrite session_sort_step; [|done|].
    2:{ rewrite run_iteration_eq. subst s2. unfold Session.sorter, Session.event_queue.
        cbn [Session.submitter Session.futures Session.trace Session.clock Session.ticks
             SubmitterThread._event_queue SorterThread._queue SorterThread.futures
             SorterThread.trace SorterThread.clock SorterThread.ticks
             EventQueue._queue app].
        rewrite (check_timeout_one_entry _ entry) by done.
        cbn [SorterThread.clock SorterThread.ticks pending_timestamp snd entry].
        rewrite Hfresh. reflexivity. }
    reflexivity. }
  assert (H4 : Session.step cloud Session.Sort s3 = s4).
  { erewrite session_sort_step; [|done|].
    2:{ rewrite run_iteration_eq. reflexivity. }
    reflexivity. }
  assert (H5 : Session.step cloud Session.Sort s4 = s5).
  { erewrite session_sort_step; [|done|].
    2:{ rewrite run_iteration_eq. subst s4. unfold Session.sorter, Session.event_queue.
        cbn [Session.submitter Session.futures Session.trace Session.clock Session.ticks
             SubmitterThread._event_queue SorterThread._queue EventQueue._queue].
        rewrite (check_timeout_one_entry _ entry) by done.
        cbn [SorterThread.clock SorterThread.ticks pending_timestamp snd entry].
        rewrite Hstale. reflexivity. }
    reflexivity. }
  assert (Hs : s = s4).
  { subst s. unfold Session.run. cbn [fold_left]. by rewrite H1, H2, H3, H4. }
  subst s'. rewrite Hs, H5. repeat split.
Qed.

Lemma X16_failed_cloud_request_witness :
  let s :=
    Session.run Sample.is_cloud_request
      [Session.Request Sample.create_a Sample.future0;
       Session.Submit (SubmitterThread.Raises (ProviderException "throttled"));
       Session.Sort; Session.Sort]
      (Session.init "5f2c1a9e" (Sample.late_clock 2)) in
  let s' := Session.step Sample.is_cloud_request Session.Sort s in
  Session.trace s'
  = [SetException Sample.future0 (ProviderException "throttled");
     SetException Sample.future0 (TimeoutException 5%float)]
  /\ Session.futures s' = [].
Proof.
  assert (Hcloud : Sample.is_cloud_request Sample.create_a = true)
    by (vm_compute; reflexivity).
  assert (Hfresh : SorterThread.timed_out (Sample.late_clock 2 1%nat)
                                          (Sample.late_clock 2 0%nat) = false)
    by (vm_compute; reflexivity).
  assert (Hstale : SorterThread.timed_out (Sample.late_clock 2 2%nat)
                                          (Sample.late_clock 2 0%nat) = true)
    by (vm_compute; reflexivity).
  intros s s'.
  destruct (X16_failed_cloud_request_stays_pending Sample.is_cloud_request "5f2c1a9e"
              (Sample.late_clock 2) Sample.create_a Sample.future0
              (ProviderException "throttled") Hcloud Hfresh Hstale)
    as (_ & _ & _ & _ & Htrace & Hfutures).
  split; [exact Htrace|exact Hfutures].
Defined.

(** X17. One cloud request from end to end. In a fresh session whose id
    has no ['-']: the user adds the request, the submitter announces it and
    sends it under the id [f"{session_id}-0"], the sorter takes the
    announcement without timing it out, the listener forwards a reply whose
    ["event"] is that id, and the next round of the sorter calls
    [process_result] with the operation, that reply and the future of the
    request. Nothing is left pending or queued and no thread has raised. *)
Theorem X17_cloud_request_from_end_to_end :
  forall (is_cloud_request : Operation -> bool) (session_id : string)
         (clock : nat -> float) (op : Operation) (fut : Future)
         (res : option (DirectResult * Watch)) (reply : PyDict),
    is_cloud_request op = true ->
    "-"%char ∉ list_ascii_of_string session_id ->
    SorterThread.timed_out (clock 1%nat) (clock 0%nat) = false ->
    reply !! "event" = Some (PyStr (SubmitterThread.request_id_str session_id 0)) ->
    let s :=
      Session.run is_cloud_request
        [Session.Request op fut; Session.Submit (SubmitterThread.Returns res);
         Session.Sort; Session.Receive reply; Session.Sort]
        (Session.init session_id clock) in
    Session.trace s = [ProcessResult op reply fut]
    /\ Session.futures s = []
    /\ SubmitterThread.provider_calls (Session.submitter s)
       = [SubmitterThread.SendRequest (SubmitterThread.request_id_str session_id 0) op]
    /\ EventQueue._queue (Session.event_queue s) = []
    /\ WorkQueue._queue (Session.work_queue s) = []
    /\ Session.sorter_raised s = None
    /\ Session.submitter_raised s = None.
Proof.
  intros cloud session_id clock op fut res reply Hcloud Hdash Hfresh Hevent s.
  pose (calls := [SubmitterThread.SendRequest
                    (SubmitterThread.request_id_str session_id 0) op]).
  pose (begun := ["Begin executing operation: " +:+ op_name op]).
  pose (entry := ((0, op, fut, clock 0%nat) : Pending)).
  pose (s1 := Session.mk
                (SubmitterThread.mk session_id (WorkQueue.mk [(0, op, fut)] false 1)
                   EventQueue.init [] [])
                [] [] clock 0 None None).
  pose (s2 := Session.mk
                (SubmitterThread.mk session_id (WorkQueue.mk [] false 1)
                   (EventQueue.mk [CLOUD_EXPECTED_RESULT 0 op fut] ∅ false [])
                   calls begun)
                [] [] clock 0 None None).
  pose (s3 := Session.mk
                (SubmitterThread.mk session_id (WorkQueue.mk [] false 1)
                   (EventQueue.mk [] ∅ false []) calls begun)
                [entry] [] clock 2 None None).
  pose (s4 := Session.mk
                (SubmitterThread.mk session_id (WorkQueue.mk [] false 1)
                   (EventQueue.mk [CLOUD_INDIRECT_RESULT reply] ∅ false [])
                   calls begun)
                [entry] [] clock 2 None None).
  pose (s5 := Session.mk
                (SubmitterThread.mk session_id (WorkQueue.mk [] false 1)
                   (EventQueue.mk [] ∅ false []) calls begun)
                [] [ProcessResult op reply fut] clock 2 None None).
  assert (Hparse : SorterThread.parse_req_id reply = inr 0).
  { rewrite <- (insert_id reply "event" _ Hevent).
    by apply parse_req_id_of_sent_id. }
  assert (H1 : Session.step cloud (Session.Request op fut)
                 (Session.init session_id clock) = s1) by reflexivity.
  assert (H2 : Session.step cloud (Session.Submit (SubmitterThread.Returns res)) s1 = s2).
  { erewrite session_submit_step;
      [|done|by apply (submitter_round_cloud cloud _ _ 0 op fut [])].
    reflexivity. }
  assert (H3 : Session.step cloud Session.Sort s2 = s3).
  { erewrite session_sort_step; [|done|].
    2:{ rewrite run_iteration_eq. subst s2. unfold Session.sorter, Session.event_queue.
        cbn [Session.submitter Session.futures Session.trace Session.clock Session.ticks
             SubmitterThread._event_queue SorterThread._queue SorterThread.futures
             SorterThread.trace SorterThread.clock SorterThread.ticks
             EventQueue._queue app].
        rewrite (check_timeout_one_entry _ entry) by done.
        cbn [SorterThread.clock SorterThread.ticks pending_timestamp snd entry].
        rewrite Hfresh. reflexivity. }
    reflexivity. }
  assert (H4 : Session.step cloud (Session.Receive reply) s3 = s4) by reflexivity.
  assert (H5 : Session.step cloud Session.Sort s4 = s5).
  { erewrite session_sort_step; [|done|].
    2:{ rewrite run_iteration_eq. subst s4. unfold Session.sorter, Session.event_queue.
        cbn [Session.submitter Session.futures Session.trace Session.clock Session.ticks
             SubmitterThread._event_queue SorterThread._queue EventQueue._queue].
        rewrite indirect_result_eq, Hparse.
        cbn [SorterThread.futures entry pending_id fst].
        rewrite decide_True by done. reflexivity. }
    reflexivity. }
  assert (Hs : s = s5).
  { subst s. unfold Session.run. cbn [fold_left]. by rewrite H1, H2, H3, H4, H5. }
  rewrite Hs. repeat split.
Qed.

Lemma X17_cloud_request_witness :
  let reply := <["event" := PyStr "5f2c1a9e-0"]> {["status" := PyStr "success"]} in
  Session.trace
    (Session.run Sample.is_cloud_request
       [Session.Request Sample.create_a Sample.future0;
        Session.Submit (SubmitterThread.Returns None);
        Session.Sort; Session.Receive reply; Session.Sort]
       (Session.init "5f2c1a9e" Sample.steady_clock))
  = [ProcessResult Sample.create_a reply Sample.future0].
Proof.
  intros reply.
  assert (Hcloud : Sample.is_cloud_request Sample.create_a = true)
    by (vm_compute; reflexivity).
  assert (Hdash : "-"%char ∉ list_ascii_of_string "5f2c1a9e").
  { vm_compute. intros Hin.
    repeat (apply elem_of_cons in Hin as [Heq|Hin]; [discriminate Heq|]).
    by apply not_elem_of_nil in Hin. }
  assert (Hfresh : SorterThread.timed_out (Sample.steady_clock 1%nat)
                                          (Sample.steady_clock 0%nat) = false)
    by (vm_compute; reflexivity).
  assert (Hevent : reply !! "event"
                   = Some (PyStr (SubmitterThread.request_id_str "5f2c1a9e" 0)))
    by (vm_compute; reflexivity).
  destruct (X17_cloud_request_from_end_to_end Sample.is_cloud_request "5f2c1a9e"
              Sample.steady_clock Sample.create_a Sample.future0 None reply
              Hcloud Hdash Hfresh Hevent)
    as (Htrace & _).
  exact Htrace.
Defined.

(** ** The session: completion in the order of submission *)

Section SessionFifo.

(** A step other than a user request only drops slots or moves them along;
    it leaves the request counter and the closing flag of the work queue. *)
Lemma step_session_slots is_cloud_request a s :
  (forall op fut, a <> Session.Request op fut) ->
  a <> Session.CloseWorkQueue ->
  session_slots (Session.step is_cloud_request a s) `sublist_of` session_slots s
  /\ WorkQueue._request_count (Session.work_queue (Session.step is_cloud_request a s))
     = WorkQueue._request_count (Session.work_queue s)
  /\ WorkQueue._closing (Session.work_queue (Session.step is_cloud_request a s))
     = WorkQueue._closing (Session.work_queue s).
Proof.
  intros Hreq Hclose. destruct s as [u futures trace clock ticks sr tr].
  destruct a as [op fut|reply| |reply|result| |]; cbn [Session.step].
  - by destruct (Hreq op fut).
  - (* a round of the submitter *)
    cbn [Session.submitter_raised]. destruct sr as [e|]; [done|].
    cbn [Session.submitter].
    destruct (WorkQueue._queue (SubmitterThread._queue u)) as [|[[i r] f] items] eqn:Hq.
    { by rewrite submitter_round_idle. }
    destruct (EventQueue._closing (SubmitterThread._event_queue u)) eqn:Hc.
    { rewrite (submitter_round_closing _ _ _ _ _ _ _ Hq Hc).
      unfold session_slots, in_flight, Session.sorter, Session.work_queue,
        Session.event_queue.
      cbn [Session.submitter Session.futures Session.trace SubmitterThread._queue
           SubmitterThread._event_queue WorkQueue._queue WorkQueue._request_count
           WorkQueue._closing SorterThread.trace SorterThread.futures SorterThread._queue].
      rewrite Hq. split; [|done]. cbn [map].
      apply sublist_app; [done|]. by apply sublist_cons. }
    destruct (is_cloud_request r) eqn:Hcloud.
    + rewrite (submitter_round_cloud _ _ _ _ _ _ _ Hq Hcloud Hc).
      unfold session_slots, in_flight, queued_expected, Session.sorter,
        Session.work_queue, Session.event_queue.
      destruct reply as [res|e];
        cbn [Session.submitter Session.futures Session.trace SubmitterThread._queue
             SubmitterThread._event_queue WorkQueue._queue WorkQueue._request_count
             WorkQueue._closing SorterThread.trace SorterThread.futures
             SorterThread._queue EventQueue._queue];
        rewrite Hq, !omap_app; cbn [omap map slot_of fst snd];
        rewrite ?app_nil_r, <- !app_assoc; by split.
    + rewrite (submitter_round_direct _ _ _ _ _ _ _ Hq Hcloud Hc).
      unfold session_slots, in_flight, queued_expected, Session.sorter,
        Session.work_queue, Session.event_queue.
      cbn [Session.submitter Session.futures Session.trace SubmitterThread._queue
           SubmitterThread._event_queue WorkQueue._queue WorkQueue._request_count
           WorkQueue._closing SorterThread.trace SorterThread.futures
           SorterThread._queue EventQueue._queue].
      rewrite Hq, !omap_app. cbn [omap map]. rewrite app_nil_r. split; [|done].
      rewrite <- !app_assoc. do 3 (apply sublist_app; [done|]). by apply sublist_cons.
  - (* a round of the sorter *)
    cbn [Session.sorter_raised]. destruct tr as [e|]; [done|].
    pose proof (poll_in_flight
                  (Session.sorter (Session.mk u futures trace clock ticks sr None)))
      as Hround.
    destruct (SorterThread.run_iteration _) as [r v]. cbn [snd] in Hround.
    split; [|done]. unfold session_slots. apply sublist_app; [|done].
    etrans; [|exact Hround]. by destruct v.
  - (* the listener forwards a reply *)
    split; [|done]. unfold session_slots. apply sublist_app; [|done].
    pose proof (queued_expected_perform (EventQueue.AddIndirectResult reply)
                  (SubmitterThread._event_queue u)) as Hq.
    rewrite perform_state in Hq. cbn [announced] in Hq. rewrite app_nil_r in Hq.
    unfold in_flight. apply sublist_app; [done|]. by apply sublist_app.
  - (* the listener forwards a notification *)
    split; [|done]. unfold session_slots. apply sublist_app; [|done].
    pose proof (queued_expected_perform (EventQueue.AddWatchNotification result)
                  (SubmitterThread._event_queue u)) as Hq.
    rewrite perform_state in Hq. cbn [announced] in Hq. rewrite app_nil_r in Hq.
    unfold in_flight. apply sublist_app; [done|]. by apply sublist_app.
  - done.
  - done.
Qed.

Lemma run_session_slots is_cloud_request schedule s before :
  session_slots s `sublist_of` before ->
  session_slots (Session.run is_cloud_request schedule s)
  `sublist_of`
    before
    ++ map slot_of
         (WorkQueue.numbered (WorkQueue._request_count (Session.work_queue s))
            (if WorkQueue._closing (Session.work_queue s) then []
             else accepted_requests schedule)).
Proof.
  unfold Session.run. revert s before.
  induction schedule as [|a schedule IH]; intros s before Hs.
  - cbn [fold_left]. destruct (WorkQueue._closing _); cbn; by rewrite app_nil_r.
  - cbn [fold_left].
    destruct a as [op fut|reply| |reply|result| |].
    6:{ (* the work queue is closed *)
      specialize (IH (Session.step is_cloud_request Session.CloseWorkQueue s) before).
      destruct s as [[sid wq eq calls log] futures trace clock ticks sr tr].
      cbn in IH |- *. destruct (WorkQueue._closing wq); by apply IH. }
    { (* a user request *)
      destruct s as [[sid wq eq calls log] futures trace clock ticks sr tr].
      cbn [Session.step accepted_requests].
      unfold Session.set_work_queue, Session.work_queue, Session.event_queue.
      cbn [Session.submitter SubmitterThread._queue SubmitterThread._event_queue
           SubmitterThread._session_id SubmitterThread.provider_calls
           SubmitterThread._log Session.futures Session.trace Session.clock
           Session.ticks Session.submitter_raised Session.sorter_raised].
      unfold WorkQueue.add_request. destruct (WorkQueue._closing wq) eqn:Hc.
      - cbn [snd]. specialize (IH (Session.mk (SubmitterThread.mk sid wq eq calls log)
                                    futures trace clock ticks sr tr) before Hs).
        unfold Session.work_queue in IH. cbn in IH. by rewrite Hc in IH.
      - cbn [snd].
        set (wq' := WorkQueue.mk _ _ _).
        specialize (IH (Session.mk (SubmitterThread.mk sid wq' eq calls log)
                          futures trace clock ticks sr tr)
                       (before ++ [slot_of (WorkQueue._request_count wq, op, fut)])).
        unfold Session.work_queue in IH.
        cbn [Session.submitter SubmitterThread._queue] in IH.
        subst wq'. cbn [WorkQueue._closing WorkQueue._request_count] in IH.
        rewrite numbered_cons. cbn [map fst snd]. rewrite <- app_assoc in IH.
        apply IH. unfold session_slots, Session.work_queue in Hs |- *.
        cbn [Session.submitter SubmitterThread._queue WorkQueue._queue] in Hs |- *.
        rewrite map_app, app_assoc. by apply sublist_app. }
    all: match goal with
         | |- context [Session.step _ ?a ?s0] =>
             destruct (step_session_slots is_cloud_request a s0)
               as (Hsub & Hcount & Hclosing); [done|done|];
             specialize (IH (Session.step is_cloud_request a s0) before
                            ltac:(by etrans));
             rewrite Hcount, Hclosing in IH; exact IH
         end.
Qed.

End SessionFifo.

(** X18. Requests are completed in the order they were submitted. From a
    fresh session and along any schedule, the [process_result] calls of
    the sorter are, in call order, a subsequence of the requests the work
    queue accepted, each call being for a request, its future, and a reply
    whose local index is the request id the work queue gave to that request:
    the [i]-th accepted request can only be completed by a reply numbered
    [i], and never before an earlier request that is completed. *)
Theorem X18_requests_complete_in_submission_order :
  forall (is_cloud_request : Operation -> bool) (session_id : string)
         (clock : nat -> float) (schedule : list Session.Step),
    SorterThread.completions
      (Session.trace
         (Session.run is_cloud_request schedule (Session.init session_id clock)))
    `sublist_of`
      map slot_of (WorkQueue.numbered 0 (accepted_requests schedule)).
Proof.
  intros cloud session_id clock schedule.
  pose proof (run_session_slots cloud schedule (Session.init session_id clock) [])
    as Hrun.
  cbn [app] in Hrun. etrans; [|apply Hrun; done].
  unfold session_slots, in_flight, Session.sorter. cbn [SorterThread.trace].
  rewrite <- !app_assoc. by apply sublist_inserts_r.
Qed.

(** ** The keys of the watch registry *)

Section RegistryKeys.
Import EventQueue.

Lemma length_le_bytes n x : length (MD5.le_bytes n x) = n.
Proof. revert x. induction n as [|n IH]; intros x; [done|]. simpl. by rewrite IH. Qed.

Lemma length_digest msg : length (MD5.digest msg) = 16%nat.
Proof.
  unfold MD5.digest. destruct (fold_left _ _ _) as [[[a b] c] d].
  by rewrite !length_app, !length_le_bytes.
Qed.

Lemma length_hex_of_bytes bs :
  String.length (MD5.hex_of_bytes bs) = (2 * length bs)%nat.
Proof.
  unfold MD5.hex_of_bytes. induction bs as [|b bs IH]; [done|].
  cbn [flat_map app string_of_list_ascii String.length length]. rewrite IH. lia.
Qed.

Lemma length_hexdigest p : String.length (MD5.hexdigest p) = 32%nat.
Proof. unfold MD5.hexdigest. by rewrite length_hex_of_bytes, length_digest. Qed.

Lemma keys_have_digest_length_perform c q :
  keys_have_digest_length (_watches q) -> keys_have_digest_length (_watches (perform c q).2).
Proof.
  intros Hinv. destruct (_closing q) eqn:Hc.
  { destruct c; try (by rewrite enqueue_closed).
    - rewrite perform_state. unfold get_watches. by rewrite closing_guard, Hc.
    - rewrite eq_perform_get. by destruct (_queue q).
    - done. }
  rewrite perform_state. destruct c as [i r f|i r f|r|result|p w|ps ts| |].
  - unfold add_expected_result. by rewrite closing_guard, Hc.
  - unfold add_direct_result. by rewrite closing_guard, Hc.
  - unfold add_indirect_result. by rewrite closing_guard, Hc.
  - destruct (add_watch_notification_registry result q) as [Hreg|[i Hreg]];
      rewrite Hreg; [done|].
    intros h b. rewrite lookup_alter_Some.
    intros [(_ & b0 & Hb0 & ->)|[_ Hb]]; by eapply Hinv.
  - rewrite add_watch_open by done. cbn [snd _watches set_watches].
    intros h b. rewrite lookup_insert_Some.
    intros [[<- _]|[_ Hb]]; [apply length_hexdigest|by eapply Hinv].
  - rewrite get_watches_open by done. cbn [snd _watches].
    intros h b. rewrite get_watches_fold_registry.
    destruct (_watches q !! h) as [b0|] eqn:Hb0; [|done]. intros _. by eapply Hinv.
  - unfold get. by destruct (_queue q).
  - done.
Qed.

Lemma keys_have_digest_length_reachable q :
  reachable q -> keys_have_digest_length (_watches q).
Proof.
  induction 1 as [|q c _ IH].
  - intros h b. cbn [init _watches]. by rewrite lookup_empty.
  - by apply keys_have_digest_length_perform.
Qed.

Lemma get_watches_fold_missing observed keys watches registry :
  Forall (fun key => registry !! key = None) keys ->
  fold_left (get_watches_outer observed) keys (watches, registry)
  = (watches, registry).
Proof.
  induction 1 as [|key keys Hkey _ IH]; [done|].
  cbn [fold_left]. rewrite get_watches_outer_eq, Hkey. cbn [default].
  rewrite filter_nil, app_nil_r, decide_True by done.
  by rewrite delete_id.
Qed.

Lemma get_watches_fold_acc observed keys watches registry :
  fold_left (get_watches_outer observed) keys (watches, registry)
  = (watches ++ (fold_left (get_watches_outer observed) keys ([], registry)).1,
     (fold_left (get_watches_outer observed) keys ([], registry)).2).
Proof.
  revert watches registry.
  induction keys as [|key keys IH]; intros watches registry.
  - cbn [fold_left fst snd]. by rewrite app_nil_r.
  - cbn [fold_left]. rewrite !get_watches_outer_eq. cbn [app].
    rewrite IH. rewrite (IH (filter _ _)). cbn [fst snd]. by rewrite app_assoc.
Qed.

End RegistryKeys.

(** X19. Every key of the watch registry has the 32 characters of an MD5
    hex digest: [add_watch] is the only method that adds a key and it hashes
    the path. So on any queue the methods can produce that is not closing,
    [get_watches] for keys of any other length (a plain path such as "/y")
    returns no watch and leaves the queue as it is. *)
Theorem X19_registry_keys_have_digest_length :
  forall (q : EventQueue.t) (keys : list string) (observed : Z),
    EventQueue.reachable q ->
    EventQueue._closing q = false ->
    Forall (fun key => String.length key <> 32%nat) keys ->
    keys_have_digest_length (EventQueue._watches q)
    /\ EventQueue.get_watches keys observed q = (inr [], q).
Proof.
  intros q keys observed Hreach Hc Hkeys.
  pose proof (keys_have_digest_length_reachable q Hreach) as Hinv.
  split; [done|].
  rewrite get_watches_open by done.
  rewrite get_watches_fold_missing.
  - destruct q as [items registry closing log]. cbn in Hc |- *. by subst.
  - eapply Forall_impl; [exact Hkeys|]. intros key Hlen. cbn beta in Hlen.
    destruct (EventQueue._watches q !! key) as [bucket|] eqn:Hb; [|done].
    by destruct Hlen; eapply Hinv.
Qed.

Lemma X19_registry_keys_witness :
  EventQueue.get_watches ["/y"; "/x"] 20
    (EventQueue.perform (EventQueue.AddWatch "/x" Sample.data_watch)
       EventQueue.init).2
  = (inr [],
     (EventQueue.perform (EventQueue.AddWatch "/x" Sample.data_watch)
        EventQueue.init).2).
Proof.
  assert (Hc : EventQueue._closing
                 (EventQueue.perform (EventQueue.AddWatch "/x" Sample.data_watch)
                    EventQueue.init).2 = false)
    by (vm_compute; reflexivity).
  assert (Hkeys : Forall (fun key => String.length key <> 32%nat) ["/y"; "/x"])
    by (repeat constructor; simpl; lia).
  exact (proj2 (X19_registry_keys_have_digest_length _ ["/y"; "/x"] 20
                  (EventQueue.reachable_perform _ _ EventQueue.reachable_init)
                  Hc Hkeys)).
Defined.

(** X20. [get_watches] works through its keys one after the other on the
    registry the earlier keys left behind: on a queue that is not closing,
    one call for the keys [keys1 ++ keys2] returns the watches of a call for
    [keys1] followed by those of a call for [keys2] on the resulting queue,
    and ends in the same queue. The two calls of the sorter, for the hashed
    node path and then for the epoch keys, thus retrieve and remove what a
    single call for all these keys would. *)
Theorem X20_get_watches_key_by_key :
  forall (q : EventQueue.t) (keys1 keys2 : list string) (observed : Z),
    EventQueue._closing q = false ->
    exists watches1 q1 watches2 q2,
      EventQueue.get_watches keys1 observed q = (inr watches1, q1)
      /\ EventQueue.get_watches keys2 observed q1 = (inr watches2, q2)
      /\ EventQueue.get_watches (keys1 ++ keys2) observed q
         = (inr (watches1 ++ watches2), q2).
Proof.
  intros q keys1 keys2 observed Hc.
  rewrite !get_watches_open by done.
  eexists _, _, _, _. split; [reflexivity|].
  rewrite get_watches_open by done. split; [reflexivity|].
  cbn [EventQueue._queue EventQueue._watches EventQueue._log].
  rewrite fold_left_app.
  destruct (fold_left _ keys1 _) as [watches1 registry1].
  rewrite get_watches_fold_acc. done.
Qed.

Lemma X20_get_watches_witness :
  exists watches1 q1 watches2 q2,
    EventQueue.get_watches [MD5.hexdigest "/x"] 20 Sample.two_watches
    = (inr watches1, q1)
    /\ EventQueue.get_watches [MD5.hexdigest "/y"] 20 q1 = (inr watches2, q2)
    /\ EventQueue.get_watches [MD5.hexdigest "/x"; MD5.hexdigest "/y"] 20
         Sample.two_watches
       = (inr (watches1 ++ watches2), q2).
Proof.
  assert (Hc : EventQueue._closing Sample.two_watches = false)
    by (vm_compute; reflexivity).
  exact (X20_get_watches_key_by_key Sample.two_watches
           [MD5.hexdigest "/x"] [MD5.hexdigest "/y"] 20 Hc).
Defined.
